(** * Underwriting rules engine and loan sizing engine

    A shallow embedding of the numeric core of the repository
    (loan_sizing_engine.py, underwriting_analyzer.py, underwriting_output.py,
    document_processor.py) and the properties its specification states.

    Python floats are modelled as exact rationals ([Q]); the one
    non-finite value the code produces on purpose, [float('inf')], is a
    constructor of its own.  Rounding is therefore abstracted away, except
    in the module [Binary64], which sizes the loans in binary64 arithmetic.

    A pandas frame is a list of column labels and a list of rows of cells.
    Rows are addressed by position and a boolean mask selects row by row.
    Where the code depends on the labels of the rows, a second model keeps
    them: the module [Indexed] for the rent roll and the definitions on
    [IndexedFrame] for the table cleaner.  Text is ASCII. *)

From Stdlib Require Import QArith Qminmax Qpower Qabs ZArith List String Ascii
  Bool Arith Lia Lqa Permutation.
From Stdlib Require PrimFloat.
Import ListNotations.

Open Scope Q_scope.

(** ** Python values shared by all modules *)

(** The exceptions the modelled code can raise. *)
Inductive exn : Type :=
| ValueError
| ZeroDivisionError
| TypeError
| IndexingError.

(** The outcome of a call: a value, or a raised exception. *)
Inductive result (A : Type) : Type :=
| Ok (a : A)
| Raise (e : exn).

Arguments Ok {A} a.
Arguments Raise {A} e.

Definition bind {A B : Type} (m : result A) (k : A -> result B) : result B :=
  match m with
  | Ok a => k a
  | Raise e => Raise e
  end.

Notation "x <- m ;; k" := (bind m (fun x => k))
  (at level 61, m at next level, right associativity).

(** A float that may be [float('inf')]. *)
Inductive xfloat : Type :=
| Fin (q : Q)
| PosInf.

(** [a < b] on floats. *)
Definition Qlt_bool (a b : Q) : bool := negb (Qle_bool b a).

Definition xlt_bool (a b : xfloat) : bool :=
  match a, b with
  | Fin x, Fin y => Qlt_bool x y
  | Fin _, PosInf => true
  | PosInf, _ => false
  end.

(** True division [a / b]: raises on a zero divisor. *)
Definition pydiv (a b : Q) : result Q :=
  if Qeq_bool b 0 then Raise ZeroDivisionError else Ok (a / b).

(** Truthiness of an [Optional[float]]: [None] and [0.0] are false. *)
Definition truthy (o : option Q) : bool :=
  match o with
  | Some q => negb (Qeq_bool q 0)
  | None => false
  end.

(** [min(d.values())] for a dict whose first value is finite: the running
    best is replaced only by a strictly smaller item. *)
Fixpoint py_min (best : Q) (rest : list xfloat) : Q :=
  match rest with
  | [] => best
  | Fin y :: rest' => py_min (if Qlt_bool y best then y else best) rest'
  | PosInf :: rest' => py_min best rest'
  end.

(** [min(d, key=d.get)]: the first key whose value is minimal. *)
Fixpoint py_argmin (bestk : string) (best : xfloat)
  (rest : list (string * xfloat)) : string :=
  match rest with
  | [] => bestk
  | (k, v) :: rest' =>
      if xlt_bool v best then py_argmin k v rest' else py_argmin bestk best rest'
  end.

(** ** loan_sizing_engine.py *)

Inductive LoanType : Type :=
| FANNIE_FREDDIE
| CMBS
| DEBT_FUND.

Definition LoanType_eqb (a b : LoanType) : bool :=
  match a, b with
  | FANNIE_FREDDIE, FANNIE_FREDDIE => true
  | CMBS, CMBS => true
  | DEBT_FUND, DEBT_FUND => true
  | _, _ => false
  end.

(** Iteration order of [for loan_type in LoanType]. *)
Definition all_loan_types : list LoanType := [FANNIE_FREDDIE; CMBS; DEBT_FUND].

Inductive TreasuryTerm : Type :=
| FIVE_YEAR
| SEVEN_YEAR
| TEN_YEAR
| FIFTEEN_YEAR
| TWENTY_YEAR
| THIRTY_YEAR.

Module LoanConstraints.
Record t : Type := mk {
  max_ltv : Q;
  min_dscr : Q;
  min_debt_yield : option Q;
  amortization_years : option Z;
  interest_only : bool;
  base_spread : Q;
  min_loan_amount : option Q;
  max_loan_amount : option Q;
  has_tier_pricing : bool;
  step_down_prepay_spread : option Q
}.
End LoanConstraints.

Module TierPricing.
Record t : Type := mk {
  tier_name : string;
  max_ltv : Q;
  min_dscr : Q;
  spread_adjustment : Q
}.
End TierPricing.

(** The [notes] field (formatted text) is not part of the model. *)
Module LoanScenario.
Record t : Type := mk {
  loan_type : LoanType;
  tier_name : option string;
  loan_amount : Q;
  ltv : Q;
  dscr : xfloat;
  debt_yield : Q;
  interest_rate : Q;
  payment : Q;
  amortization_years : option Z;
  treasury_rate : Q;
  spread : Q;
  step_down_prepay : bool;
  constraint_binding : string
}.
End LoanScenario.

(** The mutable state of a [LoanSizingEngine]; the rate table, the loan
    types and the tiers are fixed by [__init__] and never reassigned. *)
Record LoanSizingEngine : Type := {
  noi : Q;
  property_value : Q;
  cap_rate : Q;
  treasury_term : TreasuryTerm
}.

Definition treasury_rates (term : TreasuryTerm) : Q :=
  match term with
  | FIVE_YEAR => 4.25
  | SEVEN_YEAR => 4.35
  | TEN_YEAR => 4.45
  | FIFTEEN_YEAR => 4.60
  | TWENTY_YEAR => 4.75
  | THIRTY_YEAR => 4.85
  end.

Definition _define_loan_types (lt : LoanType) : LoanConstraints.t :=
  match lt with
  | FANNIE_FREDDIE =>
      LoanConstraints.mk 0.75 1.25 (Some 0.08) (Some 30%Z) false 150
        (Some 1000000) None true (Some 50)
  | CMBS =>
      LoanConstraints.mk 0.75 1.25 (Some 0.09) None true 300
        (Some 5000000) None false None
  | DEBT_FUND =>
      LoanConstraints.mk 0.80 0.95 None (Some 25%Z) false 150
        (Some 20000000) None false None
  end.

Definition _define_tier_pricing : list TierPricing.t :=
  [ TierPricing.mk "Tier 2" 0.75 1.25 0;
    TierPricing.mk "Tier 3" 0.65 1.35 (-25);
    TierPricing.mk "Tier 4" 0.55 1.45 (-50) ].

(** [__init__] *)
Definition init : LoanSizingEngine :=
  {| noi := 0; property_value := 0; cap_rate := 0; treasury_term := TEN_YEAR |}.

(** [set_property_data(noi, cap_rate, property_value)] *)
Definition set_property_data (self : LoanSizingEngine) (noi' : Q)
  (cap_rate' property_value' : option Q) : result LoanSizingEngine :=
  if truthy property_value' then
    match property_value' with
    | Some pv =>
        Ok {| noi := noi';
              property_value := pv;
              cap_rate := if Qlt_bool 0 pv then noi' / pv else 0;
              treasury_term := treasury_term self |}
    | None => Raise ValueError
    end
  else if truthy cap_rate' then
    match cap_rate' with
    | Some cr =>
        Ok {| noi := noi';
              property_value := if Qlt_bool 0 cr then noi' / cr else 0;
              cap_rate := cr;
              treasury_term := treasury_term self |}
    | None => Raise ValueError
    end
  else Raise ValueError.

Definition set_treasury_term (self : LoanSizingEngine) (term : TreasuryTerm)
  : LoanSizingEngine :=
  {| noi := noi self; property_value := property_value self;
     cap_rate := cap_rate self; treasury_term := term |}.

Definition get_treasury_rate (self : LoanSizingEngine) : Q :=
  match treasury_term self with
  | FIFTEEN_YEAR => (treasury_rates TEN_YEAR + treasury_rates TWENTY_YEAR) / 2
  | term => treasury_rates term
  end.

Definition _calculate_spread (loan_type : LoanType)
  (constraints : LoanConstraints.t) (tier : option TierPricing.t)
  (loan_amount : Q) (step_down_prepay : bool) : Q :=
  let base_spread := LoanConstraints.base_spread constraints in
  let base_spread :=
    match loan_type with
    | FANNIE_FREDDIE => if Qle_bool 6000000 loan_amount then 150 else 200
    | _ => base_spread
    end in
  let base_spread :=
    match tier with
    | Some t => base_spread + TierPricing.spread_adjustment t
    | None => base_spread
    end in
  if step_down_prepay && truthy (LoanConstraints.step_down_prepay_spread constraints)
  then match LoanConstraints.step_down_prepay_spread constraints with
       | Some s => base_spread + s
       | None => base_spread
       end
  else base_spread.

(** The three ceilings of [_calculate_single_scenario], in dict order. *)
Definition ltv_max_loan (self : LoanSizingEngine) (constraints : LoanConstraints.t)
  (tier : option TierPricing.t) : Q :=
  let max_ltv := match tier with
                 | Some t => TierPricing.max_ltv t
                 | None => LoanConstraints.max_ltv constraints
                 end in
  property_value self * max_ltv.

Definition dscr_max_loan (self : LoanSizingEngine) (constraints : LoanConstraints.t)
  (tier : option TierPricing.t) : xfloat :=
  let min_dscr := match tier with
                  | Some t => TierPricing.min_dscr t
                  | None => LoanConstraints.min_dscr constraints
                  end in
  if Qlt_bool 0 min_dscr then Fin (noi self / min_dscr) else PosInf.

Definition debt_yield_max_loan (self : LoanSizingEngine)
  (constraints : LoanConstraints.t) : xfloat :=
  if truthy (LoanConstraints.min_debt_yield constraints) then
    match LoanConstraints.min_debt_yield constraints with
    | Some dy => Fin (noi self / dy)
    | None => PosInf
    end
  else PosInf.

(** [(payment, dscr)] of a scenario. *)
Definition payment_and_dscr (self : LoanSizingEngine)
  (constraints : LoanConstraints.t) (loan_amount interest_rate : Q)
  : result (Q * xfloat) :=
  if LoanConstraints.interest_only constraints then
    let payment := loan_amount * (interest_rate / 100) / 12 in
    dscr <- (if Qlt_bool 0 payment
             then d <- pydiv (noi self / 12) payment ;; Ok (Fin d)
             else Ok PosInf) ;;
    Ok (payment, dscr)
  else
    let monthly_rate := interest_rate / 100 / 12 in
    match LoanConstraints.amortization_years constraints with
    | None => Raise TypeError
    | Some years =>
        let num_payments := (years * 12)%Z in
        payment <-
          (if Qlt_bool 0 monthly_rate
           then pydiv (loan_amount * (monthly_rate * (1 + monthly_rate) ^ num_payments))
                      ((1 + monthly_rate) ^ num_payments - 1)
           else pydiv loan_amount (inject_Z num_payments)) ;;
        dscr <- (if Qlt_bool 0 payment
                 then d <- pydiv (noi self / 12) payment ;; Ok (Fin d)
                 else Ok PosInf) ;;
        Ok (payment, dscr)
    end.

Definition _calculate_single_scenario (self : LoanSizingEngine)
  (loan_type : LoanType) (constraints : LoanConstraints.t)
  (tier : option TierPricing.t) (step_down_prepay : bool)
  : result (option LoanScenario.t) :=
  let ltv_max := ltv_max_loan self constraints tier in
  let dscr_max := dscr_max_loan self constraints tier in
  let debt_yield_max := debt_yield_max_loan self constraints in
  let loan_amount := py_min ltv_max [dscr_max; debt_yield_max] in
  let constraint_binding :=
    py_argmin "LTV" (Fin ltv_max)
      [("DSCR"%string, dscr_max); ("Debt Yield"%string, debt_yield_max)] in
  let below_minimum :=
    match LoanConstraints.min_loan_amount constraints with
    | Some m => negb (Qeq_bool m 0) && Qlt_bool loan_amount m
    | None => false
    end in
  if below_minimum then Ok None
  else
    ltv <- pydiv loan_amount (property_value self) ;;
    debt_yield <- (if Qlt_bool 0 loan_amount
                   then pydiv (noi self) loan_amount else Ok 0) ;;
    let treasury_rate := get_treasury_rate self in
    let spread :=
      _calculate_spread loan_type constraints tier loan_amount step_down_prepay in
    let interest_rate := treasury_rate + spread / 100 in
    pd <- payment_and_dscr self constraints loan_amount interest_rate ;;
    Ok (Some (LoanScenario.mk loan_type
                (option_map TierPricing.tier_name tier)
                loan_amount ltv (snd pd) debt_yield interest_rate (fst pd)
                (LoanConstraints.amortization_years constraints)
                treasury_rate spread step_down_prepay constraint_binding)).

(** The loop over the tiers: appends every scenario that is not [None]. *)
Fixpoint tier_scenarios (self : LoanSizingEngine) (loan_type : LoanType)
  (constraints : LoanConstraints.t) (tiers : list TierPricing.t)
  (step_down_prepay : bool) : result (list LoanScenario.t) :=
  match tiers with
  | [] => Ok []
  | tier :: tiers' =>
      scenario <- _calculate_single_scenario self loan_type constraints
                    (Some tier) step_down_prepay ;;
      scenarios <- tier_scenarios self loan_type constraints tiers'
                     step_down_prepay ;;
      Ok (match scenario with
          | Some s => s :: scenarios
          | None => scenarios
          end)
  end.

Definition _calculate_loan_type_scenarios (self : LoanSizingEngine)
  (loan_type : LoanType) (step_down_prepay : bool)
  : result (list LoanScenario.t) :=
  let constraints := _define_loan_types loan_type in
  let too_small :=
    match LoanConstraints.min_loan_amount constraints with
    | Some m =>
        negb (Qeq_bool m 0)
        && Qlt_bool (property_value self * LoanConstraints.max_ltv constraints) m
    | None => false
    end in
  if too_small then Ok []
  else if LoanType_eqb loan_type FANNIE_FREDDIE
          && LoanConstraints.has_tier_pricing constraints
  then tier_scenarios self loan_type constraints _define_tier_pricing
         step_down_prepay
  else
    scenario <- _calculate_single_scenario self loan_type constraints None
                  step_down_prepay ;;
    Ok (match scenario with
        | Some s => [s]
        | None => []
        end).

(** [list.sort(key=lambda x: x.loan_amount, reverse=True)]: a stable sort,
    so scenarios with equal amounts keep their relative order. *)
Fixpoint insert_desc (s : LoanScenario.t) (l : list LoanScenario.t)
  : list LoanScenario.t :=
  match l with
  | [] => [s]
  | y :: l' =>
      if Qlt_bool (LoanScenario.loan_amount s) (LoanScenario.loan_amount y)
      then y :: insert_desc s l'
      else s :: y :: l'
  end.

Definition sort_desc (l : list LoanScenario.t) : list LoanScenario.t :=
  fold_right insert_desc [] l.

(** The loop [for loan_type in LoanType: scenarios.extend(...)]. *)
Fixpoint extend_all (self : LoanSizingEngine) (types : list LoanType)
  (step_down_prepay : bool) : result (list LoanScenario.t) :=
  match types with
  | [] => Ok []
  | loan_type :: types' =>
      loan_scenarios <- _calculate_loan_type_scenarios self loan_type
                          step_down_prepay ;;
      scenarios <- extend_all self types' step_down_prepay ;;
      Ok (loan_scenarios ++ scenarios)
  end.

Definition calculate_loan_scenarios (self : LoanSizingEngine)
  (step_down_prepay : bool) : result (list LoanScenario.t) :=
  if Qle_bool (noi self) 0 || Qle_bool (property_value self) 0
  then Raise ValueError
  else
    scenarios <- extend_all self all_loan_types step_down_prepay ;;
    Ok (sort_desc scenarios).

(** The worked example of the specification: an NOI of 500,000 at a 6% cap
    rate. *)
Definition engine_500K_6pct : LoanSizingEngine :=
  {| noi := 500000; property_value := 500000 / 0.06; cap_rate := 0.06;
     treasury_term := TEN_YEAR |}.

(** A ten-million-dollar NOI on a hundred-million-dollar property. *)
Definition engine_10M_100M : LoanSizingEngine :=
  {| noi := 10000000; property_value := 100000000; cap_rate := 0.1;
     treasury_term := TEN_YEAR |}.

(** *** The combinations the engine evaluates *)

(** The program/tier combinations [_calculate_loan_type_scenarios] evaluates:
    one per tier for Fannie/Freddie, the program alone otherwise. *)
Definition applicable (lt : LoanType) (tier : option TierPricing.t) : Prop :=
  match lt with
  | FANNIE_FREDDIE => exists t, tier = Some t /\ In t _define_tier_pricing
  | _ => tier = None
  end.

(** The program minimum, [min_loan_amount]. *)
Definition program_minimum (lt : LoanType) : Q :=
  match LoanConstraints.min_loan_amount (_define_loan_types lt) with
  | Some m => m
  | None => 0
  end.

(** The amount [_calculate_single_scenario] computes before its minimum check. *)
Definition computed_loan_amount (self : LoanSizingEngine) (lt : LoanType)
  (tier : option TierPricing.t) : Q :=
  let c := _define_loan_types lt in
  py_min (ltv_max_loan self c tier)
    [dscr_max_loan self c tier; debt_yield_max_loan self c].

(** Programs whose payment can be computed: interest-only, or amortizing
    over a positive number of years. *)
Definition payable (c : LoanConstraints.t) : Prop :=
  LoanConstraints.interest_only c = true
  \/ exists years, LoanConstraints.amortization_years c = Some years
                   /\ (0 < years)%Z.

(** *** The ceilings as the specification words them *)

Definition applicable_max_ltv (lt : LoanType) (tier : option TierPricing.t) : Q :=
  match tier with
  | Some t => TierPricing.max_ltv t
  | None => LoanConstraints.max_ltv (_define_loan_types lt)
  end.

Definition applicable_min_dscr (lt : LoanType) (tier : option TierPricing.t) : Q :=
  match tier with
  | Some t => TierPricing.min_dscr t
  | None => LoanConstraints.min_dscr (_define_loan_types lt)
  end.

Definition LTV_ceiling (self : LoanSizingEngine) (lt : LoanType)
  (tier : option TierPricing.t) : Q :=
  property_value self * applicable_max_ltv lt tier.

Definition DSCR_ceiling (self : LoanSizingEngine) (lt : LoanType)
  (tier : option TierPricing.t) : Q :=
  noi self / applicable_min_dscr lt tier.

Definition debt_yield_ceiling (self : LoanSizingEngine) (lt : LoanType) : xfloat :=
  match LoanConstraints.min_debt_yield (_define_loan_types lt) with
  | Some dy => Fin (noi self / dy)
  | None => PosInf
  end.

Definition min_of_ceilings (self : LoanSizingEngine) (lt : LoanType)
  (tier : option TierPricing.t) : Q :=
  match debt_yield_ceiling self lt with
  | Fin dy_ceiling =>
      Qmin (Qmin (LTV_ceiling self lt tier) (DSCR_ceiling self lt tier)) dy_ceiling
  | PosInf => Qmin (LTV_ceiling self lt tier) (DSCR_ceiling self lt tier)
  end.

(** Adjacent scenarios in non-increasing, resp. decreasing, order of amount. *)
Fixpoint descending (l : list LoanScenario.t) : Prop :=
  match l with
  | x :: (y :: _) as tl =>
      LoanScenario.loan_amount y <= LoanScenario.loan_amount x /\ descending tl
  | _ => True
  end.

Fixpoint strictly_descending (l : list LoanScenario.t) : Prop :=
  match l with
  | x :: (y :: _) as tl =>
      LoanScenario.loan_amount y < LoanScenario.loan_amount x
      /\ strictly_descending tl
  | _ => True
  end.

(** ** Strings and tables *)

Open Scope string_scope.

Definition is_digit (c : ascii) : bool :=
  let n := nat_of_ascii c in (48 <=? n)%nat && (n <=? 57)%nat.

Definition lower_ascii (c : ascii) : ascii :=
  let n := nat_of_ascii c in
  if (65 <=? n)%nat && (n <=? 90)%nat then ascii_of_nat (n + 32) else c.

Definition upper_ascii (c : ascii) : ascii :=
  let n := nat_of_ascii c in
  if (97 <=? n)%nat && (n <=? 122)%nat then ascii_of_nat (n - 32) else c.

Definition is_alpha (c : ascii) : bool :=
  let n := nat_of_ascii c in
  ((65 <=? n)%nat && (n <=? 90)%nat) || ((97 <=? n)%nat && (n <=? 122)%nat).

(** [str.lower()], on ASCII text. *)
Fixpoint lower (s : string) : string :=
  match s with
  | EmptyString => EmptyString
  | String c s' => String (lower_ascii c) (lower s')
  end.

(** [needle in s] *)
Fixpoint contains (needle s : string) : bool :=
  prefix needle s
  || match s with
     | EmptyString => false
     | String _ s' => contains needle s'
     end.

(** A table cell: [None] is a missing value (NaN), [Some s] holds the text
    [str()] gives for the cell. *)
Definition cell : Type := option string.

(** [astype(str)] *)
Definition astype_str (c : cell) : string :=
  match c with
  | Some s => s
  | None => "nan"
  end.

(** A data frame: column labels and rows of cells.  Rows are addressed by
    position (the default index); boolean masks apply row by row. *)
Record DataFrame : Type := {
  columns : list cell;
  rows : list (list cell)
}.

(** The cell of a row in the column at position [col]. *)
Definition at_col (col : nat) (row : list cell) : cell :=
  match nth_error row col with
  | Some c => c
  | None => None
  end.

(** ** underwriting_analyzer.py: the rent roll *)

(** The definitions of this part read the frame by position.  They give
    what the program returns whenever it returns (lemma
    [returned_analysis]); the two errors pandas raises on row labels and
    mask lengths are part of the module [Indexed] further down. *)

(** [_find_column]: the first column whose lower-cased label contains one of
    the keywords, as a position (labels are taken to be distinct). *)
Fixpoint find_from (pos : nat) (cols : list cell) (keywords : list string)
  : option nat :=
  match cols with
  | [] => None
  | col :: cols' =>
      let col_lower := lower (astype_str col) in
      if existsb (fun keyword => contains (lower keyword) col_lower) keywords
      then Some pos
      else find_from (S pos) cols' keywords
  end.

Definition _find_column (df : DataFrame) (keywords : list string) : option nat :=
  find_from 0 (columns df) keywords.

(** [str.replace(r'[^\d.]', '', regex=True)]: keeps digits and dots. *)
Fixpoint strip_non_numeric (s : string) : string :=
  match s with
  | EmptyString => EmptyString
  | String c s' =>
      if is_digit c || Ascii.eqb c "."
      then String c (strip_non_numeric s')
      else strip_non_numeric s'
  end.

Fixpoint parse_digits (s : string) (acc : Z) : option Z :=
  match s with
  | EmptyString => Some acc
  | String c s' =>
      if is_digit c
      then parse_digits s' (10 * acc + Z.of_nat (nat_of_ascii c - 48))%Z
      else None
  end.

(** The text before the first dot and, when there is a dot, the text after it. *)
Fixpoint split_dot (s : string) : string * option string :=
  match s with
  | EmptyString => (EmptyString, None)
  | String c s' =>
      if Ascii.eqb c "."
      then (EmptyString, Some s')
      else let (a, b) := split_dot s' in (String c a, b)
  end.

(** [pd.to_numeric(..., errors='coerce')] on text made of digits and dots:
    [None] is NaN. *)
Definition to_numeric (s : string) : option Q :=
  match split_dot s with
  | (ip, None) =>
      if String.eqb ip "" then None
      else option_map inject_Z (parse_digits ip 0)
  | (ip, Some fp) =>
      if String.eqb ip "" && String.eqb fp "" then None
      else
        match parse_digits ip 0, parse_digits fp 0 with
        | Some a, Some b =>
            Some (inject_Z a
                  + inject_Z b / inject_Z (10 ^ Z.of_nat (String.length fp)))%Q
        | _, _ => None
        end
  end.

(** The [clean_rent] of a row. *)
Definition clean_rent_of (rent_col : nat) (row : list cell) : option Q :=
  to_numeric (strip_non_numeric (astype_str (at_col rent_col row))).

(** A row of the frame once [clean_rent] is added and the rows with an
    invalid rent are gone. *)
Record UnitRecord : Type := {
  cells : list cell;
  clean_rent : Q
}.

(** [df = df[df['clean_rent'] > 0]] *)
Fixpoint valid_rent_rows (rent_col : nat) (rs : list (list cell)) : list UnitRecord :=
  match rs with
  | [] => []
  | row :: rs' =>
      match clean_rent_of rent_col row with
      | Some rent =>
          if Qlt_bool 0 rent
          then {| cells := row; clean_rent := rent |}
               :: valid_rent_rows rent_col rs'
          else valid_rent_rows rent_col rs'
      | None => valid_rent_rows rent_col rs'
      end
  end.

(** [df[status_col].astype(str).str.lower()] for one row. *)
Definition status_of (status_col : nat) (u : UnitRecord) : string :=
  lower (astype_str (at_col status_col (cells u))).

(** [len(df[df['clean_rent'] > 0])] *)
Definition count_positive_rent (df : list UnitRecord) : Z :=
  Z.of_nat (List.length (filter (fun u => Qlt_bool 0 (clean_rent u)) df)).

(** The loop over the occupied keywords: the first keyword that matches any
    row decides the count. *)
Fixpoint count_first_keyword (keywords : list string) (status_col : nat)
  (df : list UnitRecord) : option Z :=
  match keywords with
  | [] => None
  | keyword :: keywords' =>
      let occupied_mask := map (fun u => contains keyword (status_of status_col u)) df in
      if existsb (fun b => b) occupied_mask
      then Some (Z.of_nat (List.length (filter (fun b => b) occupied_mask)))
      else count_first_keyword keywords' status_col df
  end.

Definition _count_occupied_units (df : list UnitRecord) (status_col : option nat) : Z :=
  match status_col with
  | None => count_positive_rent df
  | Some sc =>
      match count_first_keyword ["occupied"; "occ"; "rented"] sc df with
      | Some n => n
      | None => count_positive_rent df
      end
  end.

(** One entry of [vacant_mask]. *)
Definition is_vacant (status_col : nat) (u : UnitRecord) : bool :=
  existsb (fun keyword => contains keyword (status_of status_col u))
    ["vacant"; "vac"; "empty"].

(** [df[type_col] == unit_type]: a missing value equals nothing. *)
Definition same_type (type_col : nat) (unit_type : cell) (u : UnitRecord) : bool :=
  match unit_type, at_col type_col (cells u) with
  | Some a, Some b => String.eqb a b
  | _, _ => false
  end.

(** [series.sum()] and [series.mean()] of [clean_rent]. *)
Definition sum_rent (us : list UnitRecord) : Q :=
  fold_left (fun acc u => acc + clean_rent u)%Q us 0%Q.

Definition mean_rent (us : list UnitRecord) : Q :=
  (sum_rent us / inject_Z (Z.of_nat (List.length us)))%Q.

(** [type_units[~vacant_mask & ...]] for the type of one vacant unit. *)
Definition occupied_type_units (df : list UnitRecord) (type_col status_col : nat)
  (unit_type : cell) : list UnitRecord :=
  let type_units := filter (same_type type_col unit_type) df in
  filter (fun u => negb (is_vacant status_col u)) type_units.

(** The body of the loop over the vacant units. *)
Definition add_vacant_unit (df : list UnitRecord) (type_col status_col : nat)
  (vacant_income : Q) (vacant_unit : UnitRecord) : Q :=
  let unit_type := at_col type_col (cells vacant_unit) in
  let occupied := occupied_type_units df type_col status_col unit_type in
  if (0 <? List.length occupied)%nat
  then (vacant_income + mean_rent occupied)%Q
  else vacant_income.

Definition _calculate_vacant_income (df : list UnitRecord)
  (type_col status_col : option nat) : Q :=
  match type_col, status_col with
  | Some tc, Some sc =>
      let vacant_units := filter (is_vacant sc) df in
      fold_left (add_vacant_unit df tc sc) vacant_units 0%Q
  | _, _ => 0%Q
  end.

(** The [rent_analysis] entry of the result. *)
Record RentAnalysis : Type := {
  total_units : Z;
  occupied_units : Z;
  vacant_units : Z;
  current_monthly_income : Q;
  vacant_unit_income : Q;
  gross_potential_income : Q;
  annual_gpi : Q
}.

(** [_analyze_rent_roll], as far as [rent_analysis]: [None] is the empty
    dict left when no rent column is found. *)
Definition _analyze_rent_roll (df : DataFrame) : option RentAnalysis :=
  let rent_col := _find_column df ["rent"; "current rent"; "monthly rent"] in
  let unit_type_col := _find_column df ["type"; "unit type"; "bed"; "bedroom"] in
  let status_col := _find_column df ["status"; "occupied"; "vacant"] in
  match rent_col with
  | None => None
  | Some rc =>
      let df' := valid_rent_rows rc (rows df) in
      let total := Z.of_nat (List.length df') in
      let occupied := _count_occupied_units df' status_col in
      let current_income :=
        sum_rent (filter (fun u => Qlt_bool 0 (clean_rent u)) df') in
      let vacant_income := _calculate_vacant_income df' unit_type_col status_col in
      let gpi := (current_income + vacant_income)%Q in
      Some {| total_units := total;
              occupied_units := occupied;
              vacant_units := (total - occupied)%Z;
              current_monthly_income := current_income;
              vacant_unit_income := vacant_income;
              gross_potential_income := gpi;
              annual_gpi := (gpi * 12)%Q |}
  end.

(** Two one-bedroom units at 1,000 a month, one let and one vacant. *)
Definition rent_roll_vacant_listed : DataFrame :=
  {| columns := [Some "Unit"; Some "Type"; Some "Rent"; Some "Status"];
     rows := [ [Some "101"; Some "1BR"; Some "1000"; Some "Occupied"];
               [Some "102"; Some "1BR"; Some "1000"; Some "Vacant"] ] |}.

(** Its rows once the rent is cleaned, and its vacant unit. *)
Definition units_vacant_listed : list UnitRecord :=
  valid_rent_rows 2 (rows rent_roll_vacant_listed).

Definition unit_102 : UnitRecord :=
  {| cells := [Some "102"; Some "1BR"; Some "1000"; Some "Vacant"];
     clean_rent := 1000 |}.

(** The same building with the vacant unit listed at a rent of 0. *)
Definition rent_roll_vacant_zero : DataFrame :=
  {| columns := [Some "Unit"; Some "Type"; Some "Rent"; Some "Status"];
     rows := [ [Some "101"; Some "1BR"; Some "1000"; Some "Occupied"];
               [Some "102"; Some "1BR"; Some "0"; Some "Vacant"] ] |}.

(** Whether the rent of a row parses to a positive number. *)
Definition has_valid_rent (rent_col : nat) (row : list cell) : bool :=
  match clean_rent_of rent_col row with
  | Some rent => Qlt_bool 0 rent
  | None => false
  end.

(** *** The rent roll as the specification words it *)

(** The units of the type of [u] that are not vacant: its occupied
    comparators. *)
Definition occupied_comparators (df : list UnitRecord) (type_col status_col : nat)
  (u : UnitRecord) : list UnitRecord :=
  filter (fun v => same_type type_col (at_col type_col (cells u)) v
                   && negb (is_vacant status_col v)) df.

(** The average rent of a non-empty list of units. *)
Definition average_rent (us : list UnitRecord) : Q :=
  (fold_right (fun u acc => clean_rent u + acc) 0 us
   / inject_Z (Z.of_nat (List.length us)))%Q.

(** The income imputed to a vacant unit: the average occupied rent of its
    type, 0 without a comparator. *)
Definition imputed_rent (df : list UnitRecord) (type_col status_col : nat) (u : UnitRecord) : Q :=
  match occupied_comparators df type_col status_col u with
  | [] => 0%Q
  | us => average_rent us
  end.

Definition total_of (f : UnitRecord -> Q) (us : list UnitRecord) : Q :=
  fold_right (fun u acc => f u + acc)%Q 0%Q us.

(** Monthly GPI in the words of the specification: the actual rent of the
    occupied units plus the imputed rent of the vacant ones. *)
Definition specified_monthly_gpi (df : list UnitRecord) (type_col status_col : nat) : Q :=
  (total_of clean_rent (filter (fun u => negb (is_vacant status_col u)) df)
   + total_of (imputed_rent df type_col status_col) (filter (is_vacant status_col) df))%Q.

Close Scope string_scope.

(** ** Python dicts with string keys *)

Open Scope string_scope.

(** Insertion-ordered association of keys to values. *)
Definition dict (V : Type) : Type := list (string * V).

Fixpoint dict_lookup {V : Type} (d : dict V) (k : string) : option V :=
  match d with
  | [] => None
  | (k', v) :: d' => if String.eqb k' k then Some v else dict_lookup d' k
  end.

(** [d.get(k, default)] *)
Definition dict_get {V : Type} (d : dict V) (k : string) (default : V) : V :=
  match dict_lookup d k with
  | Some v => v
  | None => default
  end.

(** [d[k] = v]: a present key keeps its place, a new one goes last. *)
Fixpoint dict_set {V : Type} (d : dict V) (k : string) (v : V) : dict V :=
  match d with
  | [] => [(k, v)]
  | (k', v') :: d' =>
      if String.eqb k' k then (k, v) :: d' else (k', v') :: dict_set d' k v
  end.

(** [max(a, b)] and [sum(d.values())] *)
Definition pymax (a b : Q) : Q := if Qlt_bool a b then b else a.

Definition sum_values (d : dict Q) : Q :=
  fold_left (fun acc kv => acc + snd kv)%Q d 0%Q.

(** ** underwriting_analyzer.py: the expense rules *)

(** The entries of [property_info] the rules read; [None] is an absent key. *)
Record PropertyInfo : Type := {
  property_age : option Q;
  unit_count : option Q;
  transaction_type : option string
}.

Definition rm_minimums : list ((Q * Q) * Q) :=
  [ ((0, 10), 500); ((10, 20), 600); ((20, 30), 700);
    ((30, 40), 800); ((40, 50), 900); ((50, 100), 1000) ]%Q.

(** The loop over [rm_minimums.items()], leaving at the first range that
    holds the age. *)
Fixpoint first_range (ranges : list ((Q * Q) * Q)) (age rm_minimum : Q) : Q :=
  match ranges with
  | [] => rm_minimum
  | ((lo, hi), minimum) :: ranges' =>
      if Qle_bool lo age && Qlt_bool age hi
      then minimum
      else first_range ranges' age rm_minimum
  end.

(** The three-way branch shared by repairs, payroll and admin fees. *)
Definition bounded (actual minimum_total cap : Q) : Q :=
  if Qlt_bool actual minimum_total then minimum_total
  else if Qlt_bool cap actual then cap
  else actual.

Definition mgmt_rate (gross_income : Q) : Q :=
  (if Qle_bool gross_income 500000 then 0.05
   else if Qle_bool gross_income 750000 then 0.045
   else if Qle_bool gross_income 1000000 then 0.04
   else if Qle_bool gross_income 1500000 then 0.035
   else if Qle_bool gross_income 2000000 then 0.03
   else 0.025)%Q.

(** [_apply_expense_rules]: the [adjusted_expenses] dict and
    [total_adjusted_expenses].  [rent_roll_gpi] is [None] when no rent roll
    was analysed, and the [annual_gpi] read from it otherwise. *)
Definition _apply_expense_rules (property_info : PropertyInfo)
  (rent_roll_gpi : option Q) (expense_items : dict Q) : dict Q * Q :=
  let property_age :=
    match property_age property_info with Some a => a | None => 25%Q end in
  let unit_count :=
    match unit_count property_info with Some n => n | None => 1%Q end in
  let is_refinance :=
    String.eqb
      (match transaction_type property_info with
       | Some t => t
       | None => "refinance"
       end) "refinance" in
  let adjusted_expenses : dict Q := [] in
  let adjusted_expenses :=
    match rent_roll_gpi with
    | Some gpi =>
        dict_set adjusted_expenses "vacancy"
          (pymax (gpi * 0.05) (dict_get expense_items "vacancy" 0))%Q
    | None => adjusted_expenses
    end in
  let actual_taxes := dict_get expense_items "property_taxes" 0%Q in
  let adjusted_expenses :=
    dict_set adjusted_expenses "property_taxes"
      (if is_refinance then actual_taxes * 1.075 else actual_taxes)%Q in
  let adjusted_expenses :=
    dict_set adjusted_expenses "insurance"
      (dict_get expense_items "insurance" 0 * 1.05)%Q in
  let adjusted_expenses :=
    fold_left
      (fun d utility => dict_set d utility (dict_get expense_items utility 0 * 1.02)%Q)
      ["electricity"; "water"; "sewer"; "trash"] adjusted_expenses in
  let rm_minimum := first_range rm_minimums property_age 500%Q in
  let adjusted_expenses :=
    dict_set adjusted_expenses "repairs_maintenance"
      (bounded (dict_get expense_items "repairs_maintenance" 0)
         (rm_minimum * unit_count) (1500 * unit_count))%Q in
  let adjusted_expenses :=
    dict_set adjusted_expenses "payroll"
      (bounded (dict_get expense_items "payroll" 0)
         (rm_minimum * unit_count) (1500 * unit_count))%Q in
  let adjusted_expenses :=
    dict_set adjusted_expenses "admin_fees"
      (bounded (dict_get expense_items "admin_fees" 0) 1000
         (400 * unit_count))%Q in
  let adjusted_expenses :=
    match rent_roll_gpi with
    | Some gross_income =>
        dict_set adjusted_expenses "management_fee"
          (gross_income * mgmt_rate gross_income)%Q
    | None => adjusted_expenses
    end in
  let adjusted_expenses :=
    dict_set adjusted_expenses "replacement_reserves" (250 * unit_count)%Q in
  (adjusted_expenses, sum_values adjusted_expenses).

(** A hundred units in a hundred-year-old building. *)
Definition century_old_property : PropertyInfo :=
  {| property_age := Some 100%Q; unit_count := Some 100%Q;
     transaction_type := Some "refinance" |}.

(** A hundred units in a 25-year-old building. *)
Definition property_25_years : PropertyInfo :=
  {| property_age := Some 25%Q; unit_count := Some 100%Q;
     transaction_type := Some "refinance" |}.

(** *** The clamp as the specification words it *)

Definition specified_minimum_per_unit (age : Q) : Q :=
  (if Qlt_bool age 10 then 500
   else if Qlt_bool age 20 then 600
   else if Qlt_bool age 30 then 700
   else if Qlt_bool age 40 then 800
   else if Qlt_bool age 50 then 900
   else 1000)%Q.

Definition clamp (x lo hi : Q) : Q := Qmax lo (Qmin x hi).

Definition specified_adjusted (age units actual : Q) : Q :=
  clamp actual (specified_minimum_per_unit age * units) (1500 * units).

(** ** underwriting_output.py: the underwriting summary *)

Record UnderwritingLine : Type := {
  line_item : string;
  amount : Q;
  percent_egi : Q;
  notes : string;
  category : string;
  is_override : bool
}.

(** The state [generate_underwriting_summary] reads.  [vacancy_rate] is the
    text the note shows for [expense_analysis.get('vacancy_rate', 5)]. *)
Record UnderwritingOutputGenerator : Type := {
  noi_analysis : dict Q;
  income_analysis : dict Q;
  vacancy_rate : option string;
  adjusted_expenses : dict Q;
  adjustments : dict string;
  total_adjusted_expenses : option Q
}.

(** [str.replace('_', ' ')] and [str.title()], on ASCII text. *)
Fixpoint replace_underscores (s : string) : string :=
  match s with
  | EmptyString => EmptyString
  | String c s' =>
      String (if Ascii.eqb c "_" then " "%char else c) (replace_underscores s')
  end.

Fixpoint title_from (after_letter : bool) (s : string) : string :=
  match s with
  | EmptyString => EmptyString
  | String c s' =>
      String (if is_alpha c
              then (if after_letter then lower_ascii c else upper_ascii c)
              else c)
        (title_from (is_alpha c) s')
  end.

Definition title (s : string) : string := title_from false s.

Definition _create_summary_line (line_item category : string) (amount egi : Q)
  (notes : string) : UnderwritingLine :=
  {| line_item := line_item;
     amount := amount;
     percent_egi := if Qlt_bool 0 egi then (amount / egi * 100)%Q else 0%Q;
     notes := notes;
     category := category;
     is_override :=
       negb (String.eqb notes "")
       && (contains "adjusted" (lower notes) || contains "override" (lower notes)) |}.

(** The loop over [adjusted_expenses.items()]. *)
Fixpoint expense_lines (items : dict Q) (adjustments : dict string) (egi : Q)
  : list UnderwritingLine :=
  match items with
  | [] => []
  | (expense_key, amount) :: items' =>
      if Qlt_bool 0 amount
      then _create_summary_line (title (replace_underscores expense_key))
             "EXPENSE" amount egi
             (dict_get adjustments expense_key "No adjustment applied")
           :: expense_lines items' adjustments egi
      else expense_lines items' adjustments egi
  end.

(** The EGI the percentages are taken of: an EGI of 0 is replaced by 1. *)
Definition summary_egi (self : UnderwritingOutputGenerator) : Q :=
  let egi := dict_get (noi_analysis self) "effective_gross_income" 0%Q in
  if Qeq_bool egi 0 then 1%Q else egi.

Definition generate_underwriting_summary (self : UnderwritingOutputGenerator)
  : list UnderwritingLine :=
  let egi := summary_egi self in
  let total_expenses :=
    match total_adjusted_expenses self with Some t => t | None => 0%Q end in
  let noi := (egi - total_expenses)%Q in
  [ _create_summary_line "GROSS POTENTIAL INCOME" "INCOME"
      (dict_get (income_analysis self) "gross_potential_income" 0%Q) egi
      "Based on current rent roll analysis with vacant units at market rates";
    _create_summary_line "Vacancy Loss" "INCOME"
      (- Qabs (dict_get (noi_analysis self) "vacancy_loss" 0%Q))%Q egi
      ("Applied "
       ++ match vacancy_rate self with Some r => r | None => "5" end
       ++ "% vacancy rate (higher of 5% or actuals)");
    _create_summary_line "Other Income" "INCOME"
      (dict_get (income_analysis self) "other_income" 0%Q) egi
      "Used actual T12 totals for other income streams";
    _create_summary_line "EFFECTIVE GROSS INCOME" "INCOME" egi egi
      "GPI minus vacancy loss plus other income" ]
  ++ expense_lines (adjusted_expenses self) (adjustments self) egi
  ++ [ _create_summary_line "TOTAL OPERATING EXPENSES" "EXPENSE"
         total_expenses egi "Total of all adjusted operating expenses";
       _create_summary_line "NET OPERATING INCOME" "NOI" noi egi
         "EGI minus total operating expenses" ].

(** A generator whose EGI is 0, with a GPI of 100. *)
Definition generator_zero_egi : UnderwritingOutputGenerator :=
  {| noi_analysis := [("effective_gross_income", 0%Q)];
     income_analysis := [("gross_potential_income", 100%Q)];
     vacancy_rate := None;
     adjusted_expenses := [];
     adjustments := [];
     total_adjusted_expenses := None |}.

(** A generator whose EGI is one half, with a GPI of 100. *)
Definition generator_half_egi : UnderwritingOutputGenerator :=
  {| noi_analysis := [("effective_gross_income", 0.5%Q)];
     income_analysis := [("gross_potential_income", 100%Q)];
     vacancy_rate := None;
     adjusted_expenses := [];
     adjustments := [];
     total_adjusted_expenses := None |}.

(** The GPI line of a summary. *)
Definition gpi_line (self : UnderwritingOutputGenerator) : UnderwritingLine :=
  _create_summary_line "GROSS POTENTIAL INCOME" "INCOME"
    (dict_get (income_analysis self) "gross_potential_income" 0%Q)
    (summary_egi self)
    "Based on current rent roll analysis with vacant units at market rates".

(** The EGI as the analysis reports it. *)
Definition reported_egi (self : UnderwritingOutputGenerator) : Q :=
  dict_get (noi_analysis self) "effective_gross_income" 0%Q.

(** The percentage in the words of the specification: of the EGI floored
    at 1. *)
Definition percent_of_floored_egi (amount egi : Q) : Q :=
  (amount / Qmax egi 1 * 100)%Q.

(** ** document_processor.py: the table cleaner *)

Definition is_space (c : ascii) : bool :=
  let n := nat_of_ascii c in
  (n =? 32)%nat || ((9 <=? n)%nat && (n <=? 13)%nat).

Definition is_word (c : ascii) : bool :=
  is_alpha c || is_digit c || Ascii.eqb c "_".

Fixpoint lstrip (s : string) : string :=
  match s with
  | EmptyString => EmptyString
  | String c s' => if is_space c then lstrip s' else s
  end.

(** Drops trailing white space. *)
Fixpoint rstrip (s : string) : string :=
  match s with
  | EmptyString => EmptyString
  | String c s' =>
      match rstrip s' with
      | EmptyString => if is_space c then EmptyString else String c EmptyString
      | r => String c r
      end
  end.

(** [str.strip()] *)
Definition strip (s : string) : string := rstrip (lstrip s).

(** [re.sub(r'\s+', ' ', s)] *)
Fixpoint collapse_spaces (after_space : bool) (s : string) : string :=
  match s with
  | EmptyString => EmptyString
  | String c s' =>
      if is_space c
      then (if after_space then collapse_spaces true s'
            else String " "%char (collapse_spaces true s'))
      else String c (collapse_spaces false s')
  end.

(** [re.sub(r'[^\w\s]', '', s)] *)
Fixpoint keep_word_and_space (s : string) : string :=
  match s with
  | EmptyString => EmptyString
  | String c s' =>
      if is_word c || is_space c
      then String c (keep_word_and_space s')
      else keep_word_and_space s'
  end.

Definition _clean_column_name (col_name : cell) : string :=
  match col_name with
  | None => "Unknown"
  | Some name =>
      let name := keep_word_and_space (collapse_spaces false (strip name)) in
      if String.eqb name "" then "Unknown" else name
  end.

(** [df.empty]: no rows or no columns. *)
Definition empty (df : DataFrame) : bool :=
  match columns df, rows df with
  | [], _ => true
  | _, [] => true
  | _, _ => false
  end.

Definition notna (c : cell) : bool :=
  match c with
  | Some _ => true
  | None => false
  end.

(** The number of populated cells of a row. *)
Definition populated (row : list cell) : nat :=
  List.length (filter notna row).

(** [df.dropna(how='all')] *)
Definition dropna_rows_all (df : DataFrame) : DataFrame :=
  {| columns := columns df;
     rows := filter (fun row => existsb notna row) (rows df) |}.

(** The columns kept by [dropna(axis=1, how='all')]: those with a populated
    cell in some row. *)
Definition kept_columns (df : DataFrame) : list bool :=
  map (fun col => existsb (fun row => notna (at_col col row)) (rows df))
    (seq 0 (List.length (columns df))).

Fixpoint select {A : Type} (keep : list bool) (l : list A) : list A :=
  match keep, l with
  | true :: keep', x :: l' => x :: select keep' l'
  | false :: keep', _ :: l' => select keep' l'
  | _, _ => []
  end.

Definition dropna_columns_all (df : DataFrame) : DataFrame :=
  let keep := kept_columns df in
  {| columns := select keep (columns df);
     rows := map (select keep) (rows df) |}.

(** [row.astype(str).str.lower().str.strip()] *)
Definition normalized_row (row : list cell) : list string :=
  map (fun c => strip (lower (astype_str c))) row.

Definition row_equals (a b : list string) : bool :=
  if list_eq_dec string_dec a b then true else false.

(** [_remove_duplicate_headers]: drops the later rows that repeat the first
    row. *)
Definition _remove_duplicate_headers (df : DataFrame) : DataFrame :=
  if empty df || (List.length (rows df) <? 2)%nat then df
  else
    match rows df with
    | [] => df
    | first :: others =>
        let header_row := normalized_row first in
        {| columns := columns df;
           rows := first
                   :: filter (fun row =>
                                negb (row_equals (normalized_row row) header_row))
                        others |}
    end.

(** [max(1, int(len(df.columns) * 0.3))] *)
Definition threshold (n_columns : nat) : nat :=
  Nat.max 1 (3 * n_columns / 10).

(** [df.dropna(thresh=threshold)] *)
Definition dropna_thresh (thresh : nat) (df : DataFrame) : DataFrame :=
  {| columns := columns df;
     rows := filter (fun row => (thresh <=? populated row)%nat) (rows df) |}.

Definition _clean_dataframe (df : DataFrame) : DataFrame :=
  if empty df then df
  else
    let df := dropna_columns_all (dropna_rows_all df) in
    let df := _remove_duplicate_headers df in
    let df :=
      if negb (empty df)
      then {| columns := map (fun col => Some (_clean_column_name col)) (columns df);
              rows := rows df |}
      else df in
    if negb (empty df)
    then dropna_thresh (threshold (List.length (columns df))) df
    else df.

(** Five columns; the second row has one populated cell. *)
Definition sparse_row : list cell := [Some "x"; None; None; None; None].

Definition table_with_sparse_row : DataFrame :=
  {| columns := [Some "A"; Some "B"; Some "C"; Some "D"; Some "E"];
     rows := [ [Some "a"; Some "b"; Some "c"; Some "d"; Some "e"];
               sparse_row ] |}.

(** A row with fewer than 30% of the columns populated. *)
Definition under_30_percent (n_columns : nat) (row : list cell) : bool :=
  (10 * populated row <? 3 * n_columns)%nat.

Close Scope string_scope.

(** ** Further definitions: loan sizing *)

(** What identifies a scenario in the list: its program and tier. *)
Definition scenario_key (s : LoanScenario.t) : LoanType * option string :=
  (LoanScenario.loan_type s, LoanScenario.tier_name s).

(** The sizing of a scenario, as opposed to its pricing. *)
Definition sizing (s : LoanScenario.t)
  : LoanType * option string * Q * Q * Q * string :=
  (LoanScenario.loan_type s, LoanScenario.tier_name s,
   LoanScenario.loan_amount s, LoanScenario.ltv s,
   LoanScenario.debt_yield s, LoanScenario.constraint_binding s).

(** The Fannie/Freddie spread before tier and step-down adjustments. *)
Definition fannie_freddie_base_spread (loan_amount : Q) : Q :=
  if Qle_bool 6000000 loan_amount then 150 else 200.

(** The spread adjustment of the tier of a scenario. *)
Definition tier_adjustment (tier : option TierPricing.t) : Q :=
  match tier with
  | Some t => TierPricing.spread_adjustment t
  | None => 0
  end.

(** ** Further definitions: the rent roll *)

(** Whether a column label contains one of the keywords, as [_find_column]
    tests it. *)
Definition label_matches (keywords : list string) (col : cell) : bool :=
  existsb (fun keyword => contains (lower keyword) (lower (astype_str col)))
    keywords.

(** One flag of [_flag_underpriced_units]; the message text is left out. *)
Record UnderpricedFlag : Type := {
  flag_unit : cell;
  flag_unit_type : string;
  flag_current_rent : Q;
  flag_type_average : Q;
  flag_percent_under : Q
}.

(** [series.dropna().unique()]: the values present, in order of first
    appearance. *)
Fixpoint unique_values (seen : list string) (cs : list cell) : list string :=
  match cs with
  | [] => []
  | None :: cs' => unique_values seen cs'
  | Some v :: cs' =>
      if existsb (String.eqb v) seen
      then unique_values seen cs'
      else v :: unique_values (v :: seen) cs'
  end.

(** The position of the column whose label is exactly [name]. *)
Fixpoint column_named (name : string) (pos : nat) (cols : list cell) : option nat :=
  match cols with
  | [] => None
  | Some col :: cols' =>
      if String.eqb col name then Some pos else column_named name (S pos) cols'
  | None :: cols' => column_named name (S pos) cols'
  end.

(** [unit.get('unit', 'Unknown')] *)
Definition unit_label (cols : list cell) (u : UnitRecord) : cell :=
  match column_named "unit" 0 cols with
  | Some i => at_col i (cells u)
  | None => Some "Unknown"%string
  end.

(** The flags raised for one unit type. *)
Definition flags_of_type (cols : list cell) (df : list UnitRecord)
  (type_col : nat) (unit_type : string) : list UnderpricedFlag :=
  let type_data := filter (same_type type_col (Some unit_type)) df in
  let avg_rent := mean_rent type_data in
  let threshold := avg_rent * 0.7 in
  let underpriced :=
    filter (fun u => Qlt_bool (clean_rent u) threshold) type_data in
  map (fun u =>
         {| flag_unit := unit_label cols u;
            flag_unit_type := unit_type;
            flag_current_rent := clean_rent u;
            flag_type_average := avg_rent;
            flag_percent_under := (avg_rent - clean_rent u) / avg_rent * 100 |})
    underpriced.

Definition _flag_underpriced_units (cols : list cell) (df : list UnitRecord)
  (type_col : nat) : list UnderpricedFlag :=
  flat_map (flags_of_type cols df type_col)
    (unique_values [] (map (fun u => at_col type_col (cells u)) df)).

(** A roll of three studios at 1,000, 1,000 and 400. *)
Definition rent_roll_underpriced : DataFrame :=
  {| columns := [Some "unit"; Some "Type"; Some "Rent"]%string;
     rows := [ [Some "1"; Some "Studio"; Some "1000"];
               [Some "2"; Some "Studio"; Some "1000"];
               [Some "3"; Some "Studio"; Some "$400"] ]%string |}.

(** ** underwriting_analyzer.py: the underwriting summary *)

(** [analysis_results]: the entry ['rent_roll'] holds the [rent_analysis]
    of the rent roll (possibly empty), the entry ['t12'] the
    [adjusted_expenses] and [total_adjusted_expenses] of the expense rules. *)
Record AnalysisResults : Type := {
  rent_roll_results : option (option RentAnalysis);
  t12_results : option (dict Q * Q)
}.

Module IncomeSummary.
Record t : Type := mk {
  gross_potential_income : Q;
  current_monthly_income : Q;
  vacant_unit_potential : Q;
  occupancy_rate : Q
}.
End IncomeSummary.

Module NoiAnalysis.
Record t : Type := mk {
  gross_potential_income : Q;
  vacancy_loss : Q;
  effective_gross_income : Q;
  total_expenses : Q;
  net_operating_income : Q;
  expense_ratio : Q
}.
End NoiAnalysis.

(** The [income_summary] entry: [None] is the empty dict. *)
Definition income_summary_of (results : AnalysisResults)
  : result (option IncomeSummary.t) :=
  match rent_roll_results results with
  | None => Ok None
  | Some rent_analysis =>
      let get {V : Type} (f : RentAnalysis -> V) (default : V) : V :=
        match rent_analysis with Some a => f a | None => default end in
      rate <- pydiv (inject_Z (get occupied_units 0%Z))
                    (inject_Z (get total_units 1%Z)) ;;
      Ok (Some (IncomeSummary.mk (get annual_gpi 0)
                  (get current_monthly_income 0)
                  (get vacant_unit_income 0 * 12)
                  (rate * 100)))
  end.

(** [generate_underwriting_summary] of the analyzer: the [income_summary]
    and the [noi_analysis]. *)
Definition analyzer_generate_underwriting_summary (results : AnalysisResults)
  : result (option IncomeSummary.t * NoiAnalysis.t) :=
  income_summary <- income_summary_of results ;;
  let expense_summary : dict Q :=
    match t12_results results with Some (adjusted, _) => adjusted | None => [] end in
  let total_expenses :=
    match t12_results results with Some (_, total) => total | None => 0 end in
  let gpi :=
    match income_summary with
    | Some s => IncomeSummary.gross_potential_income s
    | None => 0
    end in
  let vacancy := dict_get expense_summary "vacancy" 0 in
  let egi := gpi - vacancy in
  let noi := egi - total_expenses in
  Ok (income_summary,
      NoiAnalysis.mk gpi vacancy egi total_expenses noi
        (if Qlt_bool 0 egi then total_expenses / egi * 100 else 0)).

(** The analyzer once a rent roll and then a T12 have been loaded: the
    expense rules read the annual GPI of the rent-roll analysis. *)
Definition results_after_loading (property_info : PropertyInfo)
  (rent_analysis : option RentAnalysis) (expense_items : dict Q)
  : AnalysisResults :=
  let gpi := match rent_analysis with Some a => annual_gpi a | None => 0 end in
  {| rent_roll_results := Some rent_analysis;
     t12_results := Some (_apply_expense_rules property_info (Some gpi) expense_items) |}.

(** The analysis of a rent roll with a rent column and no valid rent. *)
Definition rent_roll_no_valid_rent : DataFrame :=
  {| columns := [Some "Unit"; Some "Rent"]%string;
     rows := [ [Some "101"; Some "0"]; [Some "102"; None] ]%string |}.

(** ** Further definitions: the table cleaner with row labels *)

(** pandas addresses the rows of a frame by label as well as by position:
    [dropna] keeps the labels of the rows it keeps, [iloc] reads by position
    and [drop] removes by label.  A row is kept here with its label. *)
Record IndexedFrame : Type := {
  icolumns : list cell;
  irows : list (nat * list cell)
}.

(** The outcome of a step that calls [DataFrame.drop], which raises
    [KeyError] for a label that is not in the index. *)
Inductive dropped : Type :=
| Frame (f : IndexedFrame)
| KeyError.

(** A frame as the extractors build it, with the default index 0, 1, ... *)
Definition default_index (df : DataFrame) : IndexedFrame :=
  {| icolumns := columns df;
     irows := combine (seq 0 (List.length (rows df))) (rows df) |}.

(** The frame without its labels. *)
Definition values (f : IndexedFrame) : DataFrame :=
  {| columns := icolumns f; rows := map snd (irows f) |}.

(** [df.dropna(how='all')] *)
Definition idropna_rows_all (f : IndexedFrame) : IndexedFrame :=
  {| icolumns := icolumns f;
     irows := filter (fun r => existsb notna (snd r)) (irows f) |}.

(** [df.dropna(axis=1, how='all')] *)
Definition idropna_columns_all (f : IndexedFrame) : IndexedFrame :=
  let keep := kept_columns (values f) in
  {| icolumns := select keep (icolumns f);
     irows := map (fun r => (fst r, select keep (snd r))) (irows f) |}.

(** The positions, counted from [pos], of the rows that repeat
    [header_row]: the loop over [range(1, len(df))]. *)
Fixpoint duplicates_from (pos : nat) (header_row : list string)
  (others : list (nat * list cell)) : list nat :=
  match others with
  | [] => []
  | r :: others' =>
      if row_equals (normalized_row (snd r)) header_row
      then pos :: duplicates_from (S pos) header_row others'
      else duplicates_from (S pos) header_row others'
  end.

Definition duplicate_indices (f : IndexedFrame) : list nat :=
  match irows f with
  | [] => []
  | first :: others => duplicates_from 1 (normalized_row (snd first)) others
  end.

Definition has_label (f : IndexedFrame) (label : nat) : bool :=
  existsb (fun r => Nat.eqb (fst r) label) (irows f).

(** [df.drop(labels)] *)
Definition drop (labels : list nat) (f : IndexedFrame) : dropped :=
  if forallb (has_label f) labels
  then Frame {| icolumns := icolumns f;
                irows := filter (fun r => negb (existsb (Nat.eqb (fst r)) labels))
                           (irows f) |}
  else KeyError.

Definition i_remove_duplicate_headers (f : IndexedFrame) : dropped :=
  if empty (values f) || (List.length (irows f) <? 2)%nat then Frame f
  else drop (duplicate_indices f) f.

(** [df.dropna(thresh=threshold)] *)
Definition idropna_thresh (thresh : nat) (f : IndexedFrame) : IndexedFrame :=
  {| icolumns := icolumns f;
     irows := filter (fun r => (thresh <=? populated (snd r))%nat) (irows f) |}.

(** The frame [_clean_dataframe] hands to [_remove_duplicate_headers]. *)
Definition without_empty_rows_and_columns (f : IndexedFrame) : IndexedFrame :=
  idropna_columns_all (idropna_rows_all f).

(** [_clean_dataframe] after the duplicate headers are removed. *)
Definition i_clean_after_headers (f : IndexedFrame) : IndexedFrame :=
  let f :=
    if negb (empty (values f))
    then {| icolumns := map (fun col => Some (_clean_column_name col)) (icolumns f);
            irows := irows f |}
    else f in
  if negb (empty (values f))
  then idropna_thresh (threshold (List.length (icolumns f))) f
  else f.

(** [_clean_dataframe], with the row labels. *)
Definition i_clean_dataframe (f : IndexedFrame) : dropped :=
  if empty (values f) then Frame f
  else
    match i_remove_duplicate_headers (without_empty_rows_and_columns f) with
    | Frame f => Frame (i_clean_after_headers f)
    | KeyError => KeyError
    end.

(** A table whose second row is empty and whose last row repeats the
    first. *)
Definition table_with_gap : DataFrame :=
  {| columns := [Some "0"; Some "1"]%string;
     rows := [ [Some "Unit"; Some "Rent"]; [None; None];
               [Some "unit "; Some "RENT"] ]%string |}.

(** A table whose first row is empty and whose last row repeats the first
    row that is not. *)
Definition table_with_leading_gap : DataFrame :=
  {| columns := [Some "0"; Some "1"]%string;
     rows := [ [None; None]; [Some "Unit"; Some "Rent"];
               [Some "101"; Some "950"]; [Some "Unit"; Some "Rent"] ]%string |}.

(** ** document_processor.py: choosing among the extracted tables *)

(** An extracted table: the frame and the [attrs] the extractors and
    [get_best_extraction] set on it. *)
Record Table : Type := {
  frame : DataFrame;
  page : option Z;
  method : option string;
  accuracy : option Q;
  quality_score : option Q
}.

(** [df.count()] for the column at position [col]. *)
Definition count_column (df : DataFrame) (col : nat) : nat :=
  List.length (filter (fun row => notna (at_col col row)) (rows df)).

(** [df.count().sum()] *)
Definition filled_cells (df : DataFrame) : nat :=
  fold_right Nat.add 0%nat
    (map (count_column df) (seq 0 (List.length (columns df)))).

Definition of_nat (n : nat) : Q := inject_Z (Z.of_nat n).

Definition _calculate_table_quality_score (t : Table) : Q :=
  let df := frame t in
  if empty df then 0
  else
    let score := 0 in
    let size_score :=
      Qmin (of_nat (List.length (rows df)) * of_nat (List.length (columns df)) / 100)
        5 in
    let score := score + size_score in
    let total_cells :=
      of_nat (List.length (rows df)) * of_nat (List.length (columns df)) in
    let completeness_score := of_nat (filled_cells df) / total_cells * 3 in
    let score := score + completeness_score in
    let col_count := List.length (columns df) in
    let score :=
      if ((3 <=? col_count) && (col_count <=? 15))%nat then score + 2
      else if (col_count <? 3)%nat then score - 1
      else score in
    let score :=
      if contains "camelot" (match method t with Some m => m | None => ""%string end)
         && Qlt_bool 80 (match accuracy t with Some a => a | None => 0 end)
      then score + 1
      else score in
    score.

(** [table.attrs['quality_score'] = score] *)
Definition with_quality_score (t : Table) : Table :=
  {| frame := frame t;
     page := page t;
     method := method t;
     accuracy := accuracy t;
     quality_score := Some (_calculate_table_quality_score t) |}.

(** [x.attrs.get('quality_score', 0)] *)
Definition score_of (t : Table) : Q :=
  match quality_score t with
  | Some s => s
  | None => 0
  end.

(** [table.attrs.get('page', 0)] *)
Definition page_of (t : Table) : Z :=
  match page t with
  | Some p => p
  | None => 0%Z
  end.

(** [all_tables.sort(key=..., reverse=True)]: a stable sort. *)
Fixpoint insert_by_score (t : Table) (l : list Table) : list Table :=
  match l with
  | [] => [t]
  | y :: l' =>
      if Qlt_bool (score_of t) (score_of y)
      then y :: insert_by_score t l'
      else t :: y :: l'
  end.

Definition sort_by_score (l : list Table) : list Table :=
  fold_right insert_by_score [] l.

(** The loop that fills [best_tables]: a table is stored when its page is
    not a key yet; [seen] holds the keys, and the values come out in the
    order they were stored. *)
Fixpoint first_per_page (seen : list Z) (l : list Table) : list Table :=
  match l with
  | [] => []
  | table :: l' =>
      if existsb (Z.eqb (page_of table)) seen
      then first_per_page seen l'
      else table :: first_per_page (page_of table :: seen) l'
  end.

(** The tables of all methods, in the order of [results.items()]. *)
Definition all_tables (results : dict (list Table)) : list Table :=
  flat_map (fun kv => map with_quality_score (snd kv)) results.

Definition get_best_extraction (results : dict (list Table)) : list Table :=
  first_per_page [] (sort_by_score (all_tables results)).

(** A filled table of [n] rows and three columns. *)
Definition filled_table (n : nat) : DataFrame :=
  {| columns := [Some "Unit"; Some "Type"; Some "Rent"]%string;
     rows := repeat [Some "101"; Some "1BR"; Some "950"]%string n |}.

(** What the three extractors may return for a two-page document: tabula
    sets no page. *)
Definition two_page_results : dict (list Table) :=
  [ ("pdfplumber"%string,
     [ {| frame := filled_table 2; page := Some 1%Z;
          method := Some "pdfplumber"%string; accuracy := None;
          quality_score := None |};
       {| frame := filled_table 4; page := Some 2%Z;
          method := Some "pdfplumber"%string; accuracy := None;
          quality_score := None |} ]);
    ("camelot"%string,
     [ {| frame := filled_table 2; page := Some 1%Z;
          method := Some "camelot_lattice"%string; accuracy := Some 95;
          quality_score := None |} ]);
    ("tabula"%string,
     [ {| frame := filled_table 2; page := None;
          method := Some "tabula"%string; accuracy := None;
          quality_score := None |};
       {| frame := filled_table 4; page := None;
          method := Some "tabula"%string; accuracy := None;
          quality_score := None |} ]) ].

(** A list in which no table has a higher score than an earlier one. *)
Fixpoint ordered_by_score (l : list Table) : Prop :=
  match l with
  | [] => True
  | t :: l' =>
      (forall t', In t' l' -> score_of t' <= score_of t) /\ ordered_by_score l'
  end.

(** Text on which [strip], [collapse_spaces] and [keep_word_and_space] are
    Python's [str.strip()], [\s+] and [[^\w\s]]: ASCII text without the four
    separator control characters, which Python counts as white space. *)
Definition plain_ascii (s : string) : bool :=
  forallb (fun c =>
             let n := nat_of_ascii c in
             (n <? 128)%nat && negb ((28 <=? n)%nat && (n <=? 31)%nat))
    (list_ascii_of_string s).

(** ** underwriting_analyzer.py: the rent roll with its row labels *)

(** pandas keeps the label of every row that [df[df['clean_rent'] > 0]]
    keeps, while [vacant_mask = pd.Series([False] * len(df))] is labelled
    0, 1, ...; and [~vacant_mask & type_units.index.isin(df.index)] combines
    a mask that has one entry per row of [df] with an array that has one per
    row of [type_units].  The definitions above read the frame by position;
    the ones here add the two errors that follow, [IndexingError] from
    [df[vacant_mask]] and [ValueError] from the [&], for a roll loaded with
    the default index. *)
Module Indexed.

(** The labels of the rows that [df[df['clean_rent'] > 0]] keeps: their
    positions in the roll, counted from [pos]. *)
Fixpoint valid_rent_labels (rent_col pos : nat) (rs : list (list cell))
  : list nat :=
  match rs with
  | [] => []
  | row :: rs' =>
      if has_valid_rent rent_col row
      then pos :: valid_rent_labels rent_col (S pos) rs'
      else valid_rent_labels rent_col (S pos) rs'
  end.

(** Whether [df[vacant_mask]] can align the mask, labelled 0 .. len(df)-1,
    with the frame: every label of the frame has to be one of the mask. *)
Definition aligned (index : list nat) : bool :=
  forallb (fun label => (label <? List.length index)%nat) index.

(** [type_units[~vacant_mask & (type_units.index.isin(df.index))]]: numpy
    combines the two operands when they have the same length or one of them
    has length 1; the rows kept are then those of [type_units] that are not
    vacant. *)
Definition occupied_type_units (df : list UnitRecord) (type_col status_col : nat)
  (unit_type : cell) : result (list UnitRecord) :=
  let type_units := filter (same_type type_col unit_type) df in
  if (List.length type_units =? List.length df)%nat
     || (List.length type_units =? 1)%nat
  then Ok (filter (fun u => negb (is_vacant status_col u)) type_units)
  else Raise ValueError.

(** The body of the loop over the vacant units. *)
Definition add_vacant_unit (df : list UnitRecord) (type_col status_col : nat)
  (vacant_income : Q) (vacant_unit : UnitRecord) : result Q :=
  let unit_type := at_col type_col (cells vacant_unit) in
  occupied <- occupied_type_units df type_col status_col unit_type ;;
  if (0 <? List.length occupied)%nat
  then Ok (vacant_income + mean_rent occupied)%Q
  else Ok vacant_income.

Fixpoint vacant_loop (df : list UnitRecord) (type_col status_col : nat)
  (vacant_units : list UnitRecord) (vacant_income : Q) : result Q :=
  match vacant_units with
  | [] => Ok vacant_income
  | vacant_unit :: vacant_units' =>
      vacant_income <- add_vacant_unit df type_col status_col vacant_income
                         vacant_unit ;;
      vacant_loop df type_col status_col vacant_units' vacant_income
  end.

Definition _calculate_vacant_income (index : list nat) (df : list UnitRecord)
  (type_col status_col : option nat) : result Q :=
  match type_col, status_col with
  | Some tc, Some sc =>
      if aligned index
      then vacant_loop df tc sc (filter (is_vacant sc) df) 0%Q
      else Raise IndexingError
  | _, _ => Ok 0%Q
  end.

(** [_analyze_rent_roll], as far as [rent_analysis]; the analysis by unit
    type that comes first raises nothing. *)
Definition _analyze_rent_roll (df : DataFrame) : result (option RentAnalysis) :=
  let rent_col := _find_column df ["rent"; "current rent"; "monthly rent"]%string in
  let unit_type_col :=
    _find_column df ["type"; "unit type"; "bed"; "bedroom"]%string in
  let status_col := _find_column df ["status"; "occupied"; "vacant"]%string in
  match rent_col with
  | None => Ok None
  | Some rc =>
      let index := valid_rent_labels rc 0 (rows df) in
      let df' := valid_rent_rows rc (rows df) in
      let total := Z.of_nat (List.length df') in
      let occupied := _count_occupied_units df' status_col in
      let current_income :=
        sum_rent (filter (fun u => Qlt_bool 0 (clean_rent u)) df') in
      vacant_income <-
        _calculate_vacant_income index df' unit_type_col status_col ;;
      let gpi := (current_income + vacant_income)%Q in
      Ok (Some {| total_units := total;
                  occupied_units := occupied;
                  vacant_units := (total - occupied)%Z;
                  current_monthly_income := current_income;
                  vacant_unit_income := vacant_income;
                  gross_potential_income := gpi;
                  annual_gpi := (gpi * 12)%Q |})
  end.

End Indexed.

(** Two one-bedroom units, one let and one vacant, and a two-bedroom unit. *)
Definition rent_roll_two_types : DataFrame :=
  {| columns := [Some "Unit"; Some "Type"; Some "Rent"; Some "Status"]%string;
     rows := [ [Some "101"; Some "1BR"; Some "1000"; Some "Occupied"];
               [Some "102"; Some "1BR"; Some "1000"; Some "Vacant"];
               [Some "201"; Some "2BR"; Some "1500"; Some "Occupied"] ]%string |}.

(** Its units once the rent is cleaned. *)
Definition units_two_types : list UnitRecord :=
  valid_rent_rows 2 (rows rent_roll_two_types).

(** A vacant unit listed at a rent of 0 above a let unit, and the roll
    without it. *)
Definition rent_roll_vacant_zero_first : DataFrame :=
  {| columns := [Some "Unit"; Some "Type"; Some "Rent"; Some "Status"]%string;
     rows := [ [Some "101"; Some "1BR"; Some "0"; Some "Vacant"];
               [Some "102"; Some "1BR"; Some "1000"; Some "Occupied"] ]%string |}.

Definition rent_roll_one_let_unit : DataFrame :=
  {| columns := [Some "Unit"; Some "Type"; Some "Rent"; Some "Status"]%string;
     rows := [ [Some "102"; Some "1BR"; Some "1000"; Some "Occupied"] ]%string |}.

(** ** loan_sizing_engine.py: sizing in binary64 *)

(** The sizing of the scenarios as Python computes it, on binary64 floats:
    lines 249-277 of [_calculate_single_scenario] and the functions that
    call it.  The pricing fields of a scenario (rate, payment, DSCR), which
    need [**], are left out; they play no part in whether a scenario is
    returned, nor in its loan amount, LTV and debt yield.  A literal stands
    for the nearest binary64 value, as in Python; the integers of the source
    are exact in binary64. *)
Module Binary64.

Import PrimFloat.

Local Open Scope float_scope.

#[local] Set Warnings "-inexact-float".

(** True division: Python raises on a zero divisor, of either sign. *)
Definition pydiv (a b : float) : result float :=
  if b =? 0 then Raise ZeroDivisionError else Ok (a / b).

(** Truthiness of an [Optional[float]]. *)
Definition truthy (o : option float) : bool :=
  match o with
  | Some x => negb (x =? 0)
  | None => false
  end.

Record Constraints : Type := {
  max_ltv : float;
  min_dscr : float;
  min_debt_yield : option float;
  min_loan_amount : option float;
  has_tier_pricing : bool
}.

Record Tier : Type := {
  tier_name : string;
  tier_max_ltv : float;
  tier_min_dscr : float
}.

(** The sizing fields of a [LoanScenario]. *)
Record Sizing : Type := {
  loan_type : LoanType;
  tier : option string;
  loan_amount : float;
  ltv : float;
  debt_yield : float;
  constraint_binding : string
}.

Definition _define_loan_types (lt : LoanType) : Constraints :=
  match lt with
  | FANNIE_FREDDIE =>
      {| max_ltv := 0.75; min_dscr := 1.25; min_debt_yield := Some 0.08;
         min_loan_amount := Some 1000000; has_tier_pricing := true |}
  | CMBS =>
      {| max_ltv := 0.75; min_dscr := 1.25; min_debt_yield := Some 0.09;
         min_loan_amount := Some 5000000; has_tier_pricing := false |}
  | DEBT_FUND =>
      {| max_ltv := 0.80; min_dscr := 0.95; min_debt_yield := None;
         min_loan_amount := Some 20000000; has_tier_pricing := false |}
  end.

Definition _define_tier_pricing : list Tier :=
  [ {| tier_name := "Tier 2"; tier_max_ltv := 0.75; tier_min_dscr := 1.25 |};
    {| tier_name := "Tier 3"; tier_max_ltv := 0.65; tier_min_dscr := 1.35 |};
    {| tier_name := "Tier 4"; tier_max_ltv := 0.55; tier_min_dscr := 1.45 |} ].

(** [min(d.values())] and [min(d, key=d.get)]: the running best is replaced
    only by a strictly smaller item. *)
Fixpoint py_min (best : float) (rest : list float) : float :=
  match rest with
  | [] => best
  | y :: rest' => py_min (if y <? best then y else best) rest'
  end.

Fixpoint py_argmin (bestk : string) (best : float)
  (rest : list (string * float)) : string :=
  match rest with
  | [] => bestk
  | (k, v) :: rest' =>
      if v <? best then py_argmin k v rest' else py_argmin bestk best rest'
  end.

Definition _calculate_single_scenario (noi property_value : float)
  (lt : LoanType) (constraints : Constraints) (tier : option Tier)
  : result (option Sizing) :=
  let max_ltv := match tier with
                 | Some t => tier_max_ltv t
                 | None => max_ltv constraints
                 end in
  let min_dscr := match tier with
                  | Some t => tier_min_dscr t
                  | None => min_dscr constraints
                  end in
  let ltv_max_loan := property_value * max_ltv in
  let dscr_max_loan := if 0 <? min_dscr then noi / min_dscr else infinity in
  let debt_yield_max_loan :=
    if truthy (min_debt_yield constraints) then
      match min_debt_yield constraints with
      | Some dy => noi / dy
      | None => infinity
      end
    else infinity in
  let loan_amount := py_min ltv_max_loan [dscr_max_loan; debt_yield_max_loan] in
  let constraint_binding :=
    py_argmin "LTV" ltv_max_loan
      [("DSCR"%string, dscr_max_loan); ("Debt Yield"%string, debt_yield_max_loan)] in
  let below_minimum :=
    match min_loan_amount constraints with
    | Some m => negb (m =? 0) && (loan_amount <? m)
    | None => false
    end in
  if below_minimum then Ok None
  else
    ltv <- pydiv loan_amount property_value ;;
    debt_yield <- (if 0 <? loan_amount then pydiv noi loan_amount else Ok 0) ;;
    Ok (Some {| loan_type := lt;
                tier := option_map tier_name tier;
                loan_amount := loan_amount;
                ltv := ltv;
                debt_yield := debt_yield;
                constraint_binding := constraint_binding |}).

Fixpoint tier_scenarios (noi property_value : float) (lt : LoanType)
  (constraints : Constraints) (tiers : list Tier) : result (list Sizing) :=
  match tiers with
  | [] => Ok []
  | tier :: tiers' =>
      scenario <- _calculate_single_scenario noi property_value lt constraints
                    (Some tier) ;;
      scenarios <- tier_scenarios noi property_value lt constraints tiers' ;;
      Ok (match scenario with
          | Some s => s :: scenarios
          | None => scenarios
          end)
  end.

Definition _calculate_loan_type_scenarios (noi property_value : float)
  (lt : LoanType) : result (list Sizing) :=
  let constraints := _define_loan_types lt in
  let too_small :=
    match min_loan_amount constraints with
    | Some m => negb (m =? 0) && (property_value * max_ltv constraints <? m)
    | None => false
    end in
  if too_small then Ok []
  else if LoanType_eqb lt FANNIE_FREDDIE && has_tier_pricing constraints
  then tier_scenarios noi property_value lt constraints _define_tier_pricing
  else
    scenario <- _calculate_single_scenario noi property_value lt constraints
                  None ;;
    Ok (match scenario with
        | Some s => [s]
        | None => []
        end).

Fixpoint insert_desc (s : Sizing) (l : list Sizing) : list Sizing :=
  match l with
  | [] => [s]
  | y :: l' =>
      if loan_amount s <? loan_amount y
      then y :: insert_desc s l'
      else s :: y :: l'
  end.

Definition sort_desc (l : list Sizing) : list Sizing :=
  fold_right insert_desc [] l.

Fixpoint extend_all (noi property_value : float) (types : list LoanType)
  : result (list Sizing) :=
  match types with
  | [] => Ok []
  | lt :: types' =>
      loan_scenarios <- _calculate_loan_type_scenarios noi property_value lt ;;
      scenarios <- extend_all noi property_value types' ;;
      Ok (loan_scenarios ++ scenarios)
  end.

Definition calculate_loan_scenarios (noi property_value : float)
  : result (list Sizing) :=
  if (noi <=? 0) || (property_value <=? 0)
  then Raise ValueError
  else
    scenarios <- extend_all noi property_value all_loan_types ;;
    Ok (sort_desc scenarios).

(** A property worth 228,934,017 with an NOI of 180,000,000. *)
Definition example_noi : float := 180000000.
Definition example_value : float := 228934017.

End Binary64.

(** * Properties *)

(** ** Comparisons and division *)

(** Linear arithmetic over [Q] after division by literals has been turned
    into multiplication. *)
Ltac inv_literals :=
  unfold Qdiv in *;
  repeat match goal with
    | |- context [Qinv (Qmake ?n ?d)] =>
        let v := eval cbv in (Qinv (Qmake n d)) in
        match v with
        | Qmake _ _ => change (Qinv (Qmake n d)) with v
        end
    | H : context [Qinv (Qmake ?n ?d)] |- _ =>
        let v := eval cbv in (Qinv (Qmake n d)) in
        match v with
        | Qmake _ _ => change (Qinv (Qmake n d)) with v in H
        end
    end.

Ltac lraq := inv_literals; lra.

Lemma Qlt_bool_iff (a b : Q) : Qlt_bool a b = true <-> a < b.
Proof.
  unfold Qlt_bool. rewrite negb_true_iff. split.
  - intros H. apply Qnot_le_lt. intros H1.
    apply Qle_bool_iff in H1. congruence.
  - intros H. destruct (Qle_bool b a) eqn:E; trivial.
    apply Qle_bool_iff in E. lra.
Qed.

Lemma Qlt_bool_false_iff (a b : Q) : Qlt_bool a b = false <-> b <= a.
Proof.
  split.
  - intros H. destruct (Qlt_le_dec a b) as [L | L]; trivial.
    apply Qlt_bool_iff in L. congruence.
  - intros H. destruct (Qlt_bool a b) eqn:E; trivial.
    apply Qlt_bool_iff in E. lra.
Qed.

Lemma Qeq_bool_false_iff (a b : Q) : Qeq_bool a b = false <-> ~ a == b.
Proof.
  split.
  - apply Qeq_bool_neq.
  - intros H. destruct (Qeq_bool a b) eqn:E; trivial.
    apply Qeq_bool_iff in E. contradiction.
Qed.

Lemma pydiv_ok (a b : Q) : ~ b == 0 -> pydiv a b = Ok (a / b).
Proof.
  intros H. unfold pydiv. apply Qeq_bool_false_iff in H. now rewrite H.
Qed.

Lemma pydiv_inv (a b q : Q) : pydiv a b = Ok q -> ~ b == 0 /\ q = a / b.
Proof.
  unfold pydiv. destruct (Qeq_bool b 0) eqn:E; intros H; [discriminate|].
  apply Qeq_bool_false_iff in E. now inversion H.
Qed.

Lemma bind_inv {A B : Type} (m : result A) (k : A -> result B) (b : B) :
  bind m k = Ok b -> exists a, m = Ok a /\ k a = Ok b.
Proof.
  destruct m as [a | e]; simpl; intros H; [eauto | discriminate].
Qed.

(** ** The minimum of the ceilings *)

Lemma py_min_le_best (rest : list xfloat) (best : Q) : py_min best rest <= best.
Proof.
  revert best. induction rest as [| [y |] rest IH]; intros best; simpl.
  - lra.
  - destruct (Qlt_bool y best) eqn:E.
    + apply Qlt_bool_iff in E. specialize (IH y). lra.
    + apply IH.
  - apply IH.
Qed.

Lemma py_min_le_item (rest : list xfloat) (best y : Q) :
  In (Fin y) rest -> py_min best rest <= y.
Proof.
  revert best. induction rest as [| x rest IH]; intros best HIn; simpl in *.
  - contradiction.
  - destruct HIn as [-> | HIn].
    + destruct (Qlt_bool y best) eqn:E.
      * apply py_min_le_best.
      * apply Qlt_bool_false_iff in E.
        pose proof (py_min_le_best rest best). lra.
    + destruct x as [x |]; auto.
Qed.

Lemma py_min_two (b d y : Q) :
  py_min b [Fin d; Fin y] == Qmin (Qmin b d) y.
Proof.
  simpl.
  destruct (Qlt_bool d b) eqn:E1.
  - apply Qlt_bool_iff in E1.
    assert (H1 : Qmin b d == d) by (apply Q.min_r; lra).
    destruct (Qlt_bool y d) eqn:E2.
    + apply Qlt_bool_iff in E2. rewrite H1. symmetry. apply Q.min_r. lra.
    + apply Qlt_bool_false_iff in E2. rewrite H1. symmetry. apply Q.min_l. lra.
  - apply Qlt_bool_false_iff in E1.
    assert (H1 : Qmin b d == b) by (apply Q.min_l; lra).
    destruct (Qlt_bool y b) eqn:E2.
    + apply Qlt_bool_iff in E2. rewrite H1. symmetry. apply Q.min_r. lra.
    + apply Qlt_bool_false_iff in E2. rewrite H1. symmetry. apply Q.min_l. lra.
Qed.

Lemma py_min_one (b d : Q) : py_min b [Fin d; PosInf] == Qmin b d.
Proof.
  simpl.
  destruct (Qlt_bool d b) eqn:E1.
  - apply Qlt_bool_iff in E1. symmetry. apply Q.min_r. lra.
  - apply Qlt_bool_false_iff in E1. symmetry. apply Q.min_l. lra.
Qed.

(** ** Loan sizing: a single scenario *)

(** What a returned scenario records. *)
Lemma single_scenario_Some (self : LoanSizingEngine) (lt : LoanType)
  (c : LoanConstraints.t) (tier : option TierPricing.t) (sd : bool)
  (s : LoanScenario.t) :
  _calculate_single_scenario self lt c tier sd = Ok (Some s) ->
  LoanScenario.loan_type s = lt
  /\ LoanScenario.tier_name s = option_map TierPricing.tier_name tier
  /\ LoanScenario.loan_amount s
     = py_min (ltv_max_loan self c tier)
         [dscr_max_loan self c tier; debt_yield_max_loan self c]
  /\ (forall m, LoanConstraints.min_loan_amount c = Some m -> ~ m == 0 ->
        m <= LoanScenario.loan_amount s)
  /\ ~ property_value self == 0
  /\ LoanScenario.ltv s = LoanScenario.loan_amount s / property_value self
  /\ (0 < LoanScenario.loan_amount s ->
      LoanScenario.debt_yield s = noi self / LoanScenario.loan_amount s).
Proof.
  unfold _calculate_single_scenario.
  set (la := py_min _ _).
  destruct (match LoanConstraints.min_loan_amount c with
            | Some m => negb (Qeq_bool m 0) && Qlt_bool la m
            | None => false
            end) eqn:Hmin; [discriminate|].
  intros H.
  apply bind_inv in H as (ltv & Hltv & H).
  apply bind_inv in H as (dy & Hdy & H).
  apply bind_inv in H as (pd & Hpd & H).
  inversion H; subst s; clear H; simpl.
  apply pydiv_inv in Hltv as [Hpv ->].
  repeat split; trivial.
  - intros m Hm Hnz. rewrite Hm in Hmin.
    apply andb_false_iff in Hmin as [Hz | Hlt].
    + apply negb_false_iff, Qeq_bool_iff in Hz. contradiction.
    + now apply Qlt_bool_false_iff in Hlt.
  - intros Hpos. apply Qlt_bool_iff in Hpos. rewrite Hpos in Hdy.
    now apply pydiv_inv in Hdy as [_ ->].
Qed.

(** A scenario is withheld exactly when the amount is under the minimum. *)
Lemma single_scenario_None (self : LoanSizingEngine) (lt : LoanType)
  (c : LoanConstraints.t) (tier : option TierPricing.t) (sd : bool) (m : Q) :
  LoanConstraints.min_loan_amount c = Some m -> ~ m == 0 ->
  py_min (ltv_max_loan self c tier)
    [dscr_max_loan self c tier; debt_yield_max_loan self c] < m ->
  _calculate_single_scenario self lt c tier sd = Ok None.
Proof.
  intros Hm Hnz Hlt. unfold _calculate_single_scenario.
  rewrite Hm. apply Qlt_bool_iff in Hlt. rewrite Hlt.
  apply Qeq_bool_false_iff in Hnz. now rewrite Hnz.
Qed.

Lemma payment_and_dscr_ok (self : LoanSizingEngine) (c : LoanConstraints.t)
  (loan_amount interest_rate : Q) :
  payable c -> 0 < interest_rate ->
  exists pd, payment_and_dscr self c loan_amount interest_rate = Ok pd.
Proof.
  intros Hpay Hrate. unfold payment_and_dscr.
  destruct (LoanConstraints.interest_only c) eqn:Hio.
  - set (payment := loan_amount * (interest_rate / 100) / 12).
    destruct (Qlt_bool 0 payment) eqn:Hp; simpl; [|eauto].
    apply Qlt_bool_iff in Hp.
    rewrite pydiv_ok by lra. simpl. eauto.
  - destruct Hpay as [Hpay | (years & Hy & Hpos)]; [congruence|].
    rewrite Hy.
    set (r := interest_rate / 100 / 12).
    assert (Hr : 0 < r).
    { unfold r. apply Qlt_shift_div_l; [lra|].
      apply Qlt_shift_div_l; lra. }
    apply Qlt_bool_iff in Hr as Hrb. rewrite Hrb.
    assert (Hpow : 1 < (1 + r) ^ (years * 12)).
    { apply Qpower_1_lt; [lra | lia]. }
    rewrite pydiv_ok by lra. simpl.
    match goal with |- context [Qlt_bool 0 ?p] => set (payment := p) end.
    destruct (Qlt_bool 0 payment) eqn:Hp; simpl; [|eauto].
    apply Qlt_bool_iff in Hp.
    rewrite pydiv_ok by lra. simpl. eauto.
Qed.

(** With a non-zero property value and a payable program at a positive
    rate, [_calculate_single_scenario] raises nothing. *)
Lemma single_scenario_ok (self : LoanSizingEngine) (lt : LoanType)
  (c : LoanConstraints.t) (tier : option TierPricing.t) (sd : bool) :
  ~ property_value self == 0 -> payable c ->
  (forall la, 0 < get_treasury_rate self + _calculate_spread lt c tier la sd / 100) ->
  exists r, _calculate_single_scenario self lt c tier sd = Ok r.
Proof.
  intros Hpv Hpay Hrate. unfold _calculate_single_scenario.
  set (la := py_min _ _).
  destruct (match LoanConstraints.min_loan_amount c with
            | Some m => negb (Qeq_bool m 0) && Qlt_bool la m
            | None => false
            end); [eauto|].
  rewrite pydiv_ok by trivial. simpl.
  assert (Hdy : exists dy, (if Qlt_bool 0 la then pydiv (noi self) la else Ok 0)
                           = Ok dy).
  { destruct (Qlt_bool 0 la) eqn:Hla; [|eauto].
    apply Qlt_bool_iff in Hla. rewrite pydiv_ok by lra. eauto. }
  destruct Hdy as [dy ->]. simpl.
  destruct (payment_and_dscr_ok self c la _ Hpay (Hrate la)) as [pd ->].
  simpl. eauto.
Qed.

(** ** Loan sizing: the configured programs *)

Lemma treasury_rate_pos (self : LoanSizingEngine) : 4 < get_treasury_rate self.
Proof.
  unfold get_treasury_rate, treasury_rates.
  destruct (treasury_term self); lraq.
Qed.

Lemma applicable_cases (lt : LoanType) (tier : option TierPricing.t) :
  applicable lt tier ->
  (lt = FANNIE_FREDDIE /\
   (tier = Some (TierPricing.mk "Tier 2" 0.75 1.25 0)
    \/ tier = Some (TierPricing.mk "Tier 3" 0.65 1.35 (-25))
    \/ tier = Some (TierPricing.mk "Tier 4" 0.55 1.45 (-50))))
  \/ (lt = CMBS /\ tier = None)
  \/ (lt = DEBT_FUND /\ tier = None).
Proof.
  destruct lt; simpl.
  - intros (t & -> & [<- | [<- | [<- | []]]]); left; auto.
  - intros ->. right; left; auto.
  - intros ->. right; right; auto.
Qed.

Lemma configured_spread_pos (lt : LoanType) (tier : option TierPricing.t)
  (la : Q) (sd : bool) :
  applicable lt tier ->
  100 <= _calculate_spread lt (_define_loan_types lt) tier la sd.
Proof.
  intros H. apply applicable_cases in H.
  destruct H as [[-> [-> | [-> | ->]]] | [[-> ->] | [-> ->]]];
    unfold _calculate_spread; simpl;
    destruct sd; simpl; try destruct (Qle_bool 6000000 la); lra.
Qed.

Lemma configured_payable (lt : LoanType) : payable (_define_loan_types lt).
Proof.
  destruct lt; [right | left | right]; simpl; eauto;
    eexists; (split; [reflexivity | lia]).
Qed.

Lemma configured_single_ok (self : LoanSizingEngine) (lt : LoanType)
  (tier : option TierPricing.t) (sd : bool) :
  0 < property_value self -> applicable lt tier ->
  exists r, _calculate_single_scenario self lt (_define_loan_types lt) tier sd
            = Ok r.
Proof.
  intros Hpv Happ. apply single_scenario_ok.
  - lra.
  - apply configured_payable.
  - intros la. pose proof (treasury_rate_pos self).
    pose proof (configured_spread_pos lt tier la sd Happ).
    lraq.
Qed.

(** ** Loan sizing: the scenario list *)

Lemma tier_scenarios_In (self : LoanSizingEngine) (lt : LoanType)
  (c : LoanConstraints.t) (sd : bool) (tiers : list TierPricing.t) :
  forall l s,
    tier_scenarios self lt c tiers sd = Ok l -> In s l ->
    exists t, In t tiers
              /\ _calculate_single_scenario self lt c (Some t) sd = Ok (Some s).
Proof.
  induction tiers as [| t tiers IH]; simpl; intros l s H HIn.
  - inversion H; subst. contradiction.
  - apply bind_inv in H as (r & Hr & H).
    apply bind_inv in H as (l' & Hl' & H).
    inversion H; subst l; clear H.
    destruct r as [s0 |].
    + destruct HIn as [<- | HIn]; [eauto|].
      destruct (IH _ _ Hl' HIn) as (t' & ? & ?); eauto.
    + destruct (IH _ _ Hl' HIn) as (t' & ? & ?); eauto.
Qed.

Lemma tier_scenarios_ok (self : LoanSizingEngine) (lt : LoanType)
  (c : LoanConstraints.t) (sd : bool) (tiers : list TierPricing.t) :
  (forall t, In t tiers ->
     exists r, _calculate_single_scenario self lt c (Some t) sd = Ok r) ->
  exists l, tier_scenarios self lt c tiers sd = Ok l.
Proof.
  induction tiers as [| t tiers IH]; simpl; intros H; [eauto|].
  destruct (H t (or_introl eq_refl)) as [r ->].
  destruct IH as [l ->]; [auto|]. simpl. eauto.
Qed.

Lemma tier_scenarios_none (self : LoanSizingEngine) (lt : LoanType)
  (c : LoanConstraints.t) (sd : bool) (tiers : list TierPricing.t) :
  (forall t, In t tiers ->
     _calculate_single_scenario self lt c (Some t) sd = Ok None) ->
  tier_scenarios self lt c tiers sd = Ok [].
Proof.
  induction tiers as [| t tiers IH]; simpl; intros H; [reflexivity|].
  rewrite (H t (or_introl eq_refl)). rewrite IH by auto. reflexivity.
Qed.

Lemma loan_type_scenarios_In (self : LoanSizingEngine) (lt : LoanType)
  (sd : bool) (l : list LoanScenario.t) (s : LoanScenario.t) :
  _calculate_loan_type_scenarios self lt sd = Ok l -> In s l ->
  exists tier, applicable lt tier
               /\ _calculate_single_scenario self lt (_define_loan_types lt)
                    tier sd = Ok (Some s).
Proof.
  unfold _calculate_loan_type_scenarios.
  destruct (match LoanConstraints.min_loan_amount (_define_loan_types lt) with
            | Some m => _
            | None => false
            end).
  { intros H; inversion H; subst; contradiction. }
  destruct lt.
  - change (LoanType_eqb FANNIE_FREDDIE FANNIE_FREDDIE
            && LoanConstraints.has_tier_pricing (_define_loan_types FANNIE_FREDDIE))
      with true. cbv iota.
    intros H HIn.
    destruct (tier_scenarios_In _ _ _ _ _ _ _ H HIn) as (t & Ht & Hs).
    exists (Some t). split; [exists t; auto | trivial].
  - change (LoanType_eqb CMBS FANNIE_FREDDIE
            && LoanConstraints.has_tier_pricing (_define_loan_types CMBS))
      with false. cbv iota.
    intros H HIn. apply bind_inv in H as (r & Hr & H).
    inversion H; subst l; clear H.
    destruct r as [s0 |]; [|contradiction].
    destruct HIn as [<- | []]. exists None. split; [reflexivity | trivial].
  - change (LoanType_eqb DEBT_FUND FANNIE_FREDDIE
            && LoanConstraints.has_tier_pricing (_define_loan_types DEBT_FUND))
      with false. cbv iota.
    intros H HIn. apply bind_inv in H as (r & Hr & H).
    inversion H; subst l; clear H.
    destruct r as [s0 |]; [|contradiction].
    destruct HIn as [<- | []]. exists None. split; [reflexivity | trivial].
Qed.

Lemma loan_type_scenarios_ok (self : LoanSizingEngine) (lt : LoanType)
  (sd : bool) :
  0 < property_value self ->
  exists l, _calculate_loan_type_scenarios self lt sd = Ok l.
Proof.
  intros Hpv. unfold _calculate_loan_type_scenarios.
  destruct (match LoanConstraints.min_loan_amount (_define_loan_types lt) with
            | Some m => _
            | None => false
            end); [eauto|].
  destruct lt.
  - change (LoanType_eqb FANNIE_FREDDIE FANNIE_FREDDIE
            && LoanConstraints.has_tier_pricing (_define_loan_types FANNIE_FREDDIE))
      with true. cbv iota.
    apply tier_scenarios_ok. intros t Ht.
    apply configured_single_ok; [trivial | exists t; auto].
  - change (LoanType_eqb CMBS FANNIE_FREDDIE
            && LoanConstraints.has_tier_pricing (_define_loan_types CMBS))
      with false. cbv iota.
    destruct (configured_single_ok self CMBS None sd Hpv eq_refl) as [r ->].
    simpl. eauto.
  - change (LoanType_eqb DEBT_FUND FANNIE_FREDDIE
            && LoanConstraints.has_tier_pricing (_define_loan_types DEBT_FUND))
      with false. cbv iota.
    destruct (configured_single_ok self DEBT_FUND None sd Hpv eq_refl) as [r ->].
    simpl. eauto.
Qed.

(** A program none of whose combinations yields a scenario returns the
    empty list, not an error. *)
Lemma loan_type_scenarios_none (self : LoanSizingEngine) (lt : LoanType)
  (sd : bool) :
  (forall tier, applicable lt tier ->
     _calculate_single_scenario self lt (_define_loan_types lt) tier sd
     = Ok None) ->
  _calculate_loan_type_scenarios self lt sd = Ok [].
Proof.
  intros H. unfold _calculate_loan_type_scenarios.
  destruct (match LoanConstraints.min_loan_amount (_define_loan_types lt) with
            | Some m => _
            | None => false
            end); [reflexivity|].
  destruct lt.
  - change (LoanType_eqb FANNIE_FREDDIE FANNIE_FREDDIE
            && LoanConstraints.has_tier_pricing (_define_loan_types FANNIE_FREDDIE))
      with true. cbv iota.
    apply tier_scenarios_none. intros t Ht. apply H. exists t; auto.
  - change (LoanType_eqb CMBS FANNIE_FREDDIE
            && LoanConstraints.has_tier_pricing (_define_loan_types CMBS))
      with false. cbv iota.
    rewrite (H None eq_refl). reflexivity.
  - change (LoanType_eqb DEBT_FUND FANNIE_FREDDIE
            && LoanConstraints.has_tier_pricing (_define_loan_types DEBT_FUND))
      with false. cbv iota.
    rewrite (H None eq_refl). reflexivity.
Qed.

Lemma extend_all_In (self : LoanSizingEngine) (sd : bool)
  (types : list LoanType) :
  forall l s,
    extend_all self types sd = Ok l -> In s l ->
    exists lt l', In lt types
                  /\ _calculate_loan_type_scenarios self lt sd = Ok l'
                  /\ In s l'.
Proof.
  induction types as [| lt types IH]; simpl; intros l s H HIn.
  - inversion H; subst. contradiction.
  - apply bind_inv in H as (l1 & Hl1 & H).
    apply bind_inv in H as (l2 & Hl2 & H).
    inversion H; subst l; clear H.
    apply in_app_or in HIn as [HIn | HIn].
    + exists lt, l1. auto.
    + destruct (IH _ _ Hl2 HIn) as (lt' & l' & ? & ? & ?).
      exists lt', l'. auto.
Qed.

Lemma extend_all_ok (self : LoanSizingEngine) (sd : bool)
  (types : list LoanType) :
  0 < property_value self ->
  exists l, extend_all self types sd = Ok l.
Proof.
  intros Hpv. induction types as [| lt types [l IH]]; simpl; [eauto|].
  destruct (loan_type_scenarios_ok self lt sd Hpv) as [l1 ->].
  rewrite IH. simpl. eauto.
Qed.

Lemma insert_desc_In (s x : LoanScenario.t) (l : list LoanScenario.t) :
  In s (insert_desc x l) <-> s = x \/ In s l.
Proof.
  induction l as [| y l IH]; simpl.
  - intuition auto.
  - destruct (Qlt_bool _ _); simpl; rewrite ?IH; intuition auto.
Qed.

Lemma sort_desc_In (s : LoanScenario.t) (l : list LoanScenario.t) :
  In s (sort_desc l) <-> In s l.
Proof.
  induction l as [| x l IH]; simpl; [tauto|].
  rewrite insert_desc_In, IH. intuition auto.
Qed.

(** With positive NOI and value the call returns the sorted concatenation
    of the per-program lists. *)
Lemma calculate_loan_scenarios_ok (self : LoanSizingEngine) (sd : bool) :
  0 < noi self -> 0 < property_value self ->
  exists l0, extend_all self all_loan_types sd = Ok l0
             /\ calculate_loan_scenarios self sd = Ok (sort_desc l0).
Proof.
  intros Hnoi Hpv. unfold calculate_loan_scenarios.
  assert (H1 : Qle_bool (noi self) 0 = false).
  { destruct (Qle_bool (noi self) 0) eqn:E; trivial.
    apply Qle_bool_iff in E. lra. }
  assert (H2 : Qle_bool (property_value self) 0 = false).
  { destruct (Qle_bool (property_value self) 0) eqn:E; trivial.
    apply Qle_bool_iff in E. lra. }
  rewrite H1, H2. simpl orb. cbv iota.
  destruct (extend_all_ok self sd all_loan_types Hpv) as [l0 Hl0].
  exists l0. rewrite Hl0. auto.
Qed.

(** Every returned scenario was produced by [_calculate_single_scenario]
    for one of the applicable program/tier combinations. *)
Lemma emitted_origin (self : LoanSizingEngine) (sd : bool)
  (l : list LoanScenario.t) (s : LoanScenario.t) :
  calculate_loan_scenarios self sd = Ok l -> In s l ->
  exists lt tier,
    applicable lt tier
    /\ _calculate_single_scenario self lt (_define_loan_types lt) tier sd
       = Ok (Some s).
Proof.
  unfold calculate_loan_scenarios.
  destruct (Qle_bool (noi self) 0 || Qle_bool (property_value self) 0);
    [discriminate|].
  intros H HIn. apply bind_inv in H as (l0 & Hl0 & H).
  inversion H; subst l; clear H.
  apply (proj1 (sort_desc_In s l0)) in HIn.
  destruct (extend_all_In _ _ _ _ _ Hl0 HIn) as (lt & l' & _ & Hl' & HIn').
  destruct (loan_type_scenarios_In _ _ _ _ _ Hl' HIn') as (tier & ? & ?).
  eauto.
Qed.

Lemma dscr_max_loan_Fin (self : LoanSizingEngine) (lt : LoanType)
  (tier : option TierPricing.t) :
  0 < applicable_min_dscr lt tier ->
  dscr_max_loan self (_define_loan_types lt) tier = Fin (DSCR_ceiling self lt tier).
Proof.
  intros H. unfold dscr_max_loan, DSCR_ceiling.
  destruct tier as [t |]; simpl in *; apply Qlt_bool_iff in H; now rewrite H.
Qed.

Lemma debt_yield_max_loan_spec (self : LoanSizingEngine) (lt : LoanType) :
  debt_yield_max_loan self (_define_loan_types lt) = debt_yield_ceiling self lt.
Proof.
  unfold debt_yield_max_loan, debt_yield_ceiling. destruct lt; reflexivity.
Qed.

Lemma applicable_min_dscr_pos (lt : LoanType) (tier : option TierPricing.t) :
  applicable lt tier -> 0 < applicable_min_dscr lt tier.
Proof.
  intros H. apply applicable_cases in H.
  destruct H as [[-> [-> | [-> | ->]]] | [[-> ->] | [-> ->]]];
    unfold applicable_min_dscr; simpl; lra.
Qed.

(** The amount the code computes is the minimum of the three ceilings. *)
Lemma computed_is_min_of_ceilings (self : LoanSizingEngine) (lt : LoanType)
  (tier : option TierPricing.t) :
  applicable lt tier ->
  computed_loan_amount self lt tier == min_of_ceilings self lt tier.
Proof.
  intros H. unfold computed_loan_amount, min_of_ceilings.
  rewrite dscr_max_loan_Fin by now apply applicable_min_dscr_pos.
  rewrite debt_yield_max_loan_spec.
  change (ltv_max_loan self (_define_loan_types lt) tier)
    with (LTV_ceiling self lt tier).
  destruct (debt_yield_ceiling self lt).
  - apply py_min_two.
  - apply py_min_one.
Qed.

Lemma program_minimum_pos (lt : LoanType) :
  LoanConstraints.min_loan_amount (_define_loan_types lt)
  = Some (program_minimum lt)
  /\ 0 < program_minimum lt.
Proof.
  destruct lt; unfold program_minimum; simpl; split; try reflexivity; lra.
Qed.

(** Tier names identify the tier. *)
Lemma applicable_tier_name_inj (lt : LoanType) (t1 t2 : option TierPricing.t) :
  applicable lt t1 -> applicable lt t2 ->
  option_map TierPricing.tier_name t1 = option_map TierPricing.tier_name t2 ->
  t1 = t2.
Proof.
  intros H1 H2. apply applicable_cases in H1, H2.
  destruct H1 as [[-> [-> | [-> | ->]]] | [[-> ->] | [-> ->]]];
    destruct H2 as [[E [-> | [-> | ->]]] | [[E ->] | [E ->]]];
    try discriminate E; simpl; intros Hn; try reflexivity; discriminate Hn.
Qed.

(** What the list holds: each scenario carries the computed amount of its
    own program/tier combination and meets the program minimum. *)
Lemma emitted_amount (self : LoanSizingEngine) (sd : bool)
  (l : list LoanScenario.t) (s : LoanScenario.t) :
  calculate_loan_scenarios self sd = Ok l -> In s l ->
  exists tier,
    applicable (LoanScenario.loan_type s) tier
    /\ LoanScenario.tier_name s = option_map TierPricing.tier_name tier
    /\ LoanScenario.loan_amount s
       = computed_loan_amount self (LoanScenario.loan_type s) tier
    /\ program_minimum (LoanScenario.loan_type s) <= LoanScenario.loan_amount s
    /\ ~ property_value self == 0
    /\ LoanScenario.ltv s = LoanScenario.loan_amount s / property_value self
    /\ LoanScenario.debt_yield s = noi self / LoanScenario.loan_amount s.
Proof.
  intros H HIn.
  destruct (emitted_origin _ _ _ _ H HIn) as (lt & tier & Happ & Hs).
  apply single_scenario_Some in Hs
    as (Hlt & Hname & Hla & Hmin & Hpv & Hltv & Hdy).
  subst lt. exists tier.
  destruct (program_minimum_pos (LoanScenario.loan_type s)) as [Hm Hpos].
  specialize (Hmin _ Hm).
  assert (Hge : program_minimum (LoanScenario.loan_type s)
                <= LoanScenario.loan_amount s) by (apply Hmin; lra).
  repeat split; trivial.
  apply Hdy. lra.
Qed.

(** ** Loan sizing: the claims *)

(** An NOI of 500,000 at a 6% cap rate sizes every program under its
    minimum: the list is empty, and no error is raised. *)
Example end_to_end_no_scenarios :
  calculate_loan_scenarios engine_500K_6pct false = Ok []
  /\ computed_loan_amount engine_500K_6pct FANNIE_FREDDIE
       (Some (TierPricing.mk "Tier 2" 0.75 1.25 0)) == 400000.
Proof. split; vm_compute; reflexivity. Qed.

(** C1.  With positive NOI and value the engine returns a list in which
    every scenario's loan amount is the minimum of the LTV, DSCR and
    debt-yield ceilings of its own program/tier combination (the debt-yield
    ceiling being infinite for a program without that requirement) and is at
    least the program minimum; a combination whose minimum of ceilings is
    under the program minimum has no entry in the list. *)
Theorem C1_loan_amount_min_of_ceilings (self : LoanSizingEngine) (sd : bool) :
  0 < noi self -> 0 < property_value self ->
  exists l,
    calculate_loan_scenarios self sd = Ok l
    /\ (forall s, In s l ->
          exists tier,
            applicable (LoanScenario.loan_type s) tier
            /\ LoanScenario.tier_name s = option_map TierPricing.tier_name tier
            /\ LoanScenario.loan_amount s
               == min_of_ceilings self (LoanScenario.loan_type s) tier
            /\ program_minimum (LoanScenario.loan_type s)
               <= LoanScenario.loan_amount s)
    /\ (forall lt tier,
          applicable lt tier ->
          min_of_ceilings self lt tier < program_minimum lt ->
          forall s, In s l ->
            ~ (LoanScenario.loan_type s = lt
               /\ LoanScenario.tier_name s
                  = option_map TierPricing.tier_name tier)).
Proof.
  intros Hnoi Hpv.
  destruct (calculate_loan_scenarios_ok self sd Hnoi Hpv) as (l0 & _ & Hl).
  exists (sort_desc l0). split; [exact Hl|]. split.
  - intros s HIn.
    destruct (emitted_amount _ _ _ _ Hl HIn)
      as (tier & Happ & Hname & Hla & Hmin & _).
    exists tier. repeat split; trivial.
    rewrite Hla. now apply computed_is_min_of_ceilings.
  - intros lt tier Happ Hlow s HIn [Hlt Hname].
    destruct (emitted_amount _ _ _ _ Hl HIn)
      as (tier' & Happ' & Hname' & Hla & Hmin & _).
    subst lt.
    assert (tier' = tier) as ->.
    { apply (applicable_tier_name_inj (LoanScenario.loan_type s)); trivial.
      congruence. }
    rewrite Hla in Hmin.
    rewrite (computed_is_min_of_ceilings _ _ _ Happ) in Hmin. lra.
Qed.

Lemma C1_witness :
  exists l,
    calculate_loan_scenarios engine_10M_100M false = Ok l
    /\ (forall s, In s l ->
          exists tier,
            applicable (LoanScenario.loan_type s) tier
            /\ LoanScenario.tier_name s = option_map TierPricing.tier_name tier
            /\ LoanScenario.loan_amount s
               == min_of_ceilings engine_10M_100M (LoanScenario.loan_type s) tier
            /\ program_minimum (LoanScenario.loan_type s)
               <= LoanScenario.loan_amount s)
    /\ (forall lt tier,
          applicable lt tier ->
          min_of_ceilings engine_10M_100M lt tier < program_minimum lt ->
          forall s, In s l ->
            ~ (LoanScenario.loan_type s = lt
               /\ LoanScenario.tier_name s
                  = option_map TierPricing.tier_name tier)).
Proof.
  apply (C1_loan_amount_min_of_ceilings engine_10M_100M false);
    simpl; reflexivity.
Defined.

(** C2.  A call with non-positive NOI or non-positive property value raises
    [ValueError]; with both positive the call returns a list, every program
    call returns a list as well, and a program none of whose combinations
    reaches its minimum returns the empty list and has no scenario in the
    result. *)
Theorem C2_invalid_state_raises (self : LoanSizingEngine) (sd : bool) :
  ((noi self <= 0 \/ property_value self <= 0) ->
   calculate_loan_scenarios self sd = Raise ValueError)
  /\ (0 < noi self -> 0 < property_value self ->
      (exists l,
         calculate_loan_scenarios self sd = Ok l
         /\ forall lt,
              (forall tier, applicable lt tier ->
                 min_of_ceilings self lt tier < program_minimum lt) ->
              _calculate_loan_type_scenarios self lt sd = Ok []
              /\ forall s, In s l -> LoanScenario.loan_type s <> lt)).
Proof.
  split.
  - intros H. unfold calculate_loan_scenarios.
    destruct H as [H | H]; apply Qle_bool_iff in H; rewrite H;
      [reflexivity | now rewrite orb_true_r].
  - intros Hnoi Hpv.
    destruct (calculate_loan_scenarios_ok self sd Hnoi Hpv) as (l0 & _ & Hl).
    exists (sort_desc l0). split; [exact Hl|].
    intros lt Hnone. split.
    + apply loan_type_scenarios_none. intros tier Happ.
      destruct (program_minimum_pos lt) as [Hm Hpos].
      apply (single_scenario_None _ _ _ _ _ _ Hm); [lra|].
      specialize (Hnone tier Happ).
      pose proof (computed_is_min_of_ceilings self lt tier Happ) as E.
      unfold computed_loan_amount in E. rewrite E. exact Hnone.
    + intros s HIn Hlt.
      destruct (emitted_amount _ _ _ _ Hl HIn)
        as (tier & Happ & _ & Hla & Hmin & _).
      subst lt. specialize (Hnone tier Happ).
      rewrite Hla, (computed_is_min_of_ceilings _ _ _ Happ) in Hmin. lra.
Qed.

Lemma C2_witness :
  calculate_loan_scenarios init false = Raise ValueError
  /\ exists l,
       calculate_loan_scenarios engine_10M_100M false = Ok l
       /\ forall lt,
            (forall tier, applicable lt tier ->
               min_of_ceilings engine_10M_100M lt tier < program_minimum lt) ->
            _calculate_loan_type_scenarios engine_10M_100M lt false = Ok []
            /\ forall s, In s l -> LoanScenario.loan_type s <> lt.
Proof.
  split.
  - apply (proj1 (C2_invalid_state_raises init false)).
    left. simpl. apply Qle_refl.
  - apply (proj2 (C2_invalid_state_raises engine_10M_100M false));
      simpl; reflexivity.
Defined.

Lemma insert_desc_descending (s : LoanScenario.t) (l : list LoanScenario.t) :
  descending l -> descending (insert_desc s l).
Proof.
  induction l as [| y l IH]; simpl; [trivial|].
  intros Hd.
  destruct (Qlt_bool (LoanScenario.loan_amount s) (LoanScenario.loan_amount y))
    eqn:E.
  - apply Qlt_bool_iff in E.
    destruct l as [| z l]; simpl in *.
    + split; [lra | trivial].
    + destruct Hd as [Hzy Hd]. specialize (IH Hd).
      destruct (Qlt_bool (LoanScenario.loan_amount s)
                  (LoanScenario.loan_amount z)) eqn:E'.
      * split; trivial.
      * split; [lra | trivial].
  - apply Qlt_bool_false_iff in E. simpl. split; trivial.
Qed.

Lemma sort_desc_descending (l : list LoanScenario.t) : descending (sort_desc l).
Proof.
  induction l as [| x l IH]; simpl; [trivial|].
  now apply insert_desc_descending.
Qed.

(** C7, as amended.  With positive NOI and value the returned list is in
    non-increasing order of loan amount: each scenario's amount is at least
    that of the scenario after it.  (Equal amounts do occur.) *)
Theorem C7_sorted_descending (self : LoanSizingEngine) (sd : bool) :
  0 < noi self -> 0 < property_value self ->
  exists l, calculate_loan_scenarios self sd = Ok l /\ descending l.
Proof.
  intros Hnoi Hpv.
  destruct (calculate_loan_scenarios_ok self sd Hnoi Hpv) as (l0 & _ & Hl).
  exists (sort_desc l0). split; [exact Hl | apply sort_desc_descending].
Qed.

Lemma C7_witness :
  exists l, calculate_loan_scenarios engine_10M_100M false = Ok l /\ descending l.
Proof.
  apply (C7_sorted_descending engine_10M_100M false); simpl; reflexivity.
Defined.

Lemma applicable_min_dscr_margin (lt : LoanType) (tier : option TierPricing.t)
  (dy : Q) :
  applicable lt tier ->
  LoanConstraints.min_debt_yield (_define_loan_types lt) = Some dy ->
  0 < dy /\ 10 * dy <= applicable_min_dscr lt tier.
Proof.
  intros Happ Hdy.
  destruct (applicable_cases lt tier Happ)
    as [[-> [-> | [-> | ->]]] | [[-> ->] | [-> ->]]];
    simpl in Hdy; inversion Hdy; subst; unfold applicable_min_dscr; simpl;
    split; lra.
Qed.

(** C10.  With positive NOI and value, every returned scenario has a loan
    amount that is at most the LTV ceiling the code computes, the property
    value times the applicable maximum LTV, and, for a program with a
    minimum debt yield, at most the debt-yield ceiling, the NOI over that
    minimum.  The reported LTV is the loan amount over the property value
    and the reported debt yield the NOI over the loan amount; the debt yield
    is at least ten times the minimum, the DSCR ceiling being the smaller
    one. *)
Theorem C10_leverage_constraints (self : LoanSizingEngine) (sd : bool) :
  0 < noi self -> 0 < property_value self ->
  exists l,
    calculate_loan_scenarios self sd = Ok l
    /\ forall s, In s l ->
         exists tier,
           applicable (LoanScenario.loan_type s) tier
           /\ LoanScenario.tier_name s = option_map TierPricing.tier_name tier
           /\ LoanScenario.loan_amount s
              <= LTV_ceiling self (LoanScenario.loan_type s) tier
           /\ LoanScenario.ltv s
              = LoanScenario.loan_amount s / property_value self
           /\ LoanScenario.debt_yield s
              = noi self / LoanScenario.loan_amount s
           /\ forall dy,
                LoanConstraints.min_debt_yield
                  (_define_loan_types (LoanScenario.loan_type s)) = Some dy ->
                LoanScenario.loan_amount s <= noi self / dy
                /\ 10 * dy <= LoanScenario.debt_yield s.
Proof.
  intros Hnoi Hpv.
  destruct (calculate_loan_scenarios_ok self sd Hnoi Hpv) as (l0 & _ & Hl).
  exists (sort_desc l0). split; [exact Hl|].
  intros s HIn.
  destruct (emitted_amount _ _ _ _ Hl HIn)
    as (tier & Happ & Hname & Hla & Hmin & _ & Hltv & Hdy).
  exists tier. repeat split; trivial.
  - rewrite Hla. unfold computed_loan_amount, LTV_ceiling.
    eapply Qle_trans; [apply py_min_le_best|].
    unfold ltv_max_loan, applicable_max_ltv.
    destruct tier; apply Qle_refl.
  - rewrite Hla. unfold computed_loan_amount.
    apply py_min_le_item.
    rewrite debt_yield_max_loan_spec. unfold debt_yield_ceiling.
    rewrite H. simpl. auto.
  - rename H into Hsome.
    destruct (applicable_min_dscr_margin _ _ _ Happ Hsome) as [Hdypos Hmargin].
    destruct (program_minimum_pos (LoanScenario.loan_type s)) as [_ Hpos].
    assert (Hlapos : 0 < LoanScenario.loan_amount s) by lra.
    pose proof (applicable_min_dscr_pos _ _ Happ) as Hmd.
    assert (Hle : LoanScenario.loan_amount s
                  <= noi self / applicable_min_dscr (LoanScenario.loan_type s) tier).
    { rewrite Hla. unfold computed_loan_amount.
      apply py_min_le_item.
      rewrite (dscr_max_loan_Fin _ _ _ Hmd). unfold DSCR_ceiling. simpl. auto. }
    rewrite Hdy.
    apply Qle_trans with (applicable_min_dscr (LoanScenario.loan_type s) tier);
      [exact Hmargin|].
    apply Qle_shift_div_l; [trivial|].
    apply (Qmult_le_compat_r _ _ (applicable_min_dscr (LoanScenario.loan_type s) tier))
      in Hle; [|lra].
    rewrite (Qmult_comm (noi self / _)), Qmult_div_r in Hle by lra.
    rewrite Qmult_comm. exact Hle.
Qed.

Lemma C10_witness :
  exists l,
    calculate_loan_scenarios engine_10M_100M false = Ok l
    /\ forall s, In s l ->
         exists tier,
           applicable (LoanScenario.loan_type s) tier
           /\ LoanScenario.tier_name s = option_map TierPricing.tier_name tier
           /\ LoanScenario.loan_amount s
              <= LTV_ceiling engine_10M_100M (LoanScenario.loan_type s) tier
           /\ LoanScenario.ltv s
              = LoanScenario.loan_amount s / property_value engine_10M_100M
           /\ LoanScenario.debt_yield s
              = noi engine_10M_100M / LoanScenario.loan_amount s
           /\ forall dy,
                LoanConstraints.min_debt_yield
                  (_define_loan_types (LoanScenario.loan_type s)) = Some dy ->
                LoanScenario.loan_amount s <= noi engine_10M_100M / dy
                /\ 10 * dy <= LoanScenario.debt_yield s.
Proof.
  apply (C10_leverage_constraints engine_10M_100M false); simpl; reflexivity.
Defined.

(** In binary64 the reported LTV can exceed the maximum: for a property
    worth 228,934,017 with an NOI of 180,000,000 the debt-fund scenario is
    returned with the loan amount [228934017 * 0.80], and that amount over
    the value is one unit in the last place above 0.80. *)
Lemma C10_counterexample :
  exists l s,
    Binary64.calculate_loan_scenarios Binary64.example_noi Binary64.example_value
    = Ok l
    /\ In s l
    /\ Binary64.loan_type s = DEBT_FUND
    /\ Binary64.loan_amount s
       = PrimFloat.mul Binary64.example_value
           (Binary64.max_ltv (Binary64._define_loan_types DEBT_FUND))
    /\ Binary64.ltv s
       = PrimFloat.div (Binary64.loan_amount s) Binary64.example_value
    /\ PrimFloat.ltb (Binary64.max_ltv (Binary64._define_loan_types DEBT_FUND))
         (Binary64.ltv s) = true.
Proof.
  eexists. eexists. split; [reflexivity|].
  split; [left; reflexivity|]. repeat split.
Qed.

(** *** Completeness: a qualifying combination is in the list *)

Lemma single_scenario_None_inv (self : LoanSizingEngine) (lt : LoanType)
  (c : LoanConstraints.t) (tier : option TierPricing.t) (sd : bool) :
  _calculate_single_scenario self lt c tier sd = Ok None ->
  exists m, LoanConstraints.min_loan_amount c = Some m
            /\ py_min (ltv_max_loan self c tier)
                 [dscr_max_loan self c tier; debt_yield_max_loan self c] < m.
Proof.
  unfold _calculate_single_scenario.
  set (la := py_min _ _).
  destruct (LoanConstraints.min_loan_amount c) as [m |].
  - destruct (negb (Qeq_bool m 0) && Qlt_bool la m) eqn:E.
    + intros _. exists m. split; [reflexivity|].
      apply andb_true_iff in E as [_ E]. now apply Qlt_bool_iff in E.
    + intros H.
      apply bind_inv in H as (? & _ & H).
      apply bind_inv in H as (? & _ & H).
      apply bind_inv in H as (? & _ & H). discriminate H.
  - intros H.
    apply bind_inv in H as (? & _ & H).
    apply bind_inv in H as (? & _ & H).
    apply bind_inv in H as (? & _ & H). discriminate H.
Qed.

Lemma tier_scenarios_complete (self : LoanSizingEngine) (lt : LoanType)
  (c : LoanConstraints.t) (sd : bool) (tiers : list TierPricing.t) :
  forall l t s,
    tier_scenarios self lt c tiers sd = Ok l -> In t tiers ->
    _calculate_single_scenario self lt c (Some t) sd = Ok (Some s) ->
    In s l.
Proof.
  induction tiers as [| t0 tiers IH]; simpl; intros l t s H HIn Hs.
  - contradiction.
  - apply bind_inv in H as (r & Hr & H).
    apply bind_inv in H as (l' & Hl' & H).
    inversion H; subst l; clear H.
    destruct HIn as [-> | HIn].
    + rewrite Hs in Hr. inversion Hr; subst r. now left.
    + specialize (IH _ _ _ Hl' HIn Hs). destruct r; simpl; auto.
Qed.

Lemma applicable_max_ltv_le (lt : LoanType) (tier : option TierPricing.t) :
  applicable lt tier ->
  applicable_max_ltv lt tier <= LoanConstraints.max_ltv (_define_loan_types lt).
Proof.
  intros H. apply applicable_cases in H.
  destruct H as [[-> [-> | [-> | ->]]] | [[-> ->] | [-> ->]]];
    unfold applicable_max_ltv; simpl; lra.
Qed.

Lemma loan_type_scenarios_complete (self : LoanSizingEngine) (lt : LoanType)
  (sd : bool) (tier : option TierPricing.t) (l : list LoanScenario.t)
  (s : LoanScenario.t) :
  0 < property_value self -> applicable lt tier ->
  _calculate_single_scenario self lt (_define_loan_types lt) tier sd
  = Ok (Some s) ->
  _calculate_loan_type_scenarios self lt sd = Ok l ->
  In s l.
Proof.
  intros Hpv Happ Hs.
  assert (Hbig : program_minimum lt
                 <= property_value self
                    * LoanConstraints.max_ltv (_define_loan_types lt)).
  { destruct (program_minimum_pos lt) as [Hm Hpos].
    apply single_scenario_Some in Hs as (_ & _ & Hla & Hmin & _).
    specialize (Hmin _ Hm). rewrite Hla in Hmin.
    eapply Qle_trans; [apply Hmin; lra|].
    eapply Qle_trans; [apply py_min_le_best|].
    unfold ltv_max_loan.
    pose proof (applicable_max_ltv_le lt tier Happ) as Hle.
    unfold applicable_max_ltv in Hle.
    apply Qmult_le_l; [trivial|]. exact Hle. }
  unfold _calculate_loan_type_scenarios.
  destruct (program_minimum_pos lt) as [Hm Hpos]. rewrite Hm.
  apply Qlt_bool_false_iff in Hbig. rewrite Hbig, andb_false_r.
  destruct lt.
  - change (LoanType_eqb FANNIE_FREDDIE FANNIE_FREDDIE
            && LoanConstraints.has_tier_pricing (_define_loan_types FANNIE_FREDDIE))
      with true. cbv iota.
    destruct Happ as (t & -> & Ht). intros H.
    eapply tier_scenarios_complete; eauto.
  - change (LoanType_eqb CMBS FANNIE_FREDDIE
            && LoanConstraints.has_tier_pricing (_define_loan_types CMBS))
      with false. cbv iota.
    simpl in Happ. subst tier. rewrite Hs. simpl.
    intros H; inversion H; subst. now left.
  - change (LoanType_eqb DEBT_FUND FANNIE_FREDDIE
            && LoanConstraints.has_tier_pricing (_define_loan_types DEBT_FUND))
      with false. cbv iota.
    simpl in Happ. subst tier. rewrite Hs. simpl.
    intros H; inversion H; subst. now left.
Qed.

Lemma extend_all_complete (self : LoanSizingEngine) (sd : bool)
  (types : list LoanType) :
  forall l lt l' s,
    extend_all self types sd = Ok l -> In lt types ->
    _calculate_loan_type_scenarios self lt sd = Ok l' -> In s l' ->
    In s l.
Proof.
  induction types as [| lt0 types IH]; simpl; intros l lt l' s H HIn Hl' Hs.
  - contradiction.
  - apply bind_inv in H as (l1 & Hl1 & H).
    apply bind_inv in H as (l2 & Hl2 & H).
    inversion H; subst l; clear H.
    apply in_or_app.
    destruct HIn as [-> | HIn].
    + left. congruence.
    + right. eauto.
Qed.

Lemma all_loan_types_complete (lt : LoanType) : In lt all_loan_types.
Proof. destruct lt; simpl; auto. Qed.

(** A combination whose computed amount reaches the program minimum has its
    scenario in the returned list. *)
Lemma qualifying_is_emitted (self : LoanSizingEngine) (sd : bool)
  (lt : LoanType) (tier : option TierPricing.t) (l : list LoanScenario.t) :
  0 < property_value self -> applicable lt tier ->
  program_minimum lt <= computed_loan_amount self lt tier ->
  calculate_loan_scenarios self sd = Ok l ->
  exists s, In s l
            /\ LoanScenario.loan_type s = lt
            /\ LoanScenario.tier_name s = option_map TierPricing.tier_name tier
            /\ LoanScenario.loan_amount s = computed_loan_amount self lt tier.
Proof.
  intros Hpv Happ Hge Hl.
  destruct (configured_single_ok self lt tier sd Hpv Happ) as [r Hr].
  destruct r as [s |].
  - exists s.
    pose proof (single_scenario_Some _ _ _ _ _ _ Hr) as (Hlt & Hname & Hla & _).
    repeat split; trivial.
    revert Hl. unfold calculate_loan_scenarios.
    destruct (Qle_bool (noi self) 0 || Qle_bool (property_value self) 0);
      [discriminate|].
    intros Hl. apply bind_inv in Hl as (l0 & Hl0 & Hl).
    inversion Hl; subst l; clear Hl.
    apply sort_desc_In.
    destruct (loan_type_scenarios_ok self lt sd Hpv) as [l' Hl'].
    eapply extend_all_complete; eauto using all_loan_types_complete.
    eapply loan_type_scenarios_complete; eauto.
  - apply single_scenario_None_inv in Hr as (m & Hm & Hlt).
    destruct (program_minimum_pos lt) as [Hm' _].
    rewrite Hm in Hm'. inversion Hm' as [E].
    unfold computed_loan_amount in Hge. rewrite <- E in Hge. lra.
Qed.

Lemma strictly_descending_head (x : LoanScenario.t) (l : list LoanScenario.t) :
  strictly_descending (x :: l) ->
  strictly_descending l
  /\ forall y, In y l -> LoanScenario.loan_amount y < LoanScenario.loan_amount x.
Proof.
  revert x. induction l as [| z l IH]; intros x; simpl.
  - intros _. split; [trivial | contradiction].
  - intros [Hzx Hd]. split; [exact Hd|].
    intros y [<- | HIn]; [exact Hzx|].
    destruct (IH z Hd) as [_ Hall]. specialize (Hall y HIn). lra.
Qed.

(** A strictly decreasing list has no two entries of equal amount. *)
Lemma strictly_descending_no_ties (l : list LoanScenario.t)
  (s1 s2 : LoanScenario.t) :
  strictly_descending l -> In s1 l -> In s2 l ->
  LoanScenario.loan_amount s1 == LoanScenario.loan_amount s2 -> s1 = s2.
Proof.
  induction l as [| x l IH]; [contradiction|].
  intros Hd H1 H2 Heq.
  apply strictly_descending_head in Hd as [Hd Hall].
  destruct H1 as [-> | H1], H2 as [-> | H2]; auto.
  - specialize (Hall _ H2). lra.
  - specialize (Hall _ H1). lra.
Qed.

(** C7, as stated, fails: for a ten-million NOI on a hundred-million
    property the Fannie/Freddie Tier 2 scenario and the CMBS scenario both
    size to 8,000,000, so the returned list holds two entries of equal
    amount and is not strictly decreasing. *)
Lemma C7_counterexample :
  exists l,
    calculate_loan_scenarios engine_10M_100M false = Ok l
    /\ ~ strictly_descending l.
Proof.
  destruct (calculate_loan_scenarios_ok engine_10M_100M false)
    as (l0 & _ & Hl); [reflexivity | reflexivity |].
  exists (sort_desc l0). split; [exact Hl|]. intros Hd.
  destruct (qualifying_is_emitted engine_10M_100M false FANNIE_FREDDIE
              (Some (TierPricing.mk "Tier 2" 0.75 1.25 0)) (sort_desc l0))
    as (s1 & H1 & T1 & _ & A1);
    [ reflexivity
    | eexists; split; [reflexivity | simpl; auto]
    | vm_compute; discriminate
    | exact Hl |].
  destruct (qualifying_is_emitted engine_10M_100M false CMBS None
              (sort_desc l0))
    as (s2 & H2 & T2 & _ & A2);
    [ reflexivity | reflexivity | vm_compute; discriminate | exact Hl |].
  assert (E : s1 = s2).
  { apply (strictly_descending_no_ties _ _ _ Hd H1 H2).
    rewrite A1, A2. vm_compute. reflexivity. }
  subst s2. congruence.
Qed.

(** ** Rent roll *)

Lemma fold_left_add_acc {A : Type} (f : A -> Q) (l : list A) (acc : Q) :
  fold_left (fun a x => a + f x) l acc
  == acc + fold_right (fun x a => f x + a) 0 l.
Proof.
  revert acc. induction l as [| x l IH]; intros acc; simpl.
  - ring.
  - rewrite IH. ring.
Qed.

Lemma sum_rent_total (us : list UnitRecord) : sum_rent us == total_of clean_rent us.
Proof.
  unfold sum_rent, total_of. rewrite fold_left_add_acc. ring.
Qed.

Lemma mean_rent_average (us : list UnitRecord) : mean_rent us == average_rent us.
Proof.
  unfold mean_rent, average_rent.
  rewrite sum_rent_total. reflexivity.
Qed.

Lemma filter_filter {A : Type} (p q : A -> bool) (l : list A) :
  filter q (filter p l) = filter (fun x => p x && q x) l.
Proof.
  induction l as [| x l IH]; simpl; [reflexivity|].
  destruct (p x); simpl; [destruct (q x)|]; now rewrite IH.
Qed.

Lemma occupied_type_units_comparators (df : list UnitRecord) (tc sc : nat) (u : UnitRecord) :
  occupied_type_units df tc sc (at_col tc (cells u))
  = occupied_comparators df tc sc u.
Proof.
  unfold occupied_type_units, occupied_comparators. apply filter_filter.
Qed.

(** One turn of the loop adds the imputed rent of the unit. *)
Lemma add_vacant_unit_imputed (df : list UnitRecord) (tc sc : nat) (acc : Q) (u : UnitRecord) :
  add_vacant_unit df tc sc acc u == acc + imputed_rent df tc sc u.
Proof.
  unfold add_vacant_unit, imputed_rent.
  rewrite occupied_type_units_comparators.
  destruct (occupied_comparators df tc sc u) as [| v vs].
  - change (0 <? List.length (@nil UnitRecord))%nat with false. cbv iota. ring.
  - change (0 <? List.length (v :: vs))%nat with true. cbv iota.
    rewrite mean_rent_average. reflexivity.
Qed.

Lemma vacant_loop_total (df : list UnitRecord) (tc sc : nat) (l : list UnitRecord) :
  forall acc,
    fold_left (add_vacant_unit df tc sc) l acc
    == acc + total_of (imputed_rent df tc sc) l.
Proof.
  induction l as [| u l IH]; intros acc; simpl.
  - ring.
  - rewrite IH, add_vacant_unit_imputed. ring.
Qed.

(** By position, the vacant-unit income is the sum, over the units
    classified vacant, of their imputed rent. *)
Lemma vacant_income_by_position (df : list UnitRecord) (tc sc : nat) :
  _calculate_vacant_income df (Some tc) (Some sc)
  == total_of (imputed_rent df tc sc) (filter (is_vacant sc) df).
Proof.
  unfold _calculate_vacant_income. rewrite vacant_loop_total. ring.
Qed.

(** The two derived fields of every analysis. *)
Lemma rent_analysis_identities (df : DataFrame) (a : RentAnalysis) :
  _analyze_rent_roll df = Some a ->
  gross_potential_income a
  = current_monthly_income a + vacant_unit_income a
  /\ annual_gpi a = gross_potential_income a * 12.
Proof.
  unfold _analyze_rent_roll.
  destruct (_find_column df _) as [rc |]; [|discriminate].
  intros H. inversion H; subst a; clear H. simpl. auto.
Qed.

(** The current income is the rent of every retained unit, whatever its
    status. *)
Lemma current_income_all_units (df : DataFrame) (a : RentAnalysis) (rc : nat) :
  _find_column df ["rent"; "current rent"; "monthly rent"]%string = Some rc ->
  _analyze_rent_roll df = Some a ->
  current_monthly_income a == total_of clean_rent (valid_rent_rows rc (rows df)).
Proof.
  unfold _analyze_rent_roll. intros ->.
  intros H. inversion H; subst a; clear H. simpl.
  rewrite sum_rent_total.
  assert (E : forall l, filter (fun u => Qlt_bool 0 (clean_rent u))
                          (valid_rent_rows rc l) = valid_rent_rows rc l).
  { induction l as [| row l IH]; simpl; [reflexivity|].
    destruct (clean_rent_of rc row) as [rent |]; [|exact IH].
    destruct (Qlt_bool 0 rent) eqn:E; [|exact IH].
    simpl. now rewrite E, IH. }
  rewrite E. reflexivity.
Qed.

(** C3, at the failing input.  For two one-bedroom units listed at 1,000,
    one occupied and one vacant, the analysis counts one occupied and one
    vacant unit, yet the current income is 2,000 and the monthly GPI 3,000:
    the rent of the vacant unit is counted as actual rent and imputed as well.
    The occupied rent plus the imputed vacant rent is 2,000.  The annual GPI
    is twelve times the monthly figure. *)
Theorem C3_vacant_listed_rent_counted_twice :
  exists a,
    _analyze_rent_roll rent_roll_vacant_listed = Some a
    /\ occupied_units a = 1%Z
    /\ vacant_units a = 1%Z
    /\ current_monthly_income a == 2000
    /\ vacant_unit_income a == 1000
    /\ gross_potential_income a == 3000
    /\ annual_gpi a == 12 * gross_potential_income a
    /\ specified_monthly_gpi units_vacant_listed 1 3 == 2000.
Proof.
  eexists. split; [vm_compute; reflexivity|].
  repeat split; vm_compute; reflexivity.
Qed.

Lemma valid_rent_rows_app (rc : nat) (rs1 rs2 : list (list cell)) :
  valid_rent_rows rc (rs1 ++ rs2)
  = valid_rent_rows rc rs1 ++ valid_rent_rows rc rs2.
Proof.
  induction rs1 as [| row rs1 IH]; simpl; [reflexivity|].
  destruct (clean_rent_of rc row) as [rent |]; [|exact IH].
  destruct (Qlt_bool 0 rent); [|exact IH]. simpl. now rewrite IH.
Qed.

Lemma valid_rent_rows_length (rc : nat) (rs : list (list cell)) :
  List.length (valid_rent_rows rc rs)
  = List.length (filter (has_valid_rent rc) rs).
Proof.
  induction rs as [| row rs IH]; simpl; [reflexivity|].
  unfold has_valid_rent.
  destruct (clean_rent_of rc row) as [rent |]; [|exact IH].
  destruct (Qlt_bool 0 rent); [|exact IH]. simpl. now rewrite IH.
Qed.

Lemma valid_rent_rows_positive (rc : nat) (rs : list (list cell)) (u : UnitRecord) :
  In u (valid_rent_rows rc rs) ->
  In (cells u) rs /\ clean_rent_of rc (cells u) = Some (clean_rent u)
  /\ 0 < clean_rent u.
Proof.
  induction rs as [| row rs IH]; simpl; [contradiction|].
  destruct (clean_rent_of rc row) as [rent |] eqn:E.
  - destruct (Qlt_bool 0 rent) eqn:L.
    + intros [<- | HIn]; simpl.
      * apply Qlt_bool_iff in L. auto.
      * destruct (IH HIn) as (? & ? & ?). auto.
    + intros HIn. destruct (IH HIn) as (? & ? & ?). auto.
  - intros HIn. destruct (IH HIn) as (? & ? & ?). auto.
Qed.

(** By position, the analysis is computed from the rows whose rent parses
    to a positive number only: every retained unit has such a rent, the
    total unit count is the number of those rows, and a row whose rent does
    not parse to a positive number leaves every field of the analysis as it
    is without the row. *)
Lemma invalid_rent_rows_removed_by_position (df : DataFrame) (rc : nat) :
  _find_column df ["rent"; "current rent"; "monthly rent"]%string = Some rc ->
  (forall u, In u (valid_rent_rows rc (rows df)) ->
     has_valid_rent rc (cells u) = true)
  /\ (exists a,
        _analyze_rent_roll df = Some a
        /\ total_units a
           = Z.of_nat (List.length (filter (has_valid_rent rc) (rows df))))
  /\ (forall rows1 row rows2,
        rows df = rows1 ++ row :: rows2 ->
        has_valid_rent rc row = false ->
        _analyze_rent_roll df
        = _analyze_rent_roll {| columns := columns df; rows := rows1 ++ rows2 |}).
Proof.
  intros Hrc. split; [|split].
  - intros u HIn. apply valid_rent_rows_positive in HIn as (_ & E & Hpos).
    unfold has_valid_rent. rewrite E. now apply Qlt_bool_iff.
  - unfold _analyze_rent_roll. rewrite Hrc. eexists. split; [reflexivity|].
    simpl. now rewrite valid_rent_rows_length.
  - intros rows1 row rows2 Hrows Hbad.
    unfold _analyze_rent_roll, _find_column in *. simpl columns. rewrite Hrc.
    simpl rows. rewrite Hrows.
    assert (E : valid_rent_rows rc (rows1 ++ row :: rows2)
                = valid_rent_rows rc (rows1 ++ rows2)).
    { rewrite !valid_rent_rows_app. f_equal. simpl.
      unfold has_valid_rent in Hbad.
      destruct (clean_rent_of rc row) as [rent |]; [|reflexivity].
      now rewrite Hbad. }
    rewrite E. reflexivity.
Qed.

(** ** Rent roll: row labels *)

Section RentRollLabels.

Local Open Scope nat_scope.

Lemma valid_rent_labels_length (rc pos : nat) (rs : list (list cell)) :
  List.length (Indexed.valid_rent_labels rc pos rs)
  = List.length (valid_rent_rows rc rs).
Proof.
  revert pos. induction rs as [| row rs IH]; intros pos; simpl; [reflexivity|].
  unfold has_valid_rent.
  destruct (clean_rent_of rc row) as [rent |]; [|apply IH].
  destruct (Qlt_bool 0 rent); simpl; now rewrite IH.
Qed.

Lemma valid_row_has_label (rc pos : nat) (rs : list (list cell))
  (row : list cell) :
  In row rs -> has_valid_rent rc row = true ->
  Indexed.valid_rent_labels rc pos rs <> [].
Proof.
  revert pos. induction rs as [| r rs IH]; intros pos; simpl; [tauto|].
  intros [-> | H] Hv.
  - now rewrite Hv.
  - destruct (has_valid_rent rc r); [discriminate | now apply IH].
Qed.

(** The last label is at least the first position plus the number of labels
    less one. *)
Lemma last_label (rc : nat) (rs : list (list cell)) :
  forall pos,
    Indexed.valid_rent_labels rc pos rs <> [] ->
    exists l, In l (Indexed.valid_rent_labels rc pos rs)
              /\ pos + List.length (Indexed.valid_rent_labels rc pos rs) <= S l.
Proof.
  induction rs as [| r rs IH]; intros pos; simpl; [tauto|].
  destruct (has_valid_rent rc r).
  - intros _. destruct (Indexed.valid_rent_labels rc (S pos) rs) as [| l0 L] eqn:E.
    + exists pos. split; [now left | simpl; lia].
    + destruct (IH (S pos)) as (l & Hl & Hle); [now rewrite E|].
      rewrite E in Hl, Hle. exists l. split; [now right | simpl in *; lia].
  - intros H. destruct (IH (S pos) H) as (l & Hl & Hle).
    exists l. split; [assumption | lia].
Qed.

(** A row with an invalid rent above a row with a valid one leaves a label
    that is no position of the filtered frame. *)
Lemma invalid_row_above_misaligns (rc : nat) (rows1 rows2 : list (list cell))
  (bad good : list cell) :
  has_valid_rent rc bad = false ->
  In good rows2 -> has_valid_rent rc good = true ->
  forall pos,
    exists l,
      In l (Indexed.valid_rent_labels rc pos (rows1 ++ bad :: rows2))
      /\ pos + List.length
                 (Indexed.valid_rent_labels rc pos (rows1 ++ bad :: rows2))
         <= l.
Proof.
  intros Hbad Hin Hgood.
  induction rows1 as [| r rows1 IH]; intros pos; simpl.
  - rewrite Hbad.
    destruct (last_label rc rows2 (S pos)) as (l & Hl & Hle).
    + eapply valid_row_has_label; eauto.
    + exists l. split; [assumption | lia].
  - destruct (IH (S pos)) as (l & Hl & Hle).
    destruct (has_valid_rent rc r).
    + exists l. split; [now right | simpl; lia].
    + exists l. split; [assumption | lia].
Qed.

Lemma misaligned_labels (rc : nat) (rows1 rows2 : list (list cell))
  (bad good : list cell) :
  has_valid_rent rc bad = false ->
  In good rows2 -> has_valid_rent rc good = true ->
  Indexed.aligned (Indexed.valid_rent_labels rc 0 (rows1 ++ bad :: rows2))
  = false.
Proof.
  intros Hbad Hin Hgood.
  destruct (invalid_row_above_misaligns rc rows1 rows2 bad good Hbad Hin Hgood 0)
    as (l & Hl & Hle).
  apply not_true_is_false. intros H. unfold Indexed.aligned in H.
  rewrite forallb_forall in H. apply H in Hl. apply Nat.ltb_lt in Hl. lia.
Qed.

End RentRollLabels.

(** With a type and a status column, a row with an invalid rent above a row
    with a valid one makes the analysis raise. *)
Lemma invalid_row_above_raises (df : DataFrame) (rc tc sc : nat)
  (rows1 rows2 : list (list cell)) (bad good : list cell) :
  _find_column df ["rent"; "current rent"; "monthly rent"]%string = Some rc ->
  _find_column df ["type"; "unit type"; "bed"; "bedroom"]%string = Some tc ->
  _find_column df ["status"; "occupied"; "vacant"]%string = Some sc ->
  rows df = rows1 ++ bad :: rows2 ->
  has_valid_rent rc bad = false ->
  In good rows2 -> has_valid_rent rc good = true ->
  Indexed._analyze_rent_roll df = Raise IndexingError.
Proof.
  intros Hrc Htc Hsc Hrows Hbad Hin Hgood.
  unfold Indexed._analyze_rent_roll. rewrite Hrc, Htc, Hsc, Hrows.
  unfold Indexed._calculate_vacant_income.
  now rewrite (misaligned_labels rc rows1 rows2 bad good Hbad Hin Hgood).
Qed.

(** Whenever the analysis with labels returns, it returns what the analysis
    by position computes. *)
Lemma returned_occupied_type_units (df : list UnitRecord) (tc sc : nat)
  (unit_type : cell) (l : list UnitRecord) :
  Indexed.occupied_type_units df tc sc unit_type = Ok l ->
  l = occupied_type_units df tc sc unit_type.
Proof.
  unfold Indexed.occupied_type_units, occupied_type_units.
  destruct (_ || _)%bool; [|discriminate]. now intros [= <-].
Qed.

Lemma returned_add_vacant_unit (df : list UnitRecord) (tc sc : nat) (acc q : Q)
  (u : UnitRecord) :
  Indexed.add_vacant_unit df tc sc acc u = Ok q ->
  q = add_vacant_unit df tc sc acc u.
Proof.
  unfold Indexed.add_vacant_unit, add_vacant_unit.
  destruct (Indexed.occupied_type_units df tc sc (at_col tc (cells u)))
    as [l | e] eqn:E; [|discriminate].
  apply returned_occupied_type_units in E. subst l. cbn [bind].
  destruct (0 <? List.length _)%nat; now intros [= <-].
Qed.

Lemma returned_vacant_loop (df : list UnitRecord) (tc sc : nat)
  (l : list UnitRecord) :
  forall acc q,
    Indexed.vacant_loop df tc sc l acc = Ok q ->
    q = fold_left (add_vacant_unit df tc sc) l acc.
Proof.
  induction l as [| u l IH]; intros acc q; simpl.
  - now intros [= <-].
  - destruct (Indexed.add_vacant_unit df tc sc acc u) as [a | e] eqn:E;
      [|discriminate].
    apply returned_add_vacant_unit in E. subst a. cbn [bind]. apply IH.
Qed.

Lemma returned_vacant_income (index : list nat) (df : list UnitRecord)
  (tc sc : option nat) (q : Q) :
  Indexed._calculate_vacant_income index df tc sc = Ok q ->
  q = _calculate_vacant_income df tc sc.
Proof.
  unfold Indexed._calculate_vacant_income, _calculate_vacant_income.
  destruct tc as [tc |], sc as [sc |]; try now intros [= <-].
  destruct (Indexed.aligned index); [|discriminate].
  apply returned_vacant_loop.
Qed.

Lemma returned_analysis (df : DataFrame) (r : option RentAnalysis) :
  Indexed._analyze_rent_roll df = Ok r -> r = _analyze_rent_roll df.
Proof.
  unfold Indexed._analyze_rent_roll, _analyze_rent_roll.
  destruct (_find_column df ["rent"; "current rent"; "monthly rent"]%string)
    as [rc |]; [|now intros [= <-]].
  destruct (Indexed._calculate_vacant_income _ _ _ _) as [q | e] eqn:E;
    [|discriminate].
  apply returned_vacant_income in E. subst q. cbn [bind]. now intros [= <-].
Qed.

(** The loop over the vacant units raises nothing but [ValueError], and
    raises it when the units of the type of a vacant unit are neither all
    the units nor that unit alone. *)
Lemma add_vacant_unit_raises (df : list UnitRecord) (tc sc : nat) (acc : Q)
  (u : UnitRecord) (e : exn) :
  Indexed.add_vacant_unit df tc sc acc u = Raise e -> e = ValueError.
Proof.
  unfold Indexed.add_vacant_unit, Indexed.occupied_type_units.
  destruct (_ || _)%bool; cbn [bind].
  - destruct (0 <? List.length _)%nat; discriminate.
  - now intros [= <-].
Qed.

Lemma vacant_loop_raises (df : list UnitRecord) (tc sc : nat)
  (l : list UnitRecord) (u : UnitRecord) :
  In u l ->
  (forall acc, Indexed.add_vacant_unit df tc sc acc u = Raise ValueError) ->
  forall acc, Indexed.vacant_loop df tc sc l acc = Raise ValueError.
Proof.
  intros Hin Hu. induction l as [| v l IH]; intros acc; simpl; [contradiction|].
  destruct (Indexed.add_vacant_unit df tc sc acc v) as [a | e] eqn:E.
  - cbn [bind]. destruct Hin as [-> | Hin].
    + rewrite Hu in E. discriminate.
    + now apply IH.
  - cbn [bind]. now rewrite (add_vacant_unit_raises _ _ _ _ _ _ E).
Qed.

Lemma filter_shorter {A : Type} (p : A -> bool) (l : list A) :
  (List.length (filter p l) <= List.length l)%nat.
Proof.
  induction l as [| a l IH]; simpl; [lia|].
  destruct (p a); simpl; lia.
Qed.

Lemma filter_length_lt {A : Type} (p : A -> bool) (l : list A) (x : A) :
  In x l -> p x = false -> (List.length (filter p l) < List.length l)%nat.
Proof.
  induction l as [| a l IH]; simpl; [contradiction|].
  intros [-> | H] Hx.
  - rewrite Hx. pose proof (filter_shorter p l). lia.
  - pose proof (IH H Hx). destruct (p a); simpl; lia.
Qed.

Lemma filter_two {A : Type} (p : A -> bool) (l : list A) (x y : A) :
  In x l -> In y l -> x <> y -> p x = true -> p y = true ->
  (2 <= List.length (filter p l))%nat.
Proof.
  intros Hx Hy Hne Px Py.
  assert (Fx : In x (filter p l)) by now apply filter_In.
  assert (Fy : In y (filter p l)) by now apply filter_In.
  destruct (filter p l) as [| a [| b m]]; simpl in *; try lia.
  destruct Fx as [<- | []], Fy as [<- | []]. now elim Hne.
Qed.

(** A vacant unit that has an occupied comparator, in a roll that also holds
    a unit of another type: the analysis raises [ValueError]. *)
Lemma comparator_in_mixed_roll_raises (index : list nat) (df : list UnitRecord)
  (tc sc : nat) (u v w : UnitRecord) :
  Indexed.aligned index = true ->
  In u df -> is_vacant sc u = true ->
  In v (occupied_comparators df tc sc u) ->
  In w df -> same_type tc (at_col tc (cells u)) w = false ->
  Indexed._calculate_vacant_income index df (Some tc) (Some sc)
  = Raise ValueError.
Proof.
  intros Hal Hu Hvac Hv Hw Hother.
  unfold Indexed._calculate_vacant_income. rewrite Hal.
  apply (vacant_loop_raises df tc sc _ u); [now apply filter_In|].
  intros acc. unfold Indexed.add_vacant_unit, Indexed.occupied_type_units.
  unfold occupied_comparators in Hv. apply filter_In in Hv as [Hvin Hv].
  apply andb_true_iff in Hv as [Hvt Hvo]. apply negb_true_iff in Hvo.
  assert (Hut : same_type tc (at_col tc (cells u)) u = true).
  { unfold same_type in *.
    destruct (at_col tc (cells u)); [apply String.eqb_refl | discriminate Hvt]. }
  assert (Hne : u <> v) by (intros ->; congruence).
  pose proof (filter_length_lt _ df w Hw Hother) as Hlt.
  pose proof (filter_two _ df u v Hu Hvin Hne Hut Hvt) as H2.
  replace (List.length (filter (same_type tc (at_col tc (cells u))) df)
           =? List.length df)%nat
    with false by (symmetry; apply Nat.eqb_neq; lia).
  replace (List.length (filter (same_type tc (at_col tc (cells u))) df) =? 1)%nat
    with false by (symmetry; apply Nat.eqb_neq; lia).
  reflexivity.
Qed.

(** Whenever the program returns a vacant-unit income, it is the sum of the
    imputed rents of the vacant units; and whenever it returns an analysis
    for a roll and for the roll without a row whose rent is invalid, the two
    analyses are the same. *)
Lemma returned_vacant_income_imputed (index : list nat) (df : list UnitRecord)
  (tc sc : nat) (q : Q) :
  Indexed._calculate_vacant_income index df (Some tc) (Some sc) = Ok q ->
  q == total_of (imputed_rent df tc sc) (filter (is_vacant sc) df).
Proof.
  intros H. apply returned_vacant_income in H. subst q.
  apply vacant_income_by_position.
Qed.

Lemma returned_analysis_ignores_invalid_rows (df : DataFrame) (rc : nat)
  (rows1 rows2 : list (list cell)) (row : list cell)
  (r r' : option RentAnalysis) :
  _find_column df ["rent"; "current rent"; "monthly rent"]%string = Some rc ->
  rows df = rows1 ++ row :: rows2 ->
  has_valid_rent rc row = false ->
  Indexed._analyze_rent_roll df = Ok r ->
  Indexed._analyze_rent_roll {| columns := columns df; rows := rows1 ++ rows2 |}
  = Ok r' ->
  r = r'.
Proof.
  intros Hrc Hrows Hbad H H'.
  apply returned_analysis in H, H'. subst r r'.
  exact (proj2 (proj2 (invalid_rent_rows_removed_by_position df rc Hrc))
           rows1 row rows2 Hrows Hbad).
Qed.

(** The income of the vacant units of the roll of two types, by the lemma
    on mixed rolls. *)
Example two_types_vacant_income_raises :
  Indexed._calculate_vacant_income [0; 1; 2]%nat units_two_types
    (Some 1%nat) (Some 3%nat)
  = Raise ValueError.
Proof.
  apply (comparator_in_mixed_roll_raises _ units_two_types 1 3 unit_102
           {| cells := [Some "101"; Some "1BR"; Some "1000"; Some "Occupied"]%string;
              clean_rent := 1000 |}
           {| cells := [Some "201"; Some "2BR"; Some "1500"; Some "Occupied"]%string;
              clean_rent := 1500 |}); try reflexivity.
  - right. left. reflexivity.
  - left. reflexivity.
  - right. right. left. reflexivity.
Qed.

(** C4.  On the roll of units 101 (1BR, let), 102 (1BR, vacant) and 201
    (2BR, let), the vacant unit 102 has an occupied comparator, unit 101,
    whose rent of 1,000 is the income the specification imputes to it; the
    analysis raises [ValueError] instead, because the mask over the three
    rows is combined with an array over the two one-bedroom rows.  Without
    the two-bedroom unit the analysis returns and imputes 1,000. *)
Theorem C4_comparator_in_mixed_roll_raises :
  Indexed._analyze_rent_roll rent_roll_two_types = Raise ValueError
  /\ In unit_102 units_two_types
  /\ is_vacant 3 unit_102 = true
  /\ occupied_comparators units_two_types 1 3 unit_102 <> []
  /\ imputed_rent units_two_types 1 3 unit_102 == 1000
  /\ exists a,
       Indexed._analyze_rent_roll rent_roll_vacant_listed = Ok (Some a)
       /\ vacant_unit_income a == 1000.
Proof.
  split; [|split; [|split; [|split; [|split]]]].
  - reflexivity.
  - right. left. reflexivity.
  - reflexivity.
  - discriminate.
  - reflexivity.
  - eexists. split; reflexivity.
Qed.

(** C9.  On the roll of units 101 (vacant, listed at a rent of 0) and 102
    (let at 1,000), the row of unit 101 has no valid rent; the analysis
    raises [IndexingError] instead of going on without it, because the row
    that is left keeps the label 1 while the vacant mask is labelled 0.  The
    roll without the row, and the roll with the row below unit 102, both
    return the analysis of one let unit. *)
Theorem C9_zero_rent_row_above_raises :
  Indexed._analyze_rent_roll rent_roll_vacant_zero_first = Raise IndexingError
  /\ has_valid_rent 2 [Some "101"; Some "1BR"; Some "0"; Some "Vacant"]%string
     = false
  /\ exists a,
       Indexed._analyze_rent_roll rent_roll_one_let_unit = Ok (Some a)
       /\ Indexed._analyze_rent_roll rent_roll_vacant_zero = Ok (Some a)
       /\ total_units a = 1%Z /\ occupied_units a = 1%Z /\ vacant_units a = 0%Z
       /\ gross_potential_income a == 1000.
Proof.
  split; [|split].
  - apply (invalid_row_above_raises rent_roll_vacant_zero_first 2 1 3 []
             [[Some "102"; Some "1BR"; Some "1000"; Some "Occupied"]]%string
             [Some "101"; Some "1BR"; Some "0"; Some "Vacant"]%string
             [Some "102"; Some "1BR"; Some "1000"; Some "Occupied"]%string);
      try reflexivity.
    left. reflexivity.
  - reflexivity.
  - eexists. split; [reflexivity|]. repeat split; reflexivity.
Qed.

(** ** Expense rules: repairs and payroll *)

Lemma Qle_bool_false_iff (a b : Q) : Qle_bool a b = false <-> b < a.
Proof.
  split.
  - intros H. destruct (Qlt_le_dec b a) as [L | L]; trivial.
    apply Qle_bool_iff in L. congruence.
  - intros H. destruct (Qle_bool a b) eqn:E; trivial.
    apply Qle_bool_iff in E. lra.
Qed.

Ltac reflect_order :=
  repeat match goal with
    | H : Qlt_bool _ _ = true |- _ => apply Qlt_bool_iff in H
    | H : Qlt_bool _ _ = false |- _ => apply Qlt_bool_false_iff in H
    | H : Qle_bool _ _ = true |- _ => apply Qle_bool_iff in H
    | H : Qle_bool _ _ = false |- _ => apply Qle_bool_false_iff in H
    end.

(** Under a hundred years the loop finds the minimum the table of the
    specification gives. *)
Lemma first_range_specified (age : Q) :
  age < 100 ->
  first_range rm_minimums age 500 = specified_minimum_per_unit age.
Proof.
  intros Hage. unfold first_range, rm_minimums, specified_minimum_per_unit.
  destruct (Qle_bool 0 age) eqn:L0; destruct (Qlt_bool age 10) eqn:U10;
    destruct (Qle_bool 10 age) eqn:L10; destruct (Qlt_bool age 20) eqn:U20;
    destruct (Qle_bool 20 age) eqn:L20; destruct (Qlt_bool age 30) eqn:U30;
    destruct (Qle_bool 30 age) eqn:L30; destruct (Qlt_bool age 40) eqn:U40;
    destruct (Qle_bool 40 age) eqn:L40; destruct (Qlt_bool age 50) eqn:U50;
    destruct (Qle_bool 50 age) eqn:L50; destruct (Qlt_bool age 100) eqn:U100;
    simpl; try reflexivity; reflect_order; exfalso; lra.
Qed.

(** From a hundred years on no range holds the age and the default stays. *)
Lemma first_range_default (age : Q) :
  100 <= age -> first_range rm_minimums age 500 = 500.
Proof.
  intros Hage. unfold first_range, rm_minimums.
  destruct (Qlt_bool age 10) eqn:U10; destruct (Qlt_bool age 20) eqn:U20;
    destruct (Qlt_bool age 30) eqn:U30; destruct (Qlt_bool age 40) eqn:U40;
    destruct (Qlt_bool age 50) eqn:U50; destruct (Qlt_bool age 100) eqn:U100;
    rewrite ?andb_false_r; simpl; try reflexivity; reflect_order; exfalso; lra.
Qed.

Lemma bounded_clamp (actual lo hi : Q) :
  lo <= hi -> bounded actual lo hi == clamp actual lo hi.
Proof.
  intros Hle. unfold bounded, clamp.
  destruct (Qlt_bool actual lo) eqn:E1.
  - reflect_order. rewrite Q.max_l; [reflexivity|].
    destruct (Q.min_spec actual hi) as [[? ->] | [? ->]]; lra.
  - destruct (Qlt_bool hi actual) eqn:E2; reflect_order.
    + rewrite (Q.min_r actual hi) by lra. rewrite Q.max_r by lra. reflexivity.
    + rewrite (Q.min_l actual hi) by lra. rewrite Q.max_r by lra. reflexivity.
Qed.

Lemma specified_minimum_le_cap (age : Q) : specified_minimum_per_unit age <= 1500.
Proof.
  unfold specified_minimum_per_unit.
  repeat match goal with |- context [Qlt_bool ?a ?b] => destruct (Qlt_bool a b) end;
    lra.
Qed.

(** The entries [_apply_expense_rules] writes for repairs and payroll. *)
Lemma expense_rules_repairs_payroll (info : PropertyInfo) (gpi : option Q)
  (items : dict Q) :
  let age := match property_age info with Some a => a | None => 25 end in
  let units := match unit_count info with Some n => n | None => 1 end in
  let adjusted := fst (_apply_expense_rules info gpi items) in
  dict_lookup adjusted "repairs_maintenance"
  = Some (bounded (dict_get items "repairs_maintenance" 0)
            (first_range rm_minimums age 500 * units) (1500 * units))
  /\ dict_lookup adjusted "payroll"
     = Some (bounded (dict_get items "payroll" 0)
               (first_range rm_minimums age 500 * units) (1500 * units)).
Proof.
  destruct gpi; split; reflexivity.
Qed.

(** For a property under a hundred years old with a non-negative unit count
    both entries are the clamp of the specification. *)
Lemma expense_rules_clamp (info : PropertyInfo) (gpi : option Q)
  (items : dict Q) (age units : Q) :
  property_age info = Some age -> unit_count info = Some units ->
  age < 100 -> 0 <= units ->
  exists rm payroll,
    dict_lookup (fst (_apply_expense_rules info gpi items)) "repairs_maintenance"
    = Some rm
    /\ rm == specified_adjusted age units (dict_get items "repairs_maintenance" 0)
    /\ dict_lookup (fst (_apply_expense_rules info gpi items)) "payroll"
       = Some payroll
    /\ payroll == specified_adjusted age units (dict_get items "payroll" 0).
Proof.
  intros Hage Hunits Hlt Hpos.
  destruct (expense_rules_repairs_payroll info gpi items) as [Hrm Hpay].
  rewrite Hage, Hunits in Hrm, Hpay.
  rewrite first_range_specified in Hrm, Hpay by trivial.
  assert (Hle : specified_minimum_per_unit age * units <= 1500 * units).
  { apply Qmult_le_compat_r; [apply specified_minimum_le_cap | trivial]. }
  do 2 eexists. split; [exact Hrm|]. split; [now apply bounded_clamp|].
  split; [exact Hpay | now apply bounded_clamp].
Qed.

(** The worked example of the specification: 25 years, 100 units. *)
Example repairs_25_years_100_units :
  let adjusted actual :=
    dict_lookup
      (fst (_apply_expense_rules property_25_years None
              [("repairs_maintenance"%string, actual)]))
      "repairs_maintenance" in
  adjusted 50000 = Some 70000
  /\ adjusted 200000 = Some 150000
  /\ adjusted 90000 = Some 90000.
Proof. vm_compute. auto. Qed.

(** C5, at the failing input.  For a hundred-unit property of a hundred
    years the code leaves repairs and payroll of 60,000 as they are, the
    per-unit minimum having fallen back to 500, where the specified clamp,
    with 1,000 a unit from fifty years on, gives 100,000. *)
Theorem C5_century_old_uses_default_minimum :
  let adjusted :=
    fst (_apply_expense_rules century_old_property None
           [("repairs_maintenance"%string, 60000); ("payroll"%string, 60000)]) in
  dict_lookup adjusted "repairs_maintenance" = Some 60000
  /\ dict_lookup adjusted "payroll" = Some 60000
  /\ first_range rm_minimums 100 500 = 500
  /\ specified_minimum_per_unit 100 = 1000
  /\ specified_adjusted 100 100 60000 == 100000.
Proof.
  vm_compute. repeat split; reflexivity.
Qed.

(** ** Underwriting summary: percent of EGI *)

Lemma expense_lines_shape (items : dict Q) (adj : dict string) (egi : Q)
  (line : UnderwritingLine) :
  In line (expense_lines items adj egi) ->
  exists li cat amt n, line = _create_summary_line li cat amt egi n.
Proof.
  induction items as [| [k v] items IH]; simpl; [contradiction|].
  destruct (Qlt_bool 0 v).
  - intros [<- | HIn]; [do 4 eexists; reflexivity | auto].
  - auto.
Qed.

(** Every line of the summary is built by [_create_summary_line] with the
    same EGI. *)
Lemma summary_lines_shape (self : UnderwritingOutputGenerator)
  (line : UnderwritingLine) :
  In line (generate_underwriting_summary self) ->
  exists li cat amt n,
    line = _create_summary_line li cat amt (summary_egi self) n.
Proof.
  unfold generate_underwriting_summary. intros HIn.
  apply in_app_or in HIn as [HIn | HIn].
  - simpl in HIn.
    destruct HIn as [<- | [<- | [<- | [<- | []]]]]; do 4 eexists; reflexivity.
  - apply in_app_or in HIn as [HIn | HIn].
    + now apply expense_lines_shape in HIn.
    + simpl in HIn.
      destruct HIn as [<- | [<- | []]]; do 4 eexists; reflexivity.
Qed.

(** C6, as amended.  On every line of the summary the percent-of-EGI field
    is the amount over the EGI times 100 when the reported EGI is positive,
    the amount times 100 when the reported EGI is 0 (it is replaced by 1),
    and 0 when the reported EGI is negative. *)
Theorem C6_percent_of_egi (self : UnderwritingOutputGenerator)
  (line : UnderwritingLine) :
  In line (generate_underwriting_summary self) ->
  (0 < reported_egi self ->
   percent_egi line == amount line / reported_egi self * 100)
  /\ (reported_egi self == 0 -> percent_egi line == amount line * 100)
  /\ (reported_egi self < 0 -> percent_egi line == 0).
Proof.
  intros HIn.
  apply summary_lines_shape in HIn as (li & cat & amt & n & ->).
  unfold _create_summary_line, summary_egi; simpl percent_egi; simpl amount.
  fold (reported_egi self).
  destruct (Qeq_bool (reported_egi self) 0) eqn:Ez.
  - apply Qeq_bool_iff in Ez.
    change (Qlt_bool 0 1) with true. cbv iota.
    repeat split; intros H; try lra.
    field.
  - apply Qeq_bool_false_iff in Ez.
    destruct (Qlt_bool 0 (reported_egi self)) eqn:Ep; reflect_order;
      repeat split; intros H; try lra; try reflexivity; contradiction.
Qed.

Lemma C6_witness :
  (0 < reported_egi generator_zero_egi ->
   percent_egi (gpi_line generator_zero_egi)
   == amount (gpi_line generator_zero_egi) / reported_egi generator_zero_egi * 100)
  /\ (reported_egi generator_zero_egi == 0 ->
      percent_egi (gpi_line generator_zero_egi)
      == amount (gpi_line generator_zero_egi) * 100)
  /\ (reported_egi generator_zero_egi < 0 ->
      percent_egi (gpi_line generator_zero_egi) == 0).
Proof.
  apply (C6_percent_of_egi generator_zero_egi (gpi_line generator_zero_egi)).
  simpl. left. reflexivity.
Defined.

(** C6, as stated, fails.  With a reported EGI of 0 the GPI line of 100
    shows 10,000 percent, not 0; with a reported EGI of one half it shows
    20,000 percent, not the 10,000 that flooring the EGI at 1 would give. *)
Lemma C6_counterexample :
  (In (gpi_line generator_zero_egi)
      (generate_underwriting_summary generator_zero_egi)
   /\ reported_egi generator_zero_egi <= 0
   /\ ~ percent_egi (gpi_line generator_zero_egi) == 0)
  /\ (In (gpi_line generator_half_egi)
         (generate_underwriting_summary generator_half_egi)
      /\ ~ percent_egi (gpi_line generator_half_egi)
           == percent_of_floored_egi (amount (gpi_line generator_half_egi))
                (reported_egi generator_half_egi)).
Proof.
  split; [split; [|split] | split].
  - simpl. left. reflexivity.
  - vm_compute. discriminate.
  - vm_compute. discriminate.
  - simpl. left. reflexivity.
  - vm_compute. discriminate.
Qed.

(** ** Table cleaner: sparse rows *)

Lemma dropna_thresh_In (thresh : nat) (df : DataFrame) (row : list cell) :
  In row (rows (dropna_thresh thresh df))
  <-> In row (rows df) /\ (thresh <= populated row)%nat.
Proof.
  unfold dropna_thresh. simpl. rewrite filter_In, Nat.leb_le. reflexivity.
Qed.

(** The threshold never exceeds 30% of a positive column count, rounded up
    to one cell: a row with at least 30% of the columns populated passes it
    as soon as it has a populated cell. *)
Lemma dense_rows_pass (n_columns : nat) (row : list cell) :
  (1 <= populated row)%nat ->
  under_30_percent n_columns row = false ->
  (threshold n_columns <= populated row)%nat.
Proof.
  unfold under_30_percent, threshold. intros Hone H.
  apply Nat.ltb_ge in H.
  apply Nat.max_lub; [exact Hone|].
  apply Nat.Div0.div_le_upper_bound. lia.
Qed.

(** C8, at the failing input.  In a table of five columns the row with one
    populated cell, 20% of the columns, is under 30% populated, and
    [_clean_dataframe] keeps it: the threshold is one cell. *)
Theorem C8_sparse_row_kept :
  under_30_percent 5 sparse_row = true
  /\ threshold 5 = 1%nat
  /\ rows (_clean_dataframe table_with_sparse_row)
     = rows table_with_sparse_row
  /\ In sparse_row (rows (_clean_dataframe table_with_sparse_row)).
Proof.
  vm_compute. repeat split; auto.
Qed.

(** * Further properties of the code *)

(** ** Loan sizing: property data *)

(** X1.  [set_property_data] raises [ValueError] when neither a non-zero
    property value nor a non-zero cap rate is given.  A non-zero property
    value wins over any cap rate: it is stored, and for a positive value the
    stored cap rate times the value gives back the NOI (for a negative one
    the cap rate is 0).  With a cap rate alone the value is the NOI over the
    cap rate when the cap rate is positive, and 0 when it is negative. *)
Theorem X1_set_property_data (self : LoanSizingEngine) (n : Q)
  (cap pv : option Q) :
  (truthy pv = false -> truthy cap = false ->
   set_property_data self n cap pv = Raise ValueError)
  /\ (forall v, pv = Some v -> ~ v == 0 ->
        exists e,
          set_property_data self n cap pv = Ok e
          /\ noi e = n /\ property_value e = v
          /\ treasury_term e = treasury_term self
          /\ (0 < v -> cap_rate e * v == n)
          /\ (v < 0 -> cap_rate e = 0))
  /\ (truthy pv = false -> forall c, cap = Some c -> ~ c == 0 ->
        exists e,
          set_property_data self n cap pv = Ok e
          /\ noi e = n /\ cap_rate e = c
          /\ treasury_term e = treasury_term self
          /\ (0 < c -> property_value e * c == n)
          /\ (c < 0 -> property_value e = 0)).
Proof.
  unfold set_property_data. split; [|split].
  - intros -> ->. reflexivity.
  - intros v -> Hv. simpl truthy.
    apply Qeq_bool_false_iff in Hv as Hb. rewrite Hb. simpl negb. cbv iota.
    eexists. split; [reflexivity|]. simpl. repeat split.
    + intros Hpos. apply Qlt_bool_iff in Hpos as ->. field. exact Hv.
    + intros Hneg.
      assert (E : Qlt_bool 0 v = false) by (apply Qlt_bool_false_iff; lra).
      now rewrite E.
  - intros -> c -> Hc. simpl truthy.
    apply Qeq_bool_false_iff in Hc as Hb. rewrite Hb. simpl negb. cbv iota.
    eexists. split; [reflexivity|]. simpl. repeat split.
    + intros Hpos. apply Qlt_bool_iff in Hpos as ->. field. exact Hc.
    + intros Hneg.
      assert (E : Qlt_bool 0 c = false) by (apply Qlt_bool_false_iff; lra).
      now rewrite E.
Qed.

Lemma X1_witness :
  exists e,
    set_property_data init 500000 (Some 0.06) None = Ok e
    /\ noi e = 500000 /\ cap_rate e = 0.06
    /\ treasury_term e = treasury_term init
    /\ (0 < 0.06 -> property_value e * 0.06 == 500000)
    /\ (0.06 < 0 -> property_value e = 0).
Proof.
  apply (proj2 (proj2 (X1_set_property_data init 500000 (Some 0.06) None))
           eq_refl 0.06 eq_refl).
  intros H. discriminate H.
Defined.

(** X2.  Setting a positive NOI with a positive cap rate on a fresh engine
    and choosing any treasury term leaves the engine in a state from which
    [calculate_loan_scenarios] returns a list; with a non-positive NOI, or a
    negative cap rate, the same sequence ends in [ValueError]. *)
Theorem X2_set_then_calculate (n c : Q) (term : TreasuryTerm) (sd : bool) :
  ~ c == 0 ->
  exists e,
    set_property_data init n (Some c) None = Ok e
    /\ (0 < n -> 0 < c ->
        exists l, calculate_loan_scenarios (set_treasury_term e term) sd = Ok l)
    /\ (n <= 0 \/ c < 0 ->
        calculate_loan_scenarios (set_treasury_term e term) sd
        = Raise ValueError).
Proof.
  intros Hc. unfold set_property_data. simpl truthy.
  apply Qeq_bool_false_iff in Hc as Hb. rewrite Hb. simpl negb. cbv iota.
  eexists. split; [reflexivity|]. split.
  - intros Hn Hpos.
    destruct (calculate_loan_scenarios_ok
                (set_treasury_term
                   {| noi := n;
                      property_value := if Qlt_bool 0 c then n / c else 0;
                      cap_rate := c;
                      treasury_term := treasury_term init |} term) sd)
      as (l0 & _ & Hl).
    + exact Hn.
    + simpl. apply Qlt_bool_iff in Hpos as Hposb. rewrite Hposb.
      apply Qlt_shift_div_l; lra.
    + eauto.
  - intros H. unfold calculate_loan_scenarios. simpl.
    destruct H as [H | H].
    + apply Qle_bool_iff in H. now rewrite H.
    + assert (E : Qlt_bool 0 c = false) by (apply Qlt_bool_false_iff; lra).
      rewrite E. change (Qle_bool 0 0) with true. now rewrite orb_true_r.
Qed.

Lemma X2_witness :
  exists e,
    set_property_data init 500000 (Some 0.06) None = Ok e
    /\ (0 < 500000 -> 0 < 0.06 ->
        exists l,
          calculate_loan_scenarios (set_treasury_term e FIFTEEN_YEAR) true
          = Ok l)
    /\ (500000 <= 0 \/ 0.06 < 0 ->
        calculate_loan_scenarios (set_treasury_term e FIFTEEN_YEAR) true
        = Raise ValueError).
Proof.
  apply (X2_set_then_calculate 500000 0.06 FIFTEEN_YEAR true).
  intros H. discriminate H.
Defined.

(** ** Loan sizing: which scenarios are returned *)

(** X3.  With positive NOI and value, a program/tier combination has a
    scenario in the returned list exactly when the minimum of its three
    ceilings reaches the program minimum. *)
Theorem X3_emitted_iff_qualifying (self : LoanSizingEngine) (sd : bool) :
  0 < noi self -> 0 < property_value self ->
  exists l,
    calculate_loan_scenarios self sd = Ok l
    /\ forall lt tier,
         applicable lt tier ->
         ((exists s, In s l
                     /\ LoanScenario.loan_type s = lt
                     /\ LoanScenario.tier_name s
                        = option_map TierPricing.tier_name tier)
          <-> program_minimum lt <= min_of_ceilings self lt tier).
Proof.
  intros Hnoi Hpv.
  destruct (calculate_loan_scenarios_ok self sd Hnoi Hpv) as (l0 & _ & Hl).
  exists (sort_desc l0). split; [exact Hl|].
  intros lt tier Happ. split.
  - intros (s & HIn & Hlt & Hname).
    destruct (emitted_amount _ _ _ _ Hl HIn)
      as (tier' & Happ' & Hname' & Hla & Hmin & _).
    subst lt.
    assert (tier' = tier) as ->.
    { apply (applicable_tier_name_inj (LoanScenario.loan_type s)); trivial.
      congruence. }
    rewrite Hla, (computed_is_min_of_ceilings _ _ _ Happ) in Hmin. exact Hmin.
  - intros Hge.
    rewrite <- (computed_is_min_of_ceilings _ _ _ Happ) in Hge.
    destruct (qualifying_is_emitted self sd lt tier _ Hpv Happ Hge Hl)
      as (s & ? & ? & ? & _).
    eauto.
Qed.

Lemma X3_witness :
  exists l,
    calculate_loan_scenarios engine_10M_100M false = Ok l
    /\ forall lt tier,
         applicable lt tier ->
         ((exists s, In s l
                     /\ LoanScenario.loan_type s = lt
                     /\ LoanScenario.tier_name s
                        = option_map TierPricing.tier_name tier)
          <-> program_minimum lt <= min_of_ceilings engine_10M_100M lt tier).
Proof.
  apply (X3_emitted_iff_qualifying engine_10M_100M false); reflexivity.
Defined.

(** The pricing fields a returned scenario records. *)
Lemma single_scenario_pricing (self : LoanSizingEngine) (lt : LoanType)
  (c : LoanConstraints.t) (tier : option TierPricing.t) (sd : bool)
  (s : LoanScenario.t) :
  _calculate_single_scenario self lt c tier sd = Ok (Some s) ->
  LoanScenario.constraint_binding s
  = py_argmin "LTV" (Fin (ltv_max_loan self c tier))
      [("DSCR"%string, dscr_max_loan self c tier);
       ("Debt Yield"%string, debt_yield_max_loan self c)]
  /\ LoanScenario.treasury_rate s = get_treasury_rate self
  /\ LoanScenario.spread s
     = _calculate_spread lt c tier (LoanScenario.loan_amount s) sd
  /\ LoanScenario.interest_rate s
     = LoanScenario.treasury_rate s + LoanScenario.spread s / 100
  /\ LoanScenario.step_down_prepay s = sd
  /\ LoanScenario.amortization_years s = LoanConstraints.amortization_years c
  /\ payment_and_dscr self c (LoanScenario.loan_amount s)
       (LoanScenario.interest_rate s)
     = Ok (LoanScenario.payment s, LoanScenario.dscr s).
Proof.
  unfold _calculate_single_scenario.
  set (la := py_min _ _).
  destruct (match LoanConstraints.min_loan_amount c with
            | Some m => negb (Qeq_bool m 0) && Qlt_bool la m
            | None => false
            end); [discriminate|].
  intros H.
  apply bind_inv in H as (ltv & Hltv & H).
  apply bind_inv in H as (dy & Hdy & H).
  apply bind_inv in H as (pd & Hpd & H).
  inversion H; subst s; clear H; simpl.
  repeat split; trivial.
  rewrite Hpd. now destruct pd.
Qed.

(** The same for a scenario of the returned list. *)
Lemma emitted_pricing (self : LoanSizingEngine) (sd : bool)
  (l : list LoanScenario.t) (s : LoanScenario.t) :
  calculate_loan_scenarios self sd = Ok l -> In s l ->
  exists tier,
    applicable (LoanScenario.loan_type s) tier
    /\ LoanScenario.tier_name s = option_map TierPricing.tier_name tier
    /\ _calculate_single_scenario self (LoanScenario.loan_type s)
         (_define_loan_types (LoanScenario.loan_type s)) tier sd
       = Ok (Some s).
Proof.
  intros H HIn.
  destruct (emitted_origin _ _ _ _ H HIn) as (lt & tier & Happ & Hs).
  pose proof (single_scenario_Some _ _ _ _ _ _ Hs) as (Hlt & Hname & _).
  subst lt. eauto.
Qed.

(** ** Loan sizing: the binding constraint *)

(** X4.  With positive NOI and value, every returned scenario names as
    binding a ceiling that equals its loan amount, and ties go to the first
    of LTV, DSCR, Debt Yield: "LTV" when the LTV ceiling is at most the two
    others, "DSCR" when the DSCR ceiling is under the LTV ceiling and at most
    the debt-yield ceiling, "Debt Yield" when that ceiling is under both. *)
Theorem X4_binding_constraint (self : LoanSizingEngine) (sd : bool) :
  0 < noi self -> 0 < property_value self ->
  exists l,
    calculate_loan_scenarios self sd = Ok l
    /\ forall s, In s l ->
         exists tier,
           applicable (LoanScenario.loan_type s) tier
           /\ LoanScenario.tier_name s = option_map TierPricing.tier_name tier
           /\ let lt := LoanScenario.loan_type s in
              let ltv_c := LTV_ceiling self lt tier in
              let dscr_c := DSCR_ceiling self lt tier in
              let under_dy x :=
                match debt_yield_ceiling self lt with
                | Fin y => x <= y
                | PosInf => True
                end in
              (LoanScenario.constraint_binding s = "LTV"%string
               /\ LoanScenario.loan_amount s = ltv_c
               /\ ltv_c <= dscr_c /\ under_dy ltv_c)
              \/ (LoanScenario.constraint_binding s = "DSCR"%string
                  /\ LoanScenario.loan_amount s = dscr_c
                  /\ dscr_c < ltv_c /\ under_dy dscr_c)
              \/ (LoanScenario.constraint_binding s = "Debt Yield"%string
                  /\ exists y, debt_yield_ceiling self lt = Fin y
                               /\ LoanScenario.loan_amount s = y
                               /\ y < ltv_c /\ y < dscr_c).
Proof.
  intros Hnoi Hpv.
  destruct (calculate_loan_scenarios_ok self sd Hnoi Hpv) as (l0 & _ & Hl).
  exists (sort_desc l0). split; [exact Hl|].
  intros s HIn.
  destruct (emitted_pricing _ _ _ _ Hl HIn) as (tier & Happ & Hname & Hs).
  exists tier. split; [exact Happ|]. split; [exact Hname|].
  pose proof (single_scenario_Some _ _ _ _ _ _ Hs) as (_ & _ & Hla & _).
  pose proof (single_scenario_pricing _ _ _ _ _ _ Hs) as (Hb & _).
  rewrite Hla, Hb.
  rewrite dscr_max_loan_Fin by now apply applicable_min_dscr_pos.
  rewrite debt_yield_max_loan_spec.
  change (ltv_max_loan self (_define_loan_types (LoanScenario.loan_type s)) tier)
    with (LTV_ceiling self (LoanScenario.loan_type s) tier).
  cbv zeta.
  set (b := LTV_ceiling self (LoanScenario.loan_type s) tier).
  set (d := DSCR_ceiling self (LoanScenario.loan_type s) tier).
  destruct (debt_yield_ceiling self (LoanScenario.loan_type s)) as [y |];
    simpl py_min; simpl py_argmin; unfold xlt_bool.
  - destruct (Qlt_bool d b) eqn:E1.
    + destruct (Qlt_bool y d) eqn:E2; reflect_order.
      * right; right. repeat split. exists y. repeat split; trivial. lra.
      * right; left. repeat split; trivial.
    + destruct (Qlt_bool y b) eqn:E2; reflect_order.
      * right; right. repeat split. exists y. repeat split; trivial. lra.
      * left. repeat split; trivial.
  - destruct (Qlt_bool d b) eqn:E1; reflect_order.
    + right; left. repeat split; trivial.
    + left. repeat split; trivial.
Qed.

Lemma X4_witness :
  exists l,
    calculate_loan_scenarios engine_10M_100M false = Ok l
    /\ forall s, In s l ->
         exists tier,
           applicable (LoanScenario.loan_type s) tier
           /\ LoanScenario.tier_name s = option_map TierPricing.tier_name tier
           /\ let lt := LoanScenario.loan_type s in
              let ltv_c := LTV_ceiling engine_10M_100M lt tier in
              let dscr_c := DSCR_ceiling engine_10M_100M lt tier in
              let under_dy x :=
                match debt_yield_ceiling engine_10M_100M lt with
                | Fin y => x <= y
                | PosInf => True
                end in
              (LoanScenario.constraint_binding s = "LTV"%string
               /\ LoanScenario.loan_amount s = ltv_c
               /\ ltv_c <= dscr_c /\ under_dy ltv_c)
              \/ (LoanScenario.constraint_binding s = "DSCR"%string
                  /\ LoanScenario.loan_amount s = dscr_c
                  /\ dscr_c < ltv_c /\ under_dy dscr_c)
              \/ (LoanScenario.constraint_binding s = "Debt Yield"%string
                  /\ exists y, debt_yield_ceiling engine_10M_100M lt = Fin y
                               /\ LoanScenario.loan_amount s = y
                               /\ y < ltv_c /\ y < dscr_c).
Proof.
  apply (X4_binding_constraint engine_10M_100M false); reflexivity.
Defined.

(** ** Loan sizing: size of the list *)

Lemma tier_scenarios_keys (self : LoanSizingEngine) (lt : LoanType)
  (c : LoanConstraints.t) (sd : bool) (tiers : list TierPricing.t) :
  forall l,
    tier_scenarios self lt c tiers sd = Ok l ->
    NoDup (map TierPricing.tier_name tiers) ->
    NoDup (map scenario_key l) /\ (List.length l <= List.length tiers)%nat.
Proof.
  induction tiers as [| t tiers IH]; simpl; intros l H Hnd.
  - inversion H; subst. simpl. split; [constructor | lia].
  - apply bind_inv in H as (r & Hr & H).
    apply bind_inv in H as (l' & Hl' & H).
    inversion H; subst l; clear H.
    inversion Hnd as [| ? ? Hnot Hnd']; subst.
    destruct (IH _ Hl' Hnd') as [IHnd IHlen].
    destruct r as [s |]; [|split; [trivial | lia]].
    simpl. split; [|lia].
    constructor; [|exact IHnd].
    intros HIn. apply in_map_iff in HIn as (s' & Hkey & HIn').
    destruct (tier_scenarios_In _ _ _ _ _ _ _ Hl' HIn') as (t' & Ht' & Hs').
    apply single_scenario_Some in Hr as (_ & Hn & _).
    apply single_scenario_Some in Hs' as (_ & Hn' & _).
    unfold scenario_key in Hkey. injection Hkey as Hty Hname.
    rewrite Hn, Hn' in Hname. simpl in Hname. injection Hname as E.
    apply Hnot. rewrite <- E. now apply in_map.
Qed.

Lemma loan_type_scenarios_keys (self : LoanSizingEngine) (lt : LoanType)
  (sd : bool) (l : list LoanScenario.t) :
  _calculate_loan_type_scenarios self lt sd = Ok l ->
  NoDup (map scenario_key l)
  /\ (List.length l <= match lt with FANNIE_FREDDIE => 3 | _ => 1 end)%nat.
Proof.
  unfold _calculate_loan_type_scenarios.
  destruct (match LoanConstraints.min_loan_amount (_define_loan_types lt) with
            | Some m => _
            | None => false
            end).
  { intros H; inversion H; subst. simpl.
    split; [constructor | destruct lt; lia]. }
  destruct lt.
  - change (LoanType_eqb FANNIE_FREDDIE FANNIE_FREDDIE
            && LoanConstraints.has_tier_pricing (_define_loan_types FANNIE_FREDDIE))
      with true. cbv iota.
    intros H. apply tier_scenarios_keys in H; [exact H|].
    simpl. repeat constructor; simpl; intuition discriminate.
  - change (LoanType_eqb CMBS FANNIE_FREDDIE
            && LoanConstraints.has_tier_pricing (_define_loan_types CMBS))
      with false. cbv iota.
    intros H. apply bind_inv in H as (r & _ & H).
    inversion H; subst l. destruct r; simpl; split;
      repeat constructor; auto.
  - change (LoanType_eqb DEBT_FUND FANNIE_FREDDIE
            && LoanConstraints.has_tier_pricing (_define_loan_types DEBT_FUND))
      with false. cbv iota.
    intros H. apply bind_inv in H as (r & _ & H).
    inversion H; subst l. destruct r; simpl; split;
      repeat constructor; auto.
Qed.

Lemma loan_type_scenarios_type (self : LoanSizingEngine) (lt : LoanType)
  (sd : bool) (l : list LoanScenario.t) (s : LoanScenario.t) :
  _calculate_loan_type_scenarios self lt sd = Ok l -> In s l ->
  LoanScenario.loan_type s = lt.
Proof.
  intros H HIn.
  destruct (loan_type_scenarios_In _ _ _ _ _ H HIn) as (tier & _ & Hs).
  now apply single_scenario_Some in Hs as (Hlt & _).
Qed.

Lemma NoDup_app_disjoint {A : Type} (l1 l2 : list A) :
  NoDup l1 -> NoDup l2 -> (forall a, In a l1 -> ~ In a l2) -> NoDup (l1 ++ l2).
Proof.
  induction l1 as [| a l1 IH]; simpl; intros H1 H2 Hd; [exact H2|].
  inversion H1 as [| ? ? Hnot H1']; subst.
  constructor.
  - intros HIn. apply in_app_or in HIn as [HIn | HIn]; [auto|].
    apply (Hd a); auto.
  - apply IH; auto.
Qed.

Lemma extend_all_keys (self : LoanSizingEngine) (sd : bool)
  (types : list LoanType) :
  forall l,
    extend_all self types sd = Ok l -> NoDup types ->
    NoDup (map scenario_key l)
    /\ (forall s, In s l -> In (LoanScenario.loan_type s) types)
    /\ (List.length l
        <= list_sum (map (fun lt => match lt with
                                    | FANNIE_FREDDIE => 3
                                    | _ => 1
                                    end) types))%nat.
Proof.
  induction types as [| lt types IH]; simpl; intros l H Hnd.
  - inversion H; subst. simpl. split; [constructor|]. split; [tauto | lia].
  - apply bind_inv in H as (l1 & Hl1 & H).
    apply bind_inv in H as (l2 & Hl2 & H).
    inversion H; subst l; clear H.
    inversion Hnd as [| ? ? Hnot Hnd']; subst.
    destruct (IH _ Hl2 Hnd') as (IHnd & IHty & IHlen).
    destruct (loan_type_scenarios_keys _ _ _ _ Hl1) as [Hnd1 Hlen1].
    split; [|split].
    + rewrite map_app. apply NoDup_app_disjoint; trivial.
      intros k Hk1 Hk2.
      apply in_map_iff in Hk1 as (s1 & <- & H1).
      apply in_map_iff in Hk2 as (s2 & Hkey & H2).
      apply (loan_type_scenarios_type _ _ _ _ _ Hl1) in H1.
      apply IHty in H2. unfold scenario_key in Hkey.
      injection Hkey as Hty _. rewrite Hty, H1 in H2. contradiction.
    + intros s HIn. apply in_app_or in HIn as [HIn | HIn].
      * left. symmetry.
        now apply (loan_type_scenarios_type _ _ _ _ _ Hl1).
      * right. auto.
    + rewrite length_app. lia.
Qed.

Lemma insert_desc_Permutation (s : LoanScenario.t) (l : list LoanScenario.t) :
  Permutation (insert_desc s l) (s :: l).
Proof.
  induction l as [| y l IH]; simpl; [reflexivity|].
  destruct (Qlt_bool _ _); [|reflexivity].
  rewrite IH. apply perm_swap.
Qed.

Lemma sort_desc_Permutation (l : list LoanScenario.t) :
  Permutation (sort_desc l) l.
Proof.
  induction l as [| x l IH]; simpl; [reflexivity|].
  rewrite insert_desc_Permutation. now constructor.
Qed.

(** X5.  With positive NOI and value the returned list holds at most five
    scenarios and no two of them share program and tier; sorting neither
    drops nor repeats a scenario of the per-program lists. *)
Theorem X5_at_most_one_scenario_per_tier (self : LoanSizingEngine) (sd : bool) :
  0 < noi self -> 0 < property_value self ->
  exists l0 l,
    extend_all self all_loan_types sd = Ok l0
    /\ calculate_loan_scenarios self sd = Ok l
    /\ Permutation l l0
    /\ NoDup (map scenario_key l)
    /\ (List.length l <= 5)%nat.
Proof.
  intros Hnoi Hpv.
  destruct (calculate_loan_scenarios_ok self sd Hnoi Hpv) as (l0 & Hl0 & Hl).
  exists l0, (sort_desc l0). split; [exact Hl0|]. split; [exact Hl|].
  pose proof (sort_desc_Permutation l0) as HP.
  destruct (extend_all_keys self sd all_loan_types l0 Hl0) as (Hnd & _ & Hlen).
  { repeat constructor; simpl; intuition discriminate. }
  split; [exact HP|]. split.
  - eapply Permutation_NoDup; [|exact Hnd].
    apply Permutation_map. now symmetry.
  - rewrite (Permutation_length HP). exact Hlen.
Qed.

Lemma X5_witness :
  exists l0 l,
    extend_all engine_10M_100M all_loan_types false = Ok l0
    /\ calculate_loan_scenarios engine_10M_100M false = Ok l
    /\ Permutation l l0
    /\ NoDup (map scenario_key l)
    /\ (List.length l <= 5)%nat.
Proof.
  apply (X5_at_most_one_scenario_per_tier engine_10M_100M false); reflexivity.
Defined.

(** ** Loan sizing: pricing *)

Lemma configured_spread (lt : LoanType) (tier : option TierPricing.t)
  (la : Q) (sd : bool) :
  applicable lt tier ->
  _calculate_spread lt (_define_loan_types lt) tier la sd
  == match lt with
     | FANNIE_FREDDIE =>
         fannie_freddie_base_spread la + tier_adjustment tier
         + (if sd then 50 else 0)
     | CMBS => 300
     | DEBT_FUND => 150
     end.
Proof.
  intros H. apply applicable_cases in H.
  destruct H as [[-> [-> | [-> | ->]]] | [[-> ->] | [-> ->]]];
    unfold _calculate_spread, fannie_freddie_base_spread, tier_adjustment;
    simpl; destruct sd; simpl; try destruct (Qle_bool 6000000 la); lra.
Qed.

Lemma configured_spread_le (lt : LoanType) (tier : option TierPricing.t)
  (la : Q) (sd : bool) :
  applicable lt tier ->
  _calculate_spread lt (_define_loan_types lt) tier la sd <= 300.
Proof.
  intros H. apply applicable_cases in H.
  destruct H as [[-> [-> | [-> | ->]]] | [[-> ->] | [-> ->]]];
    unfold _calculate_spread; simpl;
    destruct sd; simpl; try destruct (Qle_bool 6000000 la); lra.
Qed.

Lemma treasury_rate_le (self : LoanSizingEngine) : get_treasury_rate self <= 4.85.
Proof.
  unfold get_treasury_rate, treasury_rates.
  destruct (treasury_term self); lraq.
Qed.

(** X6.  With positive NOI and value, every returned scenario is priced at
    the treasury rate of the configured term plus its spread over 100.  The
    spread is 300 for CMBS and 150 for a debt fund whatever the step-down
    flag; for Fannie/Freddie it is 150 from a loan of 6,000,000 and 200
    under it, plus the tier adjustment, plus 50 with the step-down option.
    The rate lies between 5.25 and 7.85 percent. *)
Theorem X6_interest_rate (self : LoanSizingEngine) (sd : bool) :
  0 < noi self -> 0 < property_value self ->
  exists l,
    calculate_loan_scenarios self sd = Ok l
    /\ forall s, In s l ->
         exists tier,
           applicable (LoanScenario.loan_type s) tier
           /\ LoanScenario.tier_name s = option_map TierPricing.tier_name tier
           /\ LoanScenario.step_down_prepay s = sd
           /\ LoanScenario.treasury_rate s = get_treasury_rate self
           /\ LoanScenario.interest_rate s
              = LoanScenario.treasury_rate s + LoanScenario.spread s / 100
           /\ LoanScenario.spread s
              == match LoanScenario.loan_type s with
                 | FANNIE_FREDDIE =>
                     fannie_freddie_base_spread (LoanScenario.loan_amount s)
                     + tier_adjustment tier + (if sd then 50 else 0)
                 | CMBS => 300
                 | DEBT_FUND => 150
                 end
           /\ 5.25 <= LoanScenario.interest_rate s <= 7.85.
Proof.
  intros Hnoi Hpv.
  destruct (calculate_loan_scenarios_ok self sd Hnoi Hpv) as (l0 & _ & Hl).
  exists (sort_desc l0). split; [exact Hl|].
  intros s HIn.
  destruct (emitted_pricing _ _ _ _ Hl HIn) as (tier & Happ & Hname & Hs).
  exists tier.
  pose proof (single_scenario_pricing _ _ _ _ _ _ Hs)
    as (_ & Htr & Hsp & Hir & Hsd & _).
  repeat split; trivial.
  - rewrite Hsp. now apply configured_spread.
  - rewrite Hir, Htr, Hsp.
    pose proof (treasury_rate_pos self).
    pose proof (configured_spread_pos (LoanScenario.loan_type s) tier
                  (LoanScenario.loan_amount s) sd Happ).
    unfold get_treasury_rate, treasury_rates in *.
    destruct (treasury_term self); lraq.
  - rewrite Hir, Htr, Hsp.
    pose proof (treasury_rate_le self).
    pose proof (configured_spread_le (LoanScenario.loan_type s) tier
                  (LoanScenario.loan_amount s) sd Happ).
    lraq.
Qed.

Lemma X6_witness :
  exists l,
    calculate_loan_scenarios engine_10M_100M true = Ok l
    /\ forall s, In s l ->
         exists tier,
           applicable (LoanScenario.loan_type s) tier
           /\ LoanScenario.tier_name s = option_map TierPricing.tier_name tier
           /\ LoanScenario.step_down_prepay s = true
           /\ LoanScenario.treasury_rate s = get_treasury_rate engine_10M_100M
           /\ LoanScenario.interest_rate s
              = LoanScenario.treasury_rate s + LoanScenario.spread s / 100
           /\ LoanScenario.spread s
              == match LoanScenario.loan_type s with
                 | FANNIE_FREDDIE =>
                     fannie_freddie_base_spread (LoanScenario.loan_amount s)
                     + tier_adjustment tier + (if true then 50 else 0)
                 | CMBS => 300
                 | DEBT_FUND => 150
                 end
           /\ 5.25 <= LoanScenario.interest_rate s <= 7.85.
Proof.
  apply (X6_interest_rate engine_10M_100M true); reflexivity.
Defined.

(** ** Loan sizing: payment and coverage *)

(** Bernoulli's inequality for the growth factor. *)
Lemma growth_factor_ge (r : Q) (k : nat) :
  0 <= r -> 1 + inject_Z (Z.of_nat k) * r <= (1 + r) ^ Z.of_nat k.
Proof.
  intros Hr. induction k as [| k IH].
  - simpl. change (inject_Z 0) with 0. lra.
  - rewrite Nat2Z.inj_succ. unfold Z.succ.
    rewrite Qpower_plus by lra. rewrite inject_Z_plus.
    change ((1 + r) ^ 1) with (1 + r).
    set (p := (1 + r) ^ Z.of_nat k) in *.
    set (n := inject_Z (Z.of_nat k)) in *.
    assert (Hn : 0 <= n).
    { unfold n. change 0 with (inject_Z 0). rewrite <- Zle_Qle. lia. }
    assert (H1 : (1 + n * r) * (1 + r) <= p * (1 + r)).
    { apply Qmult_le_compat_r; lra. }
    assert (H2 : 0 <= n * r * r).
    { apply Qmult_le_0_compat; [apply Qmult_le_0_compat|]; trivial. }
    change (inject_Z 1) with 1.
    assert (E : (1 + n * r) * (1 + r) == 1 + (n + 1) * r + n * r * r) by ring.
    lra.
Qed.

(** The payment and coverage of an interest-only program. *)
Lemma interest_only_payment (self : LoanSizingEngine) (c : LoanConstraints.t)
  (la rate payment : Q) (dscr : xfloat) :
  LoanConstraints.interest_only c = true ->
  0 < la -> 0 < rate ->
  payment_and_dscr self c la rate = Ok (payment, dscr) ->
  payment = la * (rate / 100) / 12
  /\ 0 < payment
  /\ dscr = Fin (noi self / 12 / payment).
Proof.
  intros Hio Hla Hrate. unfold payment_and_dscr. rewrite Hio.
  set (p := la * (rate / 100) / 12).
  assert (Hp : 0 < p).
  { unfold p. apply Qlt_shift_div_l; [lra|].
    rewrite Qmult_0_l. apply Qmult_lt_0_compat; [trivial|].
    apply Qlt_shift_div_l; lra. }
  apply Qlt_bool_iff in Hp as Hpb. rewrite Hpb.
  rewrite pydiv_ok by lra. simpl.
  intros H; inversion H; subst. auto.
Qed.

(** The payment and coverage of an amortizing program. *)
Lemma amortizing_payment (self : LoanSizingEngine) (c : LoanConstraints.t)
  (years : Z) (la rate payment : Q) (dscr : xfloat) :
  LoanConstraints.interest_only c = false ->
  LoanConstraints.amortization_years c = Some years -> (0 < years)%Z ->
  0 < la -> 0 < rate ->
  payment_and_dscr self c la rate = Ok (payment, dscr) ->
  let r := rate / 100 / 12 in
  let p := (1 + r) ^ (years * 12) in
  1 < p
  /\ payment = la * (r * p) / (p - 1)
  /\ 0 < payment
  /\ dscr = Fin (noi self / 12 / payment).
Proof.
  intros Hio Hy Hpos Hla Hrate. unfold payment_and_dscr. rewrite Hio, Hy.
  cbv zeta.
  set (r := rate / 100 / 12).
  assert (Hr : 0 < r).
  { unfold r. apply Qlt_shift_div_l; [lra|].
    apply Qlt_shift_div_l; lra. }
  apply Qlt_bool_iff in Hr as Hrb. rewrite Hrb.
  set (p := (1 + r) ^ (years * 12)).
  assert (Hpow : 1 < p).
  { unfold p. apply Qpower_1_lt; [lra | lia]. }
  rewrite pydiv_ok by lra. simpl bind.
  set (pay := la * (r * p) / (p - 1)).
  assert (Hpay : 0 < pay).
  { unfold pay. apply Qlt_shift_div_l; [lra|].
    rewrite Qmult_0_l. apply Qmult_lt_0_compat; [trivial|].
    apply Qmult_lt_0_compat; lra. }
  apply Qlt_bool_iff in Hpay as Hpb. rewrite Hpb.
  rewrite pydiv_ok by lra. simpl.
  intros H; inversion H; subst. auto.
Qed.

Lemma configured_rate_bounds (self : LoanSizingEngine) (lt : LoanType)
  (tier : option TierPricing.t) (la : Q) (sd : bool) :
  applicable lt tier ->
  5.25 <= get_treasury_rate self
          + _calculate_spread lt (_define_loan_types lt) tier la sd / 100
  <= 7.85.
Proof.
  intros Happ.
  pose proof (configured_spread_pos lt tier la sd Happ).
  pose proof (configured_spread_le lt tier la sd Happ).
  unfold get_treasury_rate, treasury_rates.
  destruct (treasury_term self); split; lraq.
Qed.

(** An amortizing payment repays principal: twelve payments stay under the
    loan amount while the monthly rate is under 8 percent and the term is
    at least [k] months with [k >= 300]. *)
Lemma annuity_bounds (la r p : Q) (k : nat) :
  0 < la -> 0 < r -> r <= 8 # 100 -> (300 <= k)%nat ->
  1 + inject_Z (Z.of_nat k) * r <= p ->
  la * r < la * (r * p) / (p - 1)
  /\ la * (r * p) / (p - 1) * 12 <= la.
Proof.
  intros Hla Hr Hr8 Hk Hp.
  assert (Hn : 300 <= inject_Z (Z.of_nat k)).
  { change 300 with (inject_Z 300). rewrite <- Zle_Qle. lia. }
  set (n := inject_Z (Z.of_nat k)) in *.
  assert (Hnr : 300 * r <= n * r) by (apply Qmult_le_compat_r; lra).
  assert (Hp1 : 0 < p - 1) by lra.
  split.
  - apply Qlt_shift_div_l; [exact Hp1|].
    assert (E : la * (r * p) - la * r * (p - 1) == la * r) by ring.
    assert (0 < la * r) by (apply Qmult_lt_0_compat; trivial).
    lra.
  - assert (K : la * (r * p) / (p - 1) <= la * (1 # 12)).
    { apply Qle_shift_div_r; [exact Hp1|].
      assert (H1 : 0 <= (p - (1 + 300 * r)) * (1 - 12 * r)).
      { apply Qmult_le_0_compat; lra. }
      assert (H2 : 0 <= r * (288 - 3600 * r)).
      { apply Qmult_le_0_compat; lra. }
      assert (H3 : 0 <= la * ((p - (1 + 300 * r)) * (1 - 12 * r)
                              + r * (288 - 3600 * r))).
      { apply Qmult_le_0_compat; lra. }
      assert (E : la * (1 # 12) * (p - 1) - la * (r * p)
                  == la * ((p - (1 + 300 * r)) * (1 - 12 * r)
                           + r * (288 - 3600 * r)) * (1 # 12)) by ring.
      lra. }
    lra.
Qed.

Lemma coverage_from_service (m la payment n : Q) :
  0 < m -> 0 < payment -> payment * 12 <= la -> la * m <= n ->
  m <= n / 12 / payment.
Proof.
  intros Hm Hp Hs Hn.
  apply Qle_shift_div_l; [exact Hp|].
  assert (H : m * (payment * 12) <= m * la).
  { apply Qmult_le_l; trivial. }
  lraq.
Qed.

(** X7.  With positive NOI and value, every returned scenario has a
    positive monthly payment and a finite reported DSCR, NOI over 12 over
    the payment, that is at least the applicable minimum DSCR.  For the
    interest-only program the payment is the loan amount times the rate over
    100 over 12; for an amortizing program it is the level payment over
    [amortization_years * 12] months, which exceeds the monthly interest. *)
Theorem X7_payment_and_coverage (self : LoanSizingEngine) (sd : bool) :
  0 < noi self -> 0 < property_value self ->
  exists l,
    calculate_loan_scenarios self sd = Ok l
    /\ forall s, In s l ->
         exists tier d,
           applicable (LoanScenario.loan_type s) tier
           /\ LoanScenario.tier_name s = option_map TierPricing.tier_name tier
           /\ 0 < LoanScenario.payment s
           /\ LoanScenario.dscr s = Fin d
           /\ d = noi self / 12 / LoanScenario.payment s
           /\ applicable_min_dscr (LoanScenario.loan_type s) tier <= d
           /\ match LoanScenario.amortization_years s with
              | None =>
                  LoanScenario.payment s
                  = LoanScenario.loan_amount s
                    * (LoanScenario.interest_rate s / 100) / 12
              | Some years =>
                  let r := LoanScenario.interest_rate s / 100 / 12 in
                  let p := (1 + r) ^ (years * 12) in
                  LoanScenario.payment s
                  = LoanScenario.loan_amount s * (r * p) / (p - 1)
                  /\ LoanScenario.loan_amount s * r < LoanScenario.payment s
              end.
Proof.
  intros Hnoi Hpv.
  destruct (calculate_loan_scenarios_ok self sd Hnoi Hpv) as (l0 & _ & Hl).
  exists (sort_desc l0). split; [exact Hl|].
  intros s HIn.
  destruct (emitted_pricing _ _ _ _ Hl HIn) as (tier & Happ & Hname & Hs).
  destruct (emitted_amount _ _ _ _ Hl HIn)
    as (tier' & Happ' & Hname' & Hla & Hmin & _).
  assert (tier' = tier) as ->.
  { apply (applicable_tier_name_inj (LoanScenario.loan_type s)); trivial.
    congruence. }
  clear Happ' Hname'.
  pose proof (single_scenario_pricing _ _ _ _ _ _ Hs)
    as (_ & Htr & Hsp & Hir & _ & Ham & Hpd).
  destruct (program_minimum_pos (LoanScenario.loan_type s)) as [_ Hminpos].
  assert (Hlapos : 0 < LoanScenario.loan_amount s) by lra.
  assert (Hrate : 5.25 <= LoanScenario.interest_rate s <= 7.85).
  { rewrite Hir, Htr, Hsp. now apply configured_rate_bounds. }
  pose proof (applicable_min_dscr_pos _ _ Happ) as Hm.
  assert (Hcov : LoanScenario.loan_amount s
                 * applicable_min_dscr (LoanScenario.loan_type s) tier
                 <= noi self).
  { assert (Hle : LoanScenario.loan_amount s
                  <= DSCR_ceiling self (LoanScenario.loan_type s) tier).
    { rewrite Hla. unfold computed_loan_amount. apply py_min_le_item.
      rewrite dscr_max_loan_Fin by trivial. simpl. auto. }
    unfold DSCR_ceiling in Hle.
    apply (Qmult_le_compat_r _ _ (applicable_min_dscr (LoanScenario.loan_type s) tier))
      in Hle; [|lra].
    rewrite (Qmult_comm (noi self / _)), Qmult_div_r in Hle by lra.
    exact Hle. }
  rewrite Ham.
  destruct (LoanConstraints.interest_only
              (_define_loan_types (LoanScenario.loan_type s))) eqn:Hio.
  - (* interest only: CMBS *)
    assert (Hy : LoanConstraints.amortization_years
                   (_define_loan_types (LoanScenario.loan_type s)) = None).
    { destruct (LoanScenario.loan_type s); simpl in *;
        [discriminate | reflexivity | discriminate]. }
    rewrite Hy.
    apply interest_only_payment in Hpd as (Hp & Hppos & Hd); trivial; [|lra].
    exists tier, (noi self / 12 / LoanScenario.payment s).
    repeat split; trivial.
    apply (coverage_from_service _ (LoanScenario.loan_amount s)); trivial.
    rewrite Hp.
    assert (H : LoanScenario.loan_amount s
                * (LoanScenario.interest_rate s * (1 # 100))
                <= LoanScenario.loan_amount s * 1).
    { apply Qmult_le_l; [trivial | lra]. }
    lraq.
  - (* amortizing: Fannie/Freddie and the debt fund *)
    assert (Hy : exists k,
               LoanConstraints.amortization_years
                 (_define_loan_types (LoanScenario.loan_type s))
               = Some (Z.of_nat k / 12)%Z
               /\ (Z.of_nat k / 12 * 12)%Z = Z.of_nat k
               /\ (0 < Z.of_nat k / 12)%Z /\ (300 <= k)%nat).
    { destruct (LoanScenario.loan_type s); simpl in *;
        [exists 360%nat | discriminate | exists 300%nat];
        repeat split; try reflexivity; lia. }
    destruct Hy as (k & Hy & Hk12 & Hypos & Hk). rewrite Hy.
    eapply amortizing_payment in Hpd; eauto; [|lra].
    cbv zeta in Hpd. rewrite Hk12 in Hpd.
    destruct Hpd as (Hp1 & Hp & Hppos & Hd).
    cbv zeta. rewrite Hk12.
    set (r := LoanScenario.interest_rate s / 100 / 12) in *.
    set (p := (1 + r) ^ Z.of_nat k) in *.
    assert (Hr : 0 < r /\ r <= 8 # 100) by (unfold r; split; lraq).
    destruct Hr as [Hr Hr8].
    pose proof (growth_factor_ge r k (Qlt_le_weak _ _ Hr)) as Hb.
    fold p in Hb.
    destruct (annuity_bounds (LoanScenario.loan_amount s) r p k
                Hlapos Hr Hr8 Hk Hb) as [Hint Hserv].
    rewrite <- Hp in Hint, Hserv.
    exists tier, (noi self / 12 / LoanScenario.payment s).
    repeat split; trivial.
    now apply (coverage_from_service _ (LoanScenario.loan_amount s)).
Qed.

Lemma X7_witness :
  exists l,
    calculate_loan_scenarios engine_10M_100M false = Ok l
    /\ forall s, In s l ->
         exists tier d,
           applicable (LoanScenario.loan_type s) tier
           /\ LoanScenario.tier_name s = option_map TierPricing.tier_name tier
           /\ 0 < LoanScenario.payment s
           /\ LoanScenario.dscr s = Fin d
           /\ d = noi engine_10M_100M / 12 / LoanScenario.payment s
           /\ applicable_min_dscr (LoanScenario.loan_type s) tier <= d
           /\ match LoanScenario.amortization_years s with
              | None =>
                  LoanScenario.payment s
                  = LoanScenario.loan_amount s
                    * (LoanScenario.interest_rate s / 100) / 12
              | Some years =>
                  let r := LoanScenario.interest_rate s / 100 / 12 in
                  let p := (1 + r) ^ (years * 12) in
                  LoanScenario.payment s
                  = LoanScenario.loan_amount s * (r * p) / (p - 1)
                  /\ LoanScenario.loan_amount s * r < LoanScenario.payment s
              end.
Proof.
  apply (X7_payment_and_coverage engine_10M_100M false); reflexivity.
Defined.

(** ** Loan sizing: sizing is independent of pricing *)

Lemma single_scenario_sizing (e1 e2 : LoanSizingEngine) (lt : LoanType)
  (tier : option TierPricing.t) (sd1 sd2 : bool)
  (r1 r2 : option LoanScenario.t) :
  noi e1 = noi e2 -> property_value e1 = property_value e2 ->
  _calculate_single_scenario e1 lt (_define_loan_types lt) tier sd1 = Ok r1 ->
  _calculate_single_scenario e2 lt (_define_loan_types lt) tier sd2 = Ok r2 ->
  option_map sizing r1 = option_map sizing r2.
Proof.
  intros Hn Hv H1 H2.
  assert (E : py_min (ltv_max_loan e1 (_define_loan_types lt) tier)
                [dscr_max_loan e1 (_define_loan_types lt) tier;
                 debt_yield_max_loan e1 (_define_loan_types lt)]
              = py_min (ltv_max_loan e2 (_define_loan_types lt) tier)
                  [dscr_max_loan e2 (_define_loan_types lt) tier;
                   debt_yield_max_loan e2 (_define_loan_types lt)]).
  { unfold ltv_max_loan, dscr_max_loan, debt_yield_max_loan.
    now rewrite Hn, Hv. }
  assert (B : py_argmin "LTV" (Fin (ltv_max_loan e1 (_define_loan_types lt) tier))
                [("DSCR"%string, dscr_max_loan e1 (_define_loan_types lt) tier);
                 ("Debt Yield"%string,
                  debt_yield_max_loan e1 (_define_loan_types lt))]
              = py_argmin "LTV" (Fin (ltv_max_loan e2 (_define_loan_types lt) tier))
                  [("DSCR"%string, dscr_max_loan e2 (_define_loan_types lt) tier);
                   ("Debt Yield"%string,
                    debt_yield_max_loan e2 (_define_loan_types lt))]).
  { unfold ltv_max_loan, dscr_max_loan, debt_yield_max_loan.
    now rewrite Hn, Hv. }
  destruct (program_minimum_pos lt) as [Hm Hpos].
  destruct r1 as [s1 |], r2 as [s2 |]; simpl; trivial.
  - pose proof (single_scenario_Some _ _ _ _ _ _ H1)
      as (T1 & N1 & A1 & M1 & _ & L1 & D1).
    pose proof (single_scenario_Some _ _ _ _ _ _ H2)
      as (T2 & N2 & A2 & M2 & _ & L2 & D2).
    pose proof (single_scenario_pricing _ _ _ _ _ _ H1) as (B1 & _).
    pose proof (single_scenario_pricing _ _ _ _ _ _ H2) as (B2 & _).
    specialize (M1 _ Hm). specialize (M2 _ Hm).
    assert (P1 : 0 < LoanScenario.loan_amount s1) by (assert (~ program_minimum lt == 0) by lra; specialize (M1 H); lra).
    assert (P2 : 0 < LoanScenario.loan_amount s2) by (assert (~ program_minimum lt == 0) by lra; specialize (M2 H); lra).
    unfold sizing. rewrite T1, T2, N1, N2, L1, L2, (D1 P1), (D2 P2), B1, B2.
    rewrite A1, A2, E, B, Hn, Hv. reflexivity.
  - exfalso.
    apply single_scenario_Some in H1 as (_ & _ & A1 & M1 & _).
    apply single_scenario_None_inv in H2 as (m & Hm' & Hlt).
    rewrite Hm in Hm'. inversion Hm'; subst m.
    specialize (M1 _ Hm). rewrite A1, E in M1.
    assert (~ program_minimum lt == 0) by lra. specialize (M1 H). lra.
  - exfalso.
    apply single_scenario_Some in H2 as (_ & _ & A2 & M2 & _).
    apply single_scenario_None_inv in H1 as (m & Hm' & Hlt).
    rewrite Hm in Hm'. inversion Hm'; subst m.
    specialize (M2 _ Hm). rewrite A2, <- E in M2.
    assert (~ program_minimum lt == 0) by lra. specialize (M2 H). lra.
Qed.

Lemma tier_scenarios_sizing (e1 e2 : LoanSizingEngine) (lt : LoanType)
  (sd1 sd2 : bool) (tiers : list TierPricing.t) :
  noi e1 = noi e2 -> property_value e1 = property_value e2 ->
  forall l1 l2,
    tier_scenarios e1 lt (_define_loan_types lt) tiers sd1 = Ok l1 ->
    tier_scenarios e2 lt (_define_loan_types lt) tiers sd2 = Ok l2 ->
    map sizing l1 = map sizing l2.
Proof.
  intros Hn Hv.
  induction tiers as [| t tiers IH]; simpl; intros l1 l2 H1 H2.
  - inversion H1; inversion H2; subst. reflexivity.
  - apply bind_inv in H1 as (r1 & Hr1 & H1).
    apply bind_inv in H1 as (l1' & Hl1 & H1).
    apply bind_inv in H2 as (r2 & Hr2 & H2).
    apply bind_inv in H2 as (l2' & Hl2 & H2).
    inversion H1; inversion H2; subst; clear H1 H2.
    pose proof (single_scenario_sizing _ _ _ _ _ _ _ _ Hn Hv Hr1 Hr2) as E.
    specialize (IH _ _ Hl1 Hl2).
    destruct r1, r2; simpl in E; try discriminate E; [|exact IH].
    simpl map. f_equal; [congruence | exact IH].
Qed.

Lemma loan_type_scenarios_sizing (e1 e2 : LoanSizingEngine) (lt : LoanType)
  (sd1 sd2 : bool) (l1 l2 : list LoanScenario.t) :
  noi e1 = noi e2 -> property_value e1 = property_value e2 ->
  _calculate_loan_type_scenarios e1 lt sd1 = Ok l1 ->
  _calculate_loan_type_scenarios e2 lt sd2 = Ok l2 ->
  map sizing l1 = map sizing l2.
Proof.
  intros Hn Hv. unfold _calculate_loan_type_scenarios. rewrite Hv.
  destruct (match LoanConstraints.min_loan_amount (_define_loan_types lt) with
            | Some m => _
            | None => false
            end).
  { intros H1 H2; inversion H1; inversion H2; subst. reflexivity. }
  destruct (LoanType_eqb lt FANNIE_FREDDIE
            && LoanConstraints.has_tier_pricing (_define_loan_types lt)).
  - now apply tier_scenarios_sizing.
  - intros H1 H2.
    apply bind_inv in H1 as (r1 & Hr1 & H1).
    apply bind_inv in H2 as (r2 & Hr2 & H2).
    inversion H1; inversion H2; subst; clear H1 H2.
    pose proof (single_scenario_sizing _ _ _ _ _ _ _ _ Hn Hv Hr1 Hr2) as E.
    destruct r1, r2; simpl in E; try discriminate E; trivial.
    simpl map. f_equal. congruence.
Qed.

Lemma extend_all_sizing (e1 e2 : LoanSizingEngine) (sd1 sd2 : bool)
  (types : list LoanType) :
  noi e1 = noi e2 -> property_value e1 = property_value e2 ->
  forall l1 l2,
    extend_all e1 types sd1 = Ok l1 -> extend_all e2 types sd2 = Ok l2 ->
    map sizing l1 = map sizing l2.
Proof.
  intros Hn Hv.
  induction types as [| lt types IH]; simpl; intros l1 l2 H1 H2.
  - inversion H1; inversion H2; subst. reflexivity.
  - apply bind_inv in H1 as (a1 & Ha1 & H1).
    apply bind_inv in H1 as (b1 & Hb1 & H1).
    apply bind_inv in H2 as (a2 & Ha2 & H2).
    apply bind_inv in H2 as (b2 & Hb2 & H2).
    inversion H1; inversion H2; subst; clear H1 H2.
    rewrite !map_app.
    rewrite (loan_type_scenarios_sizing _ _ _ _ _ _ _ Hn Hv Ha1 Ha2).
    now rewrite (IH _ _ Hb1 Hb2).
Qed.

Lemma sizing_amount (s1 s2 : LoanScenario.t) :
  sizing s1 = sizing s2 ->
  LoanScenario.loan_amount s1 = LoanScenario.loan_amount s2.
Proof. unfold sizing. intros H. now inversion H. Qed.

Lemma cons_eq_inv {A : Type} (a b : A) (l m : list A) :
  a :: l = b :: m -> a = b /\ l = m.
Proof. intros H. now inversion H. Qed.

Lemma insert_desc_sizing (x1 x2 : LoanScenario.t) :
  sizing x1 = sizing x2 ->
  forall l1 l2,
    map sizing l1 = map sizing l2 ->
    map sizing (insert_desc x1 l1) = map sizing (insert_desc x2 l2).
Proof.
  intros Hx. induction l1 as [| y1 l1 IH]; intros [| y2 l2] Hl;
    try discriminate Hl.
  - simpl. now rewrite Hx.
  - cbn [map] in Hl. apply cons_eq_inv in Hl as [Hy Hl].
    cbn [insert_desc].
    rewrite (sizing_amount _ _ Hx), (sizing_amount _ _ Hy).
    destruct (Qlt_bool _ _); cbn [map].
    + now rewrite Hy, (IH _ Hl).
    + now rewrite Hx, Hy, Hl.
Qed.

Lemma sort_desc_sizing (l1 l2 : list LoanScenario.t) :
  map sizing l1 = map sizing l2 ->
  map sizing (sort_desc l1) = map sizing (sort_desc l2).
Proof.
  revert l2. induction l1 as [| x1 l1 IH]; intros [| x2 l2] Hl;
    try discriminate Hl; trivial.
  cbn [map] in Hl. apply cons_eq_inv in Hl as [Hx Hl].
  cbn [sort_desc fold_right]. apply insert_desc_sizing; [exact Hx|].
  now apply IH.
Qed.

(** X8.  The sizing of the returned scenarios - program, tier, loan amount,
    LTV, debt yield and binding constraint, in list order - depends on the
    NOI and the property value alone: engines that agree on these return
    the same sizing whatever their treasury terms and step-down flags. *)
Theorem X8_sizing_independent_of_pricing (e1 e2 : LoanSizingEngine)
  (sd1 sd2 : bool) :
  noi e1 = noi e2 -> property_value e1 = property_value e2 ->
  0 < noi e1 -> 0 < property_value e1 ->
  exists l1 l2,
    calculate_loan_scenarios e1 sd1 = Ok l1
    /\ calculate_loan_scenarios e2 sd2 = Ok l2
    /\ map sizing l1 = map sizing l2.
Proof.
  intros Hn Hv Hnoi Hpv.
  destruct (calculate_loan_scenarios_ok e1 sd1 Hnoi Hpv) as (a1 & Ha1 & Hl1).
  destruct (calculate_loan_scenarios_ok e2 sd2) as (a2 & Ha2 & Hl2).
  { now rewrite <- Hn. }
  { now rewrite <- Hv. }
  exists (sort_desc a1), (sort_desc a2). split; [exact Hl1|].
  split; [exact Hl2|].
  apply sort_desc_sizing.
  now apply (extend_all_sizing e1 e2 sd1 sd2 all_loan_types).
Qed.

Lemma X8_witness :
  exists l1 l2,
    calculate_loan_scenarios engine_10M_100M false = Ok l1
    /\ calculate_loan_scenarios
         (set_treasury_term engine_10M_100M THIRTY_YEAR) true = Ok l2
    /\ map sizing l1 = map sizing l2.
Proof.
  apply (X8_sizing_independent_of_pricing engine_10M_100M
           (set_treasury_term engine_10M_100M THIRTY_YEAR) false true);
    reflexivity.
Defined.

(** ** Keywords in text *)

Lemma prefix_app (a s : string) :
  prefix a s = true <-> exists post, s = (a ++ post)%string.
Proof.
  revert s. induction a as [| c a IH]; intros s; simpl.
  - split; [intros _; exists s; reflexivity | destruct s; reflexivity].
  - destruct s as [| d s]; [split; [discriminate | intros [? H]; discriminate]|].
    simpl. destruct (ascii_dec c d) as [-> | Hne].
    + rewrite IH. split; intros [post H]; exists post; congruence.
    + split; [discriminate | intros [post H]; congruence].
Qed.

(** [contains] is the substring test. *)
Lemma contains_spec (needle s : string) :
  contains needle s = true
  <-> exists pre post, s = (pre ++ needle ++ post)%string.
Proof.
  induction s as [| c s IH].
  - cbn [contains]. rewrite orb_false_r, prefix_app. split.
    + intros [post H]. exists ""%string, post. exact H.
    + intros (pre & post & H). destruct pre; [|discriminate].
      exists post. exact H.
  - cbn [contains]. rewrite orb_true_iff, prefix_app, IH. split.
    + intros [[post H] | (pre & post & H)].
      * exists ""%string, post. exact H.
      * exists (String c pre), post. simpl. now rewrite H.
    + intros (pre & post & H). destruct pre as [| d pre].
      * left. exists post. exact H.
      * right. simpl in H. injection H as _ H. eauto.
Qed.

Lemma append_assoc (a b c : string) :
  ((a ++ b) ++ c)%string = (a ++ (b ++ c))%string.
Proof. induction a as [| x a IH]; simpl; [reflexivity | now rewrite IH]. Qed.

Lemma contains_trans (a b s : string) :
  contains a b = true -> contains b s = true -> contains a s = true.
Proof.
  rewrite !contains_spec. intros (p1 & q1 & ->) (p2 & q2 & ->).
  exists (p2 ++ p1)%string, (q1 ++ q2)%string.
  now rewrite !append_assoc.
Qed.

(** ** Rent roll: column detection *)

Lemma find_from_spec (keywords : list string) (cols : list cell) :
  forall pos,
    match find_from pos cols keywords with
    | Some i =>
        (pos <= i)%nat
        /\ (exists col, nth_error cols (i - pos) = Some col
                        /\ label_matches keywords col = true)
        /\ forall j col, (j < i - pos)%nat -> nth_error cols j = Some col ->
             label_matches keywords col = false
    | None => forall col, In col cols -> label_matches keywords col = false
    end.
Proof.
  induction cols as [| c cols IH]; intros pos; simpl.
  - contradiction.
  - fold (label_matches keywords c).
    destruct (label_matches keywords c) eqn:E.
    + split; [lia|]. rewrite Nat.sub_diag. split; [exists c; auto|].
      intros j col Hj. lia.
    + specialize (IH (S pos)).
      destruct (find_from (S pos) cols keywords) as [i |].
      * destruct IH as (Hle & (col & Hnth & Hm) & Hbefore).
        split; [lia|].
        replace (i - pos)%nat with (S (i - S pos)) by lia.
        split; [exists col; auto|].
        intros [| j] col' Hj Hcol; simpl in Hcol.
        -- now inversion Hcol; subst.
        -- apply (Hbefore j); [lia | exact Hcol].
      * intros col [<- | HIn]; auto.
Qed.

(** X9.  [_find_column] returns the position of the first column whose
    label, lower-cased, contains one of the keywords, lower-cased, and
    nothing when no label does. *)
Theorem X9_find_column_first_match (df : DataFrame) (keywords : list string) :
  match _find_column df keywords with
  | Some i =>
      (exists col, nth_error (columns df) i = Some col
                   /\ label_matches keywords col = true)
      /\ forall j col, (j < i)%nat -> nth_error (columns df) j = Some col ->
           label_matches keywords col = false
  | None =>
      forall col, In col (columns df) -> label_matches keywords col = false
  end.
Proof.
  unfold _find_column.
  pose proof (find_from_spec keywords (columns df) 0) as H.
  destruct (find_from 0 (columns df) keywords) as [i |]; [|exact H].
  rewrite Nat.sub_0_r in H. destruct H as (_ & H1 & H2). auto.
Qed.

Lemma X9_witness :
  (exists col, nth_error (columns rent_roll_vacant_listed) 3 = Some col
               /\ label_matches ["status"; "occupied"; "vacant"]%string col = true)
  /\ forall j col, (j < 3)%nat ->
       nth_error (columns rent_roll_vacant_listed) j = Some col ->
       label_matches ["status"; "occupied"; "vacant"]%string col = false.
Proof.
  exact (X9_find_column_first_match rent_roll_vacant_listed
           ["status"; "occupied"; "vacant"]%string).
Defined.

(** ** Rent roll: occupancy counts *)

Lemma filter_length_le {A : Type} (p : A -> bool) (l : list A) :
  (List.length (filter p l) <= List.length l)%nat.
Proof.
  induction l as [| x l IH]; simpl; [lia|].
  destruct (p x); simpl; lia.
Qed.

Lemma count_first_keyword_bounds (keywords : list string) (sc : nat)
  (df : list UnitRecord) (n : Z) :
  count_first_keyword keywords sc df = Some n ->
  (1 <= n <= Z.of_nat (List.length df))%Z.
Proof.
  induction keywords as [| k keywords IH]; simpl; [discriminate|].
  set (mask := map (fun u => contains k (status_of sc u)) df).
  destruct (existsb (fun b => b) mask) eqn:E; [|exact IH].
  intros H; inversion H; subst n; clear H.
  pose proof (filter_length_le (fun b : bool => b) mask) as Hle.
  unfold mask in Hle at 2. rewrite length_map in Hle.
  apply existsb_exists in E as (b & HIn & Hb). subst b.
  assert (HIn' : In true (filter (fun b : bool => b) mask))
    by (apply filter_In; auto).
  destruct (filter (fun b : bool => b) mask); [contradiction|].
  simpl List.length in *. lia.
Qed.

Lemma count_occupied_bounds (df : list UnitRecord) (status_col : option nat) :
  (0 <= _count_occupied_units df status_col <= Z.of_nat (List.length df))%Z.
Proof.
  assert (Hpos : (0 <= count_positive_rent df <= Z.of_nat (List.length df))%Z).
  { unfold count_positive_rent.
    pose proof (filter_length_le (fun u => Qlt_bool 0 (clean_rent u)) df). lia. }
  unfold _count_occupied_units.
  destruct status_col as [sc |]; [|exact Hpos].
  destruct (count_first_keyword _ sc df) as [n |] eqn:E; [|exact Hpos].
  apply count_first_keyword_bounds in E. lia.
Qed.

(** X10.  In every rent-roll analysis the occupied count lies between 0 and
    the total, the vacant count is their difference and is never negative,
    and the monthly and annual GPI are the current income plus the imputed
    vacant income, and twelve times that. *)
Theorem X10_occupancy_counts (df : DataFrame) (a : RentAnalysis) :
  _analyze_rent_roll df = Some a ->
  (0 <= occupied_units a <= total_units a)%Z
  /\ (0 <= vacant_units a)%Z
  /\ (occupied_units a + vacant_units a = total_units a)%Z
  /\ gross_potential_income a
     = current_monthly_income a + vacant_unit_income a
  /\ annual_gpi a = gross_potential_income a * 12.
Proof.
  unfold _analyze_rent_roll.
  destruct (_find_column df _) as [rc |]; [|discriminate].
  intros H. inversion H; subst a; clear H. simpl.
  pose proof (count_occupied_bounds (valid_rent_rows rc (rows df))
                (_find_column df ["status"; "occupied"; "vacant"]%string)).
  repeat split; try lia.
Qed.

Lemma X10_witness :
  (0 <= 1 <= 2)%Z /\ (0 <= 1)%Z /\ (1 + 1 = 2)%Z
  /\ 3000 = 2000 + 1000 /\ 36000 = 3000 * 12.
Proof.
  exact (X10_occupancy_counts rent_roll_vacant_listed
           {| total_units := 2; occupied_units := 1; vacant_units := 1;
              current_monthly_income := 2000; vacant_unit_income := 1000;
              gross_potential_income := 3000; annual_gpi := 36000 |}
           eq_refl).
Defined.

(** ** Rent roll: missing columns *)

Lemma rent_label_matches (col : cell) :
  label_matches ["rent"; "current rent"; "monthly rent"]%string col
  = contains "rent" (lower (astype_str col)).
Proof.
  unfold label_matches. cbn [existsb].
  change (lower "rent") with "rent"%string.
  change (lower "current rent") with "current rent"%string.
  change (lower "monthly rent") with "monthly rent"%string.
  destruct (contains "rent" (lower (astype_str col))) eqn:E; [reflexivity|].
  destruct (contains "current rent" (lower (astype_str col))) eqn:E1.
  { rewrite (contains_trans "rent" "current rent" _ eq_refl E1) in E.
    discriminate. }
  destruct (contains "monthly rent" (lower (astype_str col))) eqn:E2.
  { rewrite (contains_trans "rent" "monthly rent" _ eq_refl E2) in E.
    discriminate. }
  reflexivity.
Qed.

Lemma valid_rent_rows_all_positive (rc : nat) (rs : list (list cell)) :
  filter (fun u => Qlt_bool 0 (clean_rent u)) (valid_rent_rows rc rs)
  = valid_rent_rows rc rs.
Proof.
  induction rs as [| row rs IH]; simpl; [reflexivity|].
  destruct (clean_rent_of rc row) as [rent |]; [|exact IH].
  destruct (Qlt_bool 0 rent) eqn:E; [|exact IH].
  simpl. now rewrite E, IH.
Qed.

(** X11.  The analysis has no [rent_analysis] exactly when no column label
    contains "rent", whatever its case.  Without a status column every
    retained unit counts as occupied: no unit is vacant and no vacant income
    is imputed.  Without a unit-type column no vacant income is imputed
    either.  In both cases the monthly GPI is the current income. *)
Theorem X11_missing_columns (df : DataFrame) :
  (_analyze_rent_roll df = None
   <-> forall col, In col (columns df) ->
         contains "rent" (lower (astype_str col)) = false)
  /\ forall a,
       _analyze_rent_roll df = Some a ->
       (_find_column df ["status"; "occupied"; "vacant"]%string = None ->
        occupied_units a = total_units a
        /\ vacant_units a = 0%Z
        /\ vacant_unit_income a = 0
        /\ gross_potential_income a == current_monthly_income a)
       /\ (_find_column df ["type"; "unit type"; "bed"; "bedroom"]%string = None ->
           vacant_unit_income a = 0
           /\ gross_potential_income a == current_monthly_income a).
Proof.
  split.
  - unfold _analyze_rent_roll, _find_column.
    pose proof (find_from_spec ["rent"; "current rent"; "monthly rent"]%string
                  (columns df) 0) as H.
    destruct (find_from 0 (columns df) _) as [i |].
    + destruct H as (_ & (col & Hnth & Hm) & _).
      split; [discriminate|]. intros Hall. exfalso.
      rewrite rent_label_matches in Hm.
      rewrite Hall in Hm; [discriminate|].
      eapply nth_error_In; eauto.
    + split; [|reflexivity]. intros _ col HIn.
      rewrite <- rent_label_matches. auto.
  - intros a. unfold _analyze_rent_roll.
    destruct (_find_column df ["rent"; "current rent"; "monthly rent"]%string)
      as [rc |]; [|discriminate].
    intros H. inversion H; subst a; clear H. simpl. split.
    + intros ->. simpl.
      unfold count_positive_rent. rewrite valid_rent_rows_all_positive.
      repeat split; try lia.
      * now destruct (_find_column df _).
      * destruct (_find_column df _); simpl; ring.
    + intros ->. simpl. split; [reflexivity | ring].
Qed.

Lemma X11_witness :
  exists a,
    _analyze_rent_roll rent_roll_underpriced = Some a
    /\ occupied_units a = total_units a
    /\ vacant_units a = 0%Z
    /\ vacant_unit_income a = 0
    /\ gross_potential_income a == current_monthly_income a.
Proof.
  eexists. split; [reflexivity|].
  apply (proj1 (proj2 (X11_missing_columns rent_roll_underpriced) _ eq_refl)).
  reflexivity.
Defined.

(** ** Rent roll: reading a rent *)

Lemma parse_digits_nonneg (s : string) :
  forall acc v, (0 <= acc)%Z -> parse_digits s acc = Some v -> (0 <= v)%Z.
Proof.
  induction s as [| c s IH]; cbn [parse_digits]; intros acc v Hacc H.
  - now inversion H; subst.
  - destruct (is_digit c); [|discriminate].
    apply (IH (10 * acc + Z.of_nat (nat_of_ascii c - 48))%Z); [lia | exact H].
Qed.

Lemma inject_Z_nonneg (z : Z) : (0 <= z)%Z -> 0 <= inject_Z z.
Proof. intros H. change 0 with (inject_Z 0). now rewrite <- Zle_Qle. Qed.

Lemma to_numeric_nonneg (s : string) (q : Q) : to_numeric s = Some q -> 0 <= q.
Proof.
  unfold to_numeric. destruct (split_dot s) as [ip [fp |]].
  - destruct (String.eqb ip "" && String.eqb fp ""); [discriminate|].
    destruct (parse_digits ip 0) as [a |] eqn:Ea; [|discriminate].
    destruct (parse_digits fp 0) as [b |] eqn:Eb; [|discriminate].
    intros H; inversion H; subst q; clear H.
    apply parse_digits_nonneg in Ea; [|lia].
    apply parse_digits_nonneg in Eb; [|lia].
    pose proof (inject_Z_nonneg a Ea). pose proof (inject_Z_nonneg b Eb).
    assert (0 <= inject_Z b / inject_Z (10 ^ Z.of_nat (String.length fp))).
    { apply Qle_shift_div_l.
      - change 0 with (inject_Z 0). rewrite <- Zlt_Qlt.
        apply Z.pow_pos_nonneg; lia.
      - lra. }
    lra.
  - destruct (String.eqb ip ""); [discriminate|].
    destruct (parse_digits ip 0) as [a |] eqn:Ea; [|discriminate].
    intros H; inversion H; subst q; clear H.
    apply parse_digits_nonneg in Ea; [|lia]. now apply inject_Z_nonneg.
Qed.

Lemma strip_non_numeric_app (s1 s2 : string) :
  strip_non_numeric (s1 ++ s2)
  = (strip_non_numeric s1 ++ strip_non_numeric s2)%string.
Proof.
  induction s1 as [| c s1 IH]; simpl; [reflexivity|].
  destruct (is_digit c || Ascii.eqb c "."); simpl; now rewrite IH.
Qed.

(** X12.  A rent is read from the digits and dots of its cell alone: a
    character that is neither, such as a currency sign, a comma, a blank or
    a minus sign, changes nothing, wherever it stands.  The rent read is
    therefore never negative, and a missing cell gives no rent. *)
Theorem X12_rent_reading (rent_col : nat) (row : list cell) :
  (forall q, clean_rent_of rent_col row = Some q -> 0 <= q)
  /\ (at_col rent_col row = None -> clean_rent_of rent_col row = None)
  /\ forall s1 c s2,
       is_digit c = false -> c <> "."%char ->
       to_numeric (strip_non_numeric (s1 ++ String c s2))
       = to_numeric (strip_non_numeric (s1 ++ s2)).
Proof.
  split; [|split].
  - intros q. unfold clean_rent_of. apply to_numeric_nonneg.
  - intros H. unfold clean_rent_of. now rewrite H.
  - intros s1 c s2 Hd Hc. rewrite !strip_non_numeric_app. simpl.
    rewrite Hd. apply Ascii.eqb_neq in Hc. now rewrite Hc.
Qed.

Lemma X12_witness :
  to_numeric (strip_non_numeric ("" ++ String "-" "1,200.50"))
  = to_numeric (strip_non_numeric ("" ++ "1,200.50")).
Proof.
  apply (proj2 (proj2 (X12_rent_reading 0 []))).
  - reflexivity.
  - discriminate.
Defined.

(** ** Rent roll: underpriced units *)

Lemma unique_values_In (cs : list cell) :
  forall seen v,
    In v (unique_values seen cs) <-> In (Some v) cs /\ ~ In v seen.
Proof.
  induction cs as [| [w |] cs IH]; intros seen v; simpl.
  - tauto.
  - destruct (existsb (String.eqb w) seen) eqn:E.
    + rewrite IH. apply existsb_exists in E as (x & Hx & Hwx).
      apply String.eqb_eq in Hwx. subst x.
      split; [tauto|]. intros [[Heq | HIn] Hnot]; [|tauto].
      inversion Heq; subst. contradiction.
    + assert (Hw : ~ In w seen).
      { intros HIn.
        assert (existsb (String.eqb w) seen = true); [|congruence].
        apply existsb_exists. exists w. split; [exact HIn|].
        apply String.eqb_refl. }
      simpl. rewrite IH. simpl. split.
      * intros [-> | [HIn Hnot]]; [tauto|]. split; [tauto|].
        intros H. apply Hnot. now right.
      * intros [[Heq | HIn] Hnot].
        -- left. congruence.
        -- destruct (string_dec w v) as [-> | Hne]; [now left|].
           right. split; [exact HIn|]. intros [? | ?]; contradiction.
  - rewrite IH. split; [tauto|]. intros [[Heq | HIn] Hnot]; [discriminate|tauto].
Qed.

Lemma same_type_iff (tc : nat) (ty : string) (u : UnitRecord) :
  same_type tc (Some ty) u = true <-> at_col tc (cells u) = Some ty.
Proof.
  unfold same_type. destruct (at_col tc (cells u)) as [b |].
  - rewrite String.eqb_eq. split; congruence.
  - split; discriminate.
Qed.

Lemma total_rent_pos (us : list UnitRecord) :
  us <> [] -> (forall u, In u us -> 0 < clean_rent u) ->
  0 < total_of clean_rent us.
Proof.
  induction us as [| u us IH]; [congruence|]. intros _ Hpos. simpl.
  assert (0 < clean_rent u) by (apply Hpos; now left).
  destruct us as [| v us].
  - simpl. lra.
  - assert (0 < total_of clean_rent (v :: us)).
    { apply IH; [discriminate|]. intros w Hw. apply Hpos. now right. }
    lra.
Qed.

Lemma mean_rent_pos (us : list UnitRecord) :
  us <> [] -> (forall u, In u us -> 0 < clean_rent u) -> 0 < mean_rent us.
Proof.
  intros Hne Hpos. unfold mean_rent. rewrite sum_rent_total.
  apply Qlt_shift_div_l.
  - change 0 with (inject_Z 0). rewrite <- Zlt_Qlt.
    destruct us; [congruence | simpl List.length; lia].
  - pose proof (total_rent_pos us Hne Hpos). lra.
Qed.

(** X13.  For retained units (positive rents), [_flag_underpriced_units]
    flags exactly the units with a unit type whose rent is under 0.7 times
    the average rent of the units of that type, the comparison being strict.
    Each flag carries that unit's rent and the type average, and its
    percent-under figure exceeds 30. *)
Theorem X13_underpriced_flags (cols : list cell) (df : list UnitRecord)
  (tc : nat) :
  (forall u, In u df -> 0 < clean_rent u) ->
  (forall f, In f (_flag_underpriced_units cols df tc) ->
     exists u,
       In u df
       /\ at_col tc (cells u) = Some (flag_unit_type f)
       /\ flag_unit f = unit_label cols u
       /\ flag_current_rent f = clean_rent u
       /\ flag_type_average f
          = mean_rent (filter (same_type tc (Some (flag_unit_type f))) df)
       /\ clean_rent u < flag_type_average f * 0.7
       /\ 30 < flag_percent_under f)
  /\ (forall u ty,
        In u df -> at_col tc (cells u) = Some ty ->
        clean_rent u < mean_rent (filter (same_type tc (Some ty)) df) * 0.7 ->
        exists f,
          In f (_flag_underpriced_units cols df tc)
          /\ flag_unit_type f = ty
          /\ flag_unit f = unit_label cols u
          /\ flag_current_rent f = clean_rent u)
  /\ (forall u ty,
        In u df -> at_col tc (cells u) = Some ty ->
        mean_rent (filter (same_type tc (Some ty)) df) * 0.7 <= clean_rent u ->
        forall f, In f (_flag_underpriced_units cols df tc) ->
          flag_unit_type f = ty -> flag_current_rent f < clean_rent u).
Proof.
  intros Hpos.
  assert (Hflag : forall f, In f (_flag_underpriced_units cols df tc) ->
            exists u,
              In u df
              /\ at_col tc (cells u) = Some (flag_unit_type f)
              /\ flag_unit f = unit_label cols u
              /\ flag_current_rent f = clean_rent u
              /\ flag_type_average f
                 = mean_rent (filter (same_type tc (Some (flag_unit_type f))) df)
              /\ clean_rent u < flag_type_average f * 0.7
              /\ 30 < flag_percent_under f).
  { intros f HIn. unfold _flag_underpriced_units in HIn.
    apply in_flat_map in HIn as (ty & _ & HIn).
    unfold flags_of_type in HIn.
    apply in_map_iff in HIn as (u & <- & HIn). simpl.
    apply filter_In in HIn as [HIn Hlt].
    apply filter_In in HIn as [HIn Hty].
    apply Qlt_bool_iff in Hlt. apply same_type_iff in Hty.
    exists u. repeat split; trivial.
    set (group := filter (same_type tc (Some ty)) df) in *.
    assert (Havg : 0 < mean_rent group).
    { apply mean_rent_pos.
      - intros E.
        assert (In u group) by (apply filter_In; split;
                                [exact HIn | now apply same_type_iff]).
        rewrite E in H. contradiction.
      - intros v Hv. apply filter_In in Hv as [Hv _]. auto. }
    assert (H3 : 0.3 < (mean_rent group - clean_rent u) / mean_rent group).
    { apply Qlt_shift_div_l; [exact Havg|]. lra. }
    lra. }
  split; [exact Hflag|]. split.
  - intros u ty HIn Hty Hlt.
    eexists. split.
    + unfold _flag_underpriced_units. apply in_flat_map. exists ty. split.
      * apply unique_values_In. split; [|tauto].
        rewrite <- Hty.
        now apply (in_map (fun v => at_col tc (cells v))).
      * unfold flags_of_type. apply in_map. apply filter_In. split.
        -- apply filter_In. split; [exact HIn | now apply same_type_iff].
        -- now apply Qlt_bool_iff.
    + simpl. auto.
  - intros u ty HIn Hty Hge f Hf Hfty.
    destruct (Hflag f Hf) as (v & _ & _ & _ & Hr & Havg & Hlt & _).
    rewrite Hr. rewrite Havg, Hfty in Hlt. lra.
Qed.

Lemma X13_witness :
  exists f,
    In f (_flag_underpriced_units (columns rent_roll_underpriced)
            (valid_rent_rows 2 (rows rent_roll_underpriced)) 1)
    /\ flag_unit_type f = "Studio"%string
    /\ flag_unit f
       = unit_label (columns rent_roll_underpriced)
           {| cells := [Some "3"; Some "Studio"; Some "$400"]%string;
              clean_rent := 400 |}
    /\ flag_current_rent f = 400.
Proof.
  apply (proj1 (proj2 (X13_underpriced_flags (columns rent_roll_underpriced)
                         (valid_rent_rows 2 (rows rent_roll_underpriced)) 1
                         (fun u H => proj2 (proj2 (valid_rent_rows_positive
                                                     2 _ u H)))))
           {| cells := [Some "3"; Some "Studio"; Some "$400"]%string;
              clean_rent := 400 |} "Studio"%string).
  - vm_compute. right. right. left. reflexivity.
  - reflexivity.
  - vm_compute. reflexivity.
Defined.

(** ** Expense rules: the adjusted expenses *)

(** The entries of [adjusted_expenses] when a rent roll was analysed. *)
Lemma expense_rules_entries (info : PropertyInfo) (gpi : Q) (items : dict Q) :
  let age := match property_age info with Some a => a | None => 25 end in
  let units := match unit_count info with Some n => n | None => 1 end in
  let refinance :=
    String.eqb (match transaction_type info with
                | Some t => t
                | None => "refinance"%string
                end) "refinance" in
  let minimum := first_range rm_minimums age 500 in
  let get k := dict_get items k 0 in
  fst (_apply_expense_rules info (Some gpi) items)
  = [ ("vacancy"%string, pymax (gpi * 0.05) (get "vacancy"%string));
      ("property_taxes"%string,
       if refinance then get "property_taxes"%string * 1.075
       else get "property_taxes"%string);
      ("insurance"%string, get "insurance"%string * 1.05);
      ("electricity"%string, get "electricity"%string * 1.02);
      ("water"%string, get "water"%string * 1.02);
      ("sewer"%string, get "sewer"%string * 1.02);
      ("trash"%string, get "trash"%string * 1.02);
      ("repairs_maintenance"%string,
       bounded (get "repairs_maintenance"%string) (minimum * units)
         (1500 * units));
      ("payroll"%string,
       bounded (get "payroll"%string) (minimum * units) (1500 * units));
      ("admin_fees"%string,
       bounded (get "admin_fees"%string) 1000 (400 * units));
      ("management_fee"%string, gpi * mgmt_rate gpi);
      ("replacement_reserves"%string, 250 * units) ].
Proof. reflexivity. Qed.

Lemma expense_rules_total (info : PropertyInfo) (gpi : option Q)
  (items : dict Q) :
  snd (_apply_expense_rules info gpi items)
  = sum_values (fst (_apply_expense_rules info gpi items)).
Proof. reflexivity. Qed.

Lemma sum_values_total (d : dict Q) :
  sum_values d == fold_right (fun kv acc => snd kv + acc) 0 d.
Proof.
  unfold sum_values. rewrite (fold_left_add_acc (fun kv : string * Q => snd kv)).
  ring.
Qed.

Lemma sum_values_nonneg (d : dict Q) :
  (forall k v, In (k, v) d -> 0 <= v) -> 0 <= sum_values d.
Proof.
  intros H. rewrite sum_values_total.
  induction d as [| [k v] d IH]; simpl; [lra|].
  assert (0 <= v) by (apply (H k); now left).
  assert (0 <= fold_right (fun kv acc => snd kv + acc) 0 d).
  { apply IH. intros k' v' HIn. apply (H k'). now right. }
  lra.
Qed.

Lemma bounded_nonneg (actual lo hi : Q) :
  0 <= lo -> 0 <= hi -> 0 <= bounded actual lo hi.
Proof.
  intros Hlo Hhi. unfold bounded.
  destruct (Qlt_bool actual lo) eqn:E1; [exact Hlo|].
  destruct (Qlt_bool hi actual) eqn:E2; [exact Hhi|].
  reflect_order. lra.
Qed.

Lemma mgmt_rate_bounds (g : Q) : 0.025 <= mgmt_rate g <= 0.05.
Proof.
  unfold mgmt_rate.
  repeat match goal with |- context [Qle_bool ?a ?b] => destruct (Qle_bool a b) end;
    split; lra.
Qed.

Lemma first_range_nonneg (age : Q) : 500 <= first_range rm_minimums age 500.
Proof.
  unfold first_range, rm_minimums.
  repeat match goal with
    | |- context [Qle_bool ?a ?b && Qlt_bool ?c ?d] =>
        destruct (Qle_bool a b && Qlt_bool c d)
    end; lra.
Qed.

(** X14.  When a rent roll was analysed, [adjusted_expenses] holds the same
    twelve categories in the same order whatever the T12 held, and the
    total is their sum.  With a non-negative GPI, unit count and actual
    amounts, no adjusted expense is negative, nor is the total. *)
Theorem X14_adjusted_expenses_nonnegative (info : PropertyInfo) (gpi : Q)
  (items : dict Q) :
  let adjusted := fst (_apply_expense_rules info (Some gpi) items) in
  let total := snd (_apply_expense_rules info (Some gpi) items) in
  map fst adjusted
  = [ "vacancy"; "property_taxes"; "insurance"; "electricity"; "water";
      "sewer"; "trash"; "repairs_maintenance"; "payroll"; "admin_fees";
      "management_fee"; "replacement_reserves" ]%string
  /\ total == fold_right (fun kv acc => snd kv + acc) 0 adjusted
  /\ (0 <= gpi ->
      0 <= match unit_count info with Some n => n | None => 1 end ->
      (forall k, 0 <= dict_get items k 0) ->
      (forall k v, In (k, v) adjusted -> 0 <= v) /\ 0 <= total).
Proof.
  cbv zeta. split; [reflexivity|]. split.
  - rewrite expense_rules_total. apply sum_values_total.
  - intros Hg Hu Hitems.
    assert (Hall : forall k v,
              In (k, v) (fst (_apply_expense_rules info (Some gpi) items)) ->
              0 <= v).
    { intros k v HIn. rewrite expense_rules_entries in HIn. cbv zeta in HIn.
      pose proof (first_range_nonneg
                    match property_age info with Some a => a | None => 25 end).
      pose proof (mgmt_rate_bounds gpi) as [Hm _].
      cbn [In] in HIn.
      repeat (destruct HIn as [HIn | HIn];
              [injection HIn as _ <- |]); try contradiction.
      - unfold pymax. destruct (Qlt_bool _ _); [apply Hitems|].
        apply Qmult_le_0_compat; lra.
      - destruct (String.eqb _ _); [|apply Hitems].
        apply Qmult_le_0_compat; [apply Hitems | lra].
      - apply Qmult_le_0_compat; [apply Hitems | lra].
      - apply Qmult_le_0_compat; [apply Hitems | lra].
      - apply Qmult_le_0_compat; [apply Hitems | lra].
      - apply Qmult_le_0_compat; [apply Hitems | lra].
      - apply Qmult_le_0_compat; [apply Hitems | lra].
      - apply bounded_nonneg; apply Qmult_le_0_compat; try lra;
          (apply Qle_trans with 500; [lra | exact H]).
      - apply bounded_nonneg; apply Qmult_le_0_compat; try lra;
          (apply Qle_trans with 500; [lra | exact H]).
      - apply bounded_nonneg; [lra | apply Qmult_le_0_compat; lra].
      - apply Qmult_le_0_compat; lra.
      - apply Qmult_le_0_compat; lra. }
    split; [exact Hall|].
    rewrite expense_rules_total. now apply sum_values_nonneg.
Qed.

Lemma X14_witness :
  (forall k v,
     In (k, v) (fst (_apply_expense_rules property_25_years (Some 1200000) [])) ->
     0 <= v)
  /\ 0 <= snd (_apply_expense_rules property_25_years (Some 1200000) []).
Proof.
  apply (proj2 (proj2 (X14_adjusted_expenses_nonnegative
                         property_25_years 1200000 []))).
  - discriminate.
  - discriminate.
  - intros k. discriminate.
Defined.

(** X15.  When a rent roll was analysed: the adjusted vacancy is the larger
    of 5% of the annual GPI and the actual vacancy; property taxes are the
    actuals times 1.075 unless a transaction type other than "refinance" is
    given, when they are the actuals; the management fee is the GPI times a
    rate between 2.5% and 5% (5% up to a GPI of 500,000 included, 2.5% above
    2,000,000) and ignores the actual fee; replacement reserves are 250 a
    unit.  Admin fees lie between 1,000 and 400 a unit when that interval
    exists; for a property so small that 400 a unit is under 1,000, actual
    fees of 1,000 or more are cut to 400 a unit. *)
Theorem X15_expense_rule_values (info : PropertyInfo) (gpi : Q)
  (items : dict Q) :
  let adjusted := fst (_apply_expense_rules info (Some gpi) items) in
  let units := match unit_count info with Some n => n | None => 1 end in
  (exists v,
     dict_lookup adjusted "vacancy" = Some v
     /\ gpi * 0.05 <= v /\ dict_get items "vacancy" 0 <= v
     /\ (v = gpi * 0.05 \/ v = dict_get items "vacancy" 0))
  /\ (exists tax,
        dict_lookup adjusted "property_taxes" = Some tax
        /\ (transaction_type info = None
            \/ transaction_type info = Some "refinance"%string ->
            tax = dict_get items "property_taxes" 0 * 1.075)
        /\ (forall t, transaction_type info = Some t ->
              t <> "refinance"%string ->
              tax = dict_get items "property_taxes" 0))
  /\ (exists fee,
        dict_lookup adjusted "management_fee" = Some fee
        /\ fee = gpi * mgmt_rate gpi
        /\ (0 <= gpi -> gpi * 0.025 <= fee <= gpi * 0.05)
        /\ (gpi <= 500000 -> fee == gpi * 0.05)
        /\ (2000000 < gpi -> fee == gpi * 0.025))
  /\ (exists admin,
        dict_lookup adjusted "admin_fees" = Some admin
        /\ (1000 <= 400 * units -> 1000 <= admin <= 400 * units)
        /\ (400 * units < 1000 -> 1000 <= dict_get items "admin_fees" 0 ->
            admin = 400 * units))
  /\ dict_lookup adjusted "replacement_reserves" = Some (250 * units).
Proof.
  cbv zeta. rewrite expense_rules_entries. cbv zeta.
  split; [|split; [|split; [|split]]].
  - eexists. split; [reflexivity|]. unfold pymax.
    destruct (Qlt_bool (gpi * 0.05) (dict_get items "vacancy" 0)) eqn:E;
      reflect_order; repeat split; auto; lra.
  - eexists. split; [reflexivity|]. split.
    + intros [-> | ->]; reflexivity.
    + intros t -> Ht. apply String.eqb_neq in Ht. now rewrite Ht.
  - eexists. split; [reflexivity|]. split; [reflexivity|].
    pose proof (mgmt_rate_bounds gpi) as [Hlo Hhi]. split; [|split].
    + intros Hg. split.
      * rewrite !(Qmult_comm gpi). now apply Qmult_le_compat_r.
      * rewrite !(Qmult_comm gpi). now apply Qmult_le_compat_r.
    + intros Hg. unfold mgmt_rate. apply Qle_bool_iff in Hg. rewrite Hg.
      reflexivity.
    + intros Hg. unfold mgmt_rate.
      repeat match goal with
        | |- context [Qle_bool gpi ?b] =>
            let E := fresh "E" in
            destruct (Qle_bool gpi b) eqn:E;
            [apply Qle_bool_iff in E; exfalso; lra|]
        end.
      reflexivity.
  - eexists. split; [reflexivity|]. unfold bounded. split.
    + intros Hint.
      destruct (Qlt_bool (dict_get items "admin_fees" 0) 1000) eqn:E1;
        [lra|].
      destruct (Qlt_bool _ (dict_get items "admin_fees" 0)) eqn:E2;
        reflect_order; lra.
    + intros Hsmall Hact.
      destruct (Qlt_bool (dict_get items "admin_fees" 0) 1000) eqn:E1;
        reflect_order; [lra|].
      destruct (Qlt_bool _ (dict_get items "admin_fees" 0)) eqn:E2;
        reflect_order; [reflexivity | lra].
  - reflexivity.
Qed.

Lemma X15_witness :
  exists admin,
    dict_lookup
      (fst (_apply_expense_rules
              {| property_age := None; unit_count := None;
                 transaction_type := None |}
              (Some 0) [("admin_fees"%string, 5000)]))
      "admin_fees" = Some admin
    /\ (1000 <= 400 * 1 -> 1000 <= admin <= 400 * 1)
    /\ (400 * 1 < 1000 ->
        1000 <= dict_get [("admin_fees"%string, 5000)] "admin_fees" 0 ->
        admin = 400 * 1).
Proof.
  exact (proj1 (proj2 (proj2 (proj2
           (X15_expense_rule_values
              {| property_age := None; unit_count := None;
                 transaction_type := None |}
              0 [("admin_fees"%string, 5000)]))))).
Defined.

(** ** Analyzer summary: NOI *)

Lemma inject_Z_zero (z : Z) : inject_Z z == 0 <-> z = 0%Z.
Proof. change 0 with (inject_Z 0). apply inject_Z_injective. Qed.

(** X16.  Once a rent roll and then a T12 are loaded, the analyzer's summary
    raises [ZeroDivisionError] when the rent roll retained no unit (the
    occupancy rate divides by the total), and returns otherwise.  Its NOI is
    the annual GPI less the adjusted vacancy less the total of the adjusted
    expenses; as that total includes the vacancy, the vacancy is deducted
    twice.  When the rent roll had no rent column the summary returns with a
    GPI of 0. *)
Theorem X16_analyzer_noi (info : PropertyInfo) (items : dict Q) :
  (forall a,
     total_units a = 0%Z ->
     analyzer_generate_underwriting_summary
       (results_after_loading info (Some a) items)
     = Raise ZeroDivisionError)
  /\ (forall a,
        total_units a <> 0%Z ->
        exists inc noi v rest,
          analyzer_generate_underwriting_summary
            (results_after_loading info (Some a) items)
          = Ok (Some inc, noi)
          /\ fst (_apply_expense_rules info (Some (annual_gpi a)) items)
             = ("vacancy"%string, v) :: rest
          /\ IncomeSummary.occupancy_rate inc
             = inject_Z (occupied_units a) / inject_Z (total_units a) * 100
          /\ NoiAnalysis.gross_potential_income noi = annual_gpi a
          /\ NoiAnalysis.vacancy_loss noi = v
          /\ NoiAnalysis.effective_gross_income noi = annual_gpi a - v
          /\ NoiAnalysis.total_expenses noi
             == v + fold_right (fun kv acc => snd kv + acc) 0 rest
          /\ NoiAnalysis.net_operating_income noi
             == annual_gpi a - 2 * v
                - fold_right (fun kv acc => snd kv + acc) 0 rest)
  /\ (exists noi,
        analyzer_generate_underwriting_summary
          (results_after_loading info None items)
        = Ok (Some (IncomeSummary.mk 0 0 (0 * 12) (0 / 1 * 100)), noi)
        /\ NoiAnalysis.gross_potential_income noi = 0).
Proof.
  split; [|split].
  - intros a Hz.
    unfold analyzer_generate_underwriting_summary, income_summary_of,
      results_after_loading. simpl rent_roll_results. cbv beta iota.
    unfold pydiv. rewrite Hz. reflexivity.
  - intros a Hnz.
    unfold analyzer_generate_underwriting_summary, income_summary_of,
      results_after_loading. simpl rent_roll_results. simpl t12_results.
    cbv beta iota.
    rewrite pydiv_ok by (rewrite inject_Z_zero; exact Hnz).
    cbn [bind].
    pose proof (expense_rules_entries info (annual_gpi a) items) as E.
    pose proof (expense_rules_total info (Some (annual_gpi a)) items) as T.
    destruct (_apply_expense_rules info (Some (annual_gpi a)) items)
      as [adjusted total].
    cbn [fst snd] in E, T. cbv zeta in E. subst adjusted.
    do 4 eexists. split; [reflexivity|]. split; [reflexivity|].
    cbn [IncomeSummary.occupancy_rate NoiAnalysis.gross_potential_income
         NoiAnalysis.vacancy_loss NoiAnalysis.effective_gross_income
         NoiAnalysis.total_expenses NoiAnalysis.net_operating_income
         IncomeSummary.gross_potential_income].
    change (dict_get (("vacancy"%string, ?v) :: ?r) "vacancy" 0) with v.
    repeat split; trivial.
    + rewrite T, sum_values_total. cbn [fold_right snd]. reflexivity.
    + rewrite T, sum_values_total. cbn [fold_right snd]. ring.
  - eexists. split; [reflexivity|]. reflexivity.
Qed.

Lemma X16_witness :
  exists a,
    _analyze_rent_roll rent_roll_no_valid_rent = Some a
    /\ analyzer_generate_underwriting_summary
         (results_after_loading property_25_years (Some a) [])
       = Raise ZeroDivisionError.
Proof.
  eexists. split; [reflexivity|].
  apply (proj1 (X16_analyzer_noi property_25_years [])). reflexivity.
Defined.

(** ** Underwriting summary: the ledger *)

Lemma expense_lines_fields (items : dict Q) (adj : dict string) (egi : Q) :
  let shown := filter (fun kv => Qlt_bool 0 (snd kv)) items in
  map line_item (expense_lines items adj egi)
  = map (fun kv => title (replace_underscores (fst kv))) shown
  /\ map amount (expense_lines items adj egi) = map snd shown
  /\ map notes (expense_lines items adj egi)
     = map (fun kv => dict_get adj (fst kv) "No adjustment applied"%string) shown
  /\ map category (expense_lines items adj egi)
     = map (fun _ => "EXPENSE"%string) shown.
Proof.
  cbv zeta. induction items as [| [k v] items (IH1 & IH2 & IH3 & IH4)];
    simpl; [auto|].
  destruct (Qlt_bool 0 v); simpl; [|auto].
  now rewrite IH1, IH2, IH3, IH4.
Qed.

(** X17.  The summary lists, in this order, GPI, vacancy loss, other income
    and EGI, then one line for each adjusted expense that is positive, in
    the order of [adjusted_expenses] and under its title-cased key, then the
    total and the NOI.  Expenses that are zero or negative get no line.  The
    vacancy loss is shown as a non-positive amount, and the NOI line is the
    EGI line less the total line, where the EGI line shows 1 for a reported
    EGI of 0. *)
Theorem X17_summary_ledger (self : UnderwritingOutputGenerator) :
  let lines := generate_underwriting_summary self in
  let shown := filter (fun kv => Qlt_bool 0 (snd kv)) (adjusted_expenses self) in
  let egi := summary_egi self in
  let total :=
    match total_adjusted_expenses self with Some t => t | None => 0 end in
  map line_item lines
  = ["GROSS POTENTIAL INCOME"; "Vacancy Loss"; "Other Income";
     "EFFECTIVE GROSS INCOME"]%string
    ++ map (fun kv => title (replace_underscores (fst kv))) shown
    ++ ["TOTAL OPERATING EXPENSES"; "NET OPERATING INCOME"]%string
  /\ map amount lines
     = [dict_get (income_analysis self) "gross_potential_income" 0;
        - Qabs (dict_get (noi_analysis self) "vacancy_loss" 0);
        dict_get (income_analysis self) "other_income" 0;
        egi]
       ++ map snd shown ++ [total; egi - total]
  /\ - Qabs (dict_get (noi_analysis self) "vacancy_loss" 0) <= 0
  /\ (reported_egi self == 0 -> egi = 1)
  /\ (~ reported_egi self == 0 -> egi = reported_egi self)
  /\ List.length lines = (6 + List.length shown)%nat.
Proof.
  cbv zeta. unfold generate_underwriting_summary.
  destruct (expense_lines_fields (adjusted_expenses self) (adjustments self)
              (summary_egi self)) as (E1 & E2 & _).
  rewrite !map_app, E1, E2. cbn [map line_item amount _create_summary_line].
  split; [reflexivity|]. split; [reflexivity|]. split.
  - pose proof (Qabs_nonneg (dict_get (noi_analysis self) "vacancy_loss" 0)).
    lra.
  - split; [|split].
    + unfold summary_egi, reported_egi.
      intros H. apply Qeq_bool_iff in H. now rewrite H.
    + unfold summary_egi, reported_egi.
      intros H. apply Qeq_bool_false_iff in H. now rewrite H.
    + rewrite !length_app. cbn [List.length].
      rewrite <- (length_map amount (expense_lines _ _ _)), E2, length_map.
      lia.
Qed.

Lemma X17_witness :
  summary_egi generator_zero_egi = 1
  /\ summary_egi generator_half_egi = reported_egi generator_half_egi.
Proof.
  split.
  - apply (proj1 (proj2 (proj2 (proj2 (X17_summary_ledger generator_zero_egi))))).
    reflexivity.
  - apply (proj1 (proj2 (proj2 (proj2 (proj2
             (X17_summary_ledger generator_half_egi)))))).
    intros H. discriminate H.
Defined.

(** ** Table cleaner: column names *)

Lemma word_not_space (c : ascii) : is_word c = true -> is_space c = false.
Proof.
  intros H.
  destruct c as [[] [] [] [] [] [] [] []]; (reflexivity || discriminate H).
Qed.

Lemma keep_word_and_space_chars (s : string) (c : ascii) :
  In c (list_ascii_of_string (keep_word_and_space s)) ->
  In c (list_ascii_of_string s) /\ (is_word c = true \/ is_space c = true).
Proof.
  induction s as [| a s IH]; simpl; [tauto|].
  destruct (is_word a || is_space a)%bool eqn:E; simpl.
  - intros [<- | H].
    + split; [now left|]. now apply orb_true_iff.
    + destruct (IH H). split; [now right | assumption].
  - intros H. destruct (IH H). split; [now right | assumption].
Qed.

Lemma collapse_spaces_chars (after_space : bool) (s : string) (c : ascii) :
  In c (list_ascii_of_string (collapse_spaces after_space s)) ->
  is_space c = true -> c = " "%char.
Proof.
  revert after_space. induction s as [| a s IH]; intros b; simpl; [tauto|].
  destruct (is_space a) eqn:E.
  - destruct b; simpl.
    + apply IH.
    + intros [<- | H]; [reflexivity | now apply (IH true)].
  - simpl. intros [<- | H] Hc; [congruence | now apply (IH false)].
Qed.

Lemma lstrip_no_space (s : string) :
  forallb (fun c => negb (is_space c)) (list_ascii_of_string s) = true ->
  lstrip s = s.
Proof.
  destruct s as [| a s]; simpl; [reflexivity|].
  intros H. apply andb_true_iff in H as [H _].
  apply negb_true_iff in H. now rewrite H.
Qed.

Lemma rstrip_no_space (s : string) :
  forallb (fun c => negb (is_space c)) (list_ascii_of_string s) = true ->
  rstrip s = s.
Proof.
  induction s as [| a s IH]; simpl; [reflexivity|].
  intros H. apply andb_true_iff in H as [Ha Hs].
  rewrite (IH Hs). apply negb_true_iff in Ha. rewrite Ha.
  now destruct s.
Qed.

Lemma collapse_no_space (s : string) :
  forallb (fun c => negb (is_space c)) (list_ascii_of_string s) = true ->
  collapse_spaces false s = s.
Proof.
  induction s as [| a s IH]; simpl; [reflexivity|].
  intros H. apply andb_true_iff in H as [Ha Hs].
  apply negb_true_iff in Ha. rewrite Ha. now rewrite (IH Hs).
Qed.

Lemma keep_all_word (s : string) :
  forallb is_word (list_ascii_of_string s) = true ->
  keep_word_and_space s = s.
Proof.
  induction s as [| a s IH]; simpl; [reflexivity|].
  intros H. apply andb_true_iff in H as [Ha Hs].
  rewrite Ha. simpl. now rewrite (IH Hs).
Qed.

Lemma all_word_no_space (l : list ascii) :
  forallb is_word l = true ->
  forallb (fun c => negb (is_space c)) l = true.
Proof.
  induction l as [| a l IH]; simpl; [reflexivity|].
  intros H. apply andb_true_iff in H as [Ha Hl].
  now rewrite (word_not_space a Ha), (IH Hl).
Qed.

(** X18.  For a column label in plain ASCII, or a missing one, the cleaned
    name is never empty; it holds only letters, digits, underscores and the
    space character (tabs and line breaks have become spaces); a non-empty
    label made of letters, digits and underscores only is returned
    unchanged; and a label that cleaning would leave empty becomes
    "Unknown". *)
Theorem X18_clean_column_name (col : cell) :
  (forall name, col = Some name -> plain_ascii name = true) ->
  _clean_column_name col <> ""%string
  /\ (forall c, In c (list_ascii_of_string (_clean_column_name col)) ->
        is_word c = true \/ c = " "%char)
  /\ (forall name, col = Some name -> name <> ""%string ->
        forallb is_word (list_ascii_of_string name) = true ->
        _clean_column_name col = name)
  /\ (forall name, col = Some name ->
        keep_word_and_space (collapse_spaces false (strip name)) = ""%string ->
        _clean_column_name col = "Unknown"%string).
Proof.
  intros _.
  assert (U : forall c, In c (list_ascii_of_string "Unknown") ->
                        is_word c = true \/ c = " "%char).
  { intros c H. left. cbn [list_ascii_of_string In] in H.
    repeat destruct H as [<- | H]; try reflexivity. contradiction. }
  unfold _clean_column_name. destruct col as [name|].
  - split; [|split; [|split]].
    + destruct (String.eqb_spec
                  (keep_word_and_space (collapse_spaces false (strip name))) "");
        [discriminate | assumption].
    + intros c. destruct (String.eqb _ ""); [apply U|].
      intros H. apply keep_word_and_space_chars in H as [H [W | S]];
        [now left | right].
      exact (collapse_spaces_chars _ _ _ H S).
    + intros n [= <-] Hne Hw.
      pose proof (all_word_no_space _ Hw) as Hs.
      unfold strip.
      rewrite (lstrip_no_space _ Hs), (rstrip_no_space _ Hs),
        (collapse_no_space _ Hs), (keep_all_word _ Hw).
      destruct (String.eqb_spec name ""); [contradiction | reflexivity].
    + intros n [= <-] ->. reflexivity.
  - split; [discriminate|]. split; [exact U|]. split; discriminate.
Qed.

Lemma X18_witness :
  _clean_column_name (Some "Unit_No"%string) = "Unit_No"%string
  /\ _clean_column_name (Some " $ "%string) = "Unknown"%string
  /\ (is_word "R" = true \/ "R"%char = " "%char).
Proof.
  split; [|split].
  - apply (proj1 (proj2 (proj2 (X18_clean_column_name (Some "Unit_No"%string)
                                  ltac:(intros name [= <-]; reflexivity))))
             "Unit_No"%string); [reflexivity | discriminate | reflexivity].
  - apply (proj2 (proj2 (proj2 (X18_clean_column_name (Some " $ "%string)
                                  ltac:(intros name [= <-]; reflexivity))))
             " $ "%string); reflexivity.
  - apply (proj1 (proj2 (X18_clean_column_name (Some "Rent ($)"%string)
                           ltac:(intros name [= <-]; reflexivity)))).
    cbv. tauto.
Defined.

(** ** Table cleaner: the threshold on populated cells *)

(** X19.  The last step of the cleaner keeps a row exactly when the row has
    at least max(1, floor(0.3 x columns)) populated cells, and keeps the
    order of the rows.  So a row with no populated cell is always removed, a
    row with a populated cell and at least 30% of the columns populated is
    always kept, and with fewer than seven columns one populated cell is
    enough. *)
Theorem X19_threshold_step (df : DataFrame) :
  let n := List.length (columns df) in
  let out := dropna_thresh (threshold n) df in
  columns out = columns df
  /\ rows out = filter (fun row => (threshold n <=? populated row)%nat) (rows df)
  /\ (forall row, In row (rows out) ->
        In row (rows df) /\ (1 <= populated row)%nat
        /\ (3 * n < 10 * populated row + 10)%nat)
  /\ (forall row, In row (rows df) -> (1 <= populated row)%nat ->
        (3 * n <= 10 * populated row)%nat -> In row (rows out))
  /\ (forall row, In row (rows df) -> (1 <= populated row)%nat ->
        (n < 7)%nat -> In row (rows out)).
Proof.
  cbv zeta. split; [reflexivity|]. split; [reflexivity|].
  assert (T : forall k,
             (threshold (List.length (columns df)) <= k)%nat
             <-> (1 <= k)%nat
                 /\ (3 * List.length (columns df) / 10 <= k)%nat).
  { intros k. unfold threshold. lia. }
  split; [|split].
  - intros row H. apply dropna_thresh_In in H as [H Ht].
    apply T in Ht as [H1 H3]. split; [assumption|]. split; [assumption|].
    pose proof (Nat.div_mod_eq (3 * List.length (columns df)) 10) as D.
    pose proof (Nat.mod_upper_bound (3 * List.length (columns df)) 10) as M.
    lia.
  - intros row H H1 H3. apply dropna_thresh_In. split; [assumption|].
    apply T. split; [assumption|].
    apply Nat.Div0.div_le_upper_bound. lia.
  - intros row H H1 Hn. apply dropna_thresh_In. split; [assumption|].
    apply T. split; [assumption|].
    apply Nat.le_trans with 1%nat; [|assumption].
    apply Nat.lt_succ_r. apply Nat.Div0.div_lt_upper_bound. lia.
Qed.

Lemma X19_witness :
  In sparse_row
    (rows (dropna_thresh (threshold (List.length (columns table_with_sparse_row)))
             table_with_sparse_row)).
Proof.
  apply (proj2 (proj2 (proj2 (proj2 (X19_threshold_step table_with_sparse_row))))).
  - right. left. reflexivity.
  - unfold populated. simpl. lia.
  - simpl. lia.
Defined.

(** ** Table cleaner: row labels *)

Section RowLabels.

Local Open Scope nat_scope.

Lemma map_snd_combine_seq {A : Type} (k : nat) (l : list A) :
  map snd (combine (seq k (List.length l)) l) = l.
Proof.
  revert k. induction l as [| a l IH]; intros k; simpl; [reflexivity|].
  now rewrite IH.
Qed.

Lemma map_fst_combine_seq {A : Type} (k : nat) (l : list A) :
  map fst (combine (seq k (List.length l)) l) = seq k (List.length l).
Proof.
  revert k. induction l as [| a l IH]; intros k; simpl; [reflexivity|].
  now rewrite IH.
Qed.

Lemma values_default_index (df : DataFrame) : values (default_index df) = df.
Proof.
  destruct df as [cols rs]. unfold values, default_index. simpl.
  now rewrite map_snd_combine_seq.
Qed.

Lemma values_idropna_rows_all (f : IndexedFrame) :
  values (idropna_rows_all f) = dropna_rows_all (values f).
Proof.
  unfold values, idropna_rows_all, dropna_rows_all. simpl. f_equal.
  induction (irows f) as [| r l IH]; simpl; [reflexivity|].
  destruct (existsb notna (snd r)); simpl; now rewrite IH.
Qed.

Lemma values_idropna_columns_all (f : IndexedFrame) :
  values (idropna_columns_all f) = dropna_columns_all (values f).
Proof.
  unfold values, idropna_columns_all, dropna_columns_all. simpl. f_equal.
  now rewrite !map_map.
Qed.

Lemma values_idropna_thresh (t : nat) (f : IndexedFrame) :
  values (idropna_thresh t f) = dropna_thresh t (values f).
Proof.
  unfold values, idropna_thresh, dropna_thresh. simpl. f_equal.
  induction (irows f) as [| r l IH]; simpl; [reflexivity|].
  destruct (t <=? populated (snd r)); simpl; now rewrite IH.
Qed.

Lemma duplicates_from_In (pos : nat) (h : list string)
  (others : list (nat * list cell)) (q : nat) :
  In q (duplicates_from pos h others)
  <-> exists i r, q = pos + i /\ nth_error others i = Some r
                  /\ row_equals (normalized_row (snd r)) h = true.
Proof.
  revert pos. induction others as [| r0 others IH]; intros pos; simpl.
  - split; [tauto|]. intros (i & r & _ & H & _). now destruct i.
  - split.
    + intros H.
      assert (C : (q = pos /\ row_equals (normalized_row (snd r0)) h = true)
                  \/ In q (duplicates_from (S pos) h others)).
      { destruct (row_equals (normalized_row (snd r0)) h);
          [destruct H as [<- | H]; auto | auto]. }
      destruct C as [[-> E] | H'].
      * exists 0, r0. repeat split; [lia | assumption].
      * apply IH in H' as (i & r & -> & Hn & E).
        exists (S i), r. repeat split; [lia | assumption | assumption].
    + intros (i & r & -> & Hn & E). destruct i as [| i].
      * injection Hn as <-. rewrite E. left. lia.
      * assert (H' : In (pos + S i) (duplicates_from (S pos) h others)).
        { apply IH. exists i, r. repeat split; [lia | assumption | assumption]. }
        destruct (row_equals (normalized_row (snd r0)) h); [now right | assumption].
Qed.

Lemma label_at_position (pos : nat) (others : list (nat * list cell))
  (i : nat) (r : nat * list cell) :
  map fst others = seq pos (List.length others) ->
  nth_error others i = Some r -> fst r = pos + i.
Proof.
  intros L H.
  pose proof (map_nth_error fst _ _ H) as H1. rewrite L in H1.
  assert (Hi : i < List.length others).
  { apply nth_error_Some. congruence. }
  rewrite (nth_error_nth' _ 0) in H1 by now rewrite length_seq.
  rewrite seq_nth in H1 by assumption. congruence.
Qed.

Lemma existsb_eqb_In (x : nat) (l : list nat) :
  existsb (Nat.eqb x) l = true <-> In x l.
Proof.
  rewrite existsb_exists. split.
  - intros (y & H & E). apply Nat.eqb_eq in E. now subst.
  - intros H. exists x. split; [assumption | apply Nat.eqb_refl].
Qed.

Lemma has_label_In (f : IndexedFrame) (l : nat) :
  has_label f l = true <-> In l (map fst (irows f)).
Proof.
  unfold has_label. rewrite existsb_exists, in_map_iff. split.
  - intros (r & H & E). apply Nat.eqb_eq in E. now exists r.
  - intros (r & E & H). exists r. split; [assumption | now apply Nat.eqb_eq].
Qed.


Lemma map_filter_ext {A B : Type} (f : A -> B) (g : A -> bool) (g' : B -> bool)
  (l : list A) :
  (forall x, In x l -> g x = g' (f x)) ->
  map f (filter g l) = filter g' (map f l).
Proof.
  induction l as [| a l IH]; simpl; [reflexivity|].
  intros H. rewrite <- (H a) by now left.
  destruct (g a); simpl; rewrite IH; auto.
Qed.

(** On a frame labelled by position, [drop] removes the repeats of the first
    row and nothing else. *)
Lemma remove_duplicate_headers_positional (f : IndexedFrame) :
  map fst (irows f) = seq 0 (List.length (irows f)) ->
  exists out,
    i_remove_duplicate_headers f = Frame out
    /\ values out = _remove_duplicate_headers (values f).
Proof.
  intros L. unfold i_remove_duplicate_headers, _remove_duplicate_headers.
  replace (List.length (rows (values f))) with (List.length (irows f))
    by (unfold values; simpl; now rewrite length_map).
  destruct (empty (values f) || (List.length (irows f) <? 2)) eqn:C.
  - now exists f.
  - unfold duplicate_indices, drop.
    destruct f as [cols [| first others]]; simpl in *.
    + exists {| icolumns := cols; irows := [] |}. split; reflexivity.
    + injection L as L0 L1.
      set (h := normalized_row (snd first)).
      assert (D : forall r, In r others ->
                  existsb (Nat.eqb (fst r)) (duplicates_from 1 h others)
                  = row_equals (normalized_row (snd r)) h).
      { intros r Hr. apply In_nth_error in Hr as [i Hi].
        pose proof (label_at_position 1 others i r L1 Hi) as Hl.
        apply eq_true_iff_eq. rewrite existsb_eqb_In, duplicates_from_In.
        split.
        - intros (i' & r' & E & Hn & Hd).
          assert (i' = i) by lia. subst i'. congruence.
        - intros Hd. exists i, r. auto. }
      assert (Z : existsb (Nat.eqb (fst first)) (duplicates_from 1 h others) = false).
      { apply not_true_is_false. rewrite existsb_eqb_In, duplicates_from_In.
        intros (i & r & E & _). lia. }
      assert (K : forallb
                    (has_label {| icolumns := cols; irows := first :: others |})
                    (duplicates_from 1 h others) = true).
      { apply forallb_forall. intros q Hq. apply has_label_In. simpl.
        apply duplicates_from_In in Hq as (i & r & -> & Hn & _).
        right. rewrite L1. apply in_seq.
        assert (i < List.length others) by (apply nth_error_Some; congruence).
        lia. }
      rewrite K. eexists. split; [reflexivity|].
      unfold values. simpl. rewrite Z. simpl. f_equal. f_equal.
      apply map_filter_ext. intros r Hr. now rewrite D.
Qed.

Lemma remove_duplicate_headers_none (f : IndexedFrame) :
  duplicate_indices f = [] ->
  i_remove_duplicate_headers f = Frame f
  /\ _remove_duplicate_headers (values f) = values f.
Proof.
  intros N. unfold i_remove_duplicate_headers, _remove_duplicate_headers.
  replace (List.length (rows (values f))) with (List.length (irows f))
    by (unfold values; simpl; now rewrite length_map).
  destruct (empty (values f) || (List.length (irows f) <? 2)) eqn:C;
    [split; reflexivity|].
  rewrite N. unfold drop. simpl.
  destruct f as [cols rs]. simpl in *. split.
  - f_equal. f_equal. apply forallb_filter_id. apply forallb_forall.
    reflexivity.
  - unfold duplicate_indices in N. simpl in N.
    destruct rs as [| first others]; [reflexivity|]. simpl.
    unfold values. simpl. f_equal. f_equal.
    rewrite <- (map_filter_ext snd
                  (fun r => negb (row_equals (normalized_row (snd r))
                                    (normalized_row (snd first))))
                  _ others) by reflexivity.
    f_equal. apply forallb_filter_id. apply forallb_forall. intros r Hr.
    apply negb_true_iff. apply not_true_is_false. intros E.
    apply In_nth_error in Hr as [i Hi].
    assert (H : In (1 + i) (duplicates_from 1 (normalized_row (snd first)) others)).
    { apply duplicates_from_In. exists i, r. auto. }
    now rewrite N in H.
Qed.

Lemma values_clean_after_headers (f : IndexedFrame) :
  values (i_clean_after_headers f)
  = (let df := values f in
     let df :=
       if negb (empty df)
       then {| columns := map (fun col => Some (_clean_column_name col)) (columns df);
               rows := rows df |}
       else df in
     if negb (empty df)
     then dropna_thresh (threshold (List.length (columns df))) df
     else df).
Proof.
  destruct f as [cols rs]. unfold i_clean_after_headers, values. cbv zeta.
  cbn [icolumns irows columns rows].
  destruct cols as [| c cols]; [reflexivity|].
  destruct rs as [| r rs]; [reflexivity|].
  cbn [empty columns rows map negb icolumns irows].
  exact (values_idropna_thresh _ {| icolumns := _; irows := r :: rs |}).
Qed.

Lemma labels_without_empty_rows (df : DataFrame) :
  (forall row, In row (rows df) -> existsb notna row = true) ->
  let f := without_empty_rows_and_columns (default_index df) in
  map fst (irows f) = seq 0 (List.length (irows f)).
Proof.
  intros H. cbv zeta. unfold without_empty_rows_and_columns, idropna_columns_all.
  cbn [irows]. rewrite length_map, map_map. cbn [fst].
  unfold idropna_rows_all, default_index. cbn [irows].
  rewrite forallb_filter_id.
  - rewrite length_combine, length_seq, Nat.min_id.
    apply (map_fst_combine_seq 0 (rows df)).
  - apply forallb_forall. intros [l row] Hr. apply in_combine_r in Hr.
    now apply H.
Qed.

(** X20.  [_remove_duplicate_headers] finds the repeats of the first row by
    position and removes them by label.  For a table read with the default
    index that has no entirely empty row, or in which no row repeats the
    first row that is left, the two coincide: the cleaner raises no
    [KeyError] and returns exactly the table obtained by removing the rows
    by position. *)
Theorem X20_positions_and_labels_agree (df : DataFrame) :
  (forall row, In row (rows df) -> existsb notna row = true)
  \/ duplicate_indices (without_empty_rows_and_columns (default_index df)) = [] ->
  exists out,
    i_clean_dataframe (default_index df) = Frame out
    /\ values out = _clean_dataframe df.
Proof.
  intros H. unfold i_clean_dataframe, _clean_dataframe.
  rewrite values_default_index.
  destruct (empty df) eqn:E.
  - exists (default_index df). split; [reflexivity | apply values_default_index].
  - set (f1 := without_empty_rows_and_columns (default_index df)) in *.
    assert (V : values f1 = dropna_columns_all (dropna_rows_all df)).
    { unfold f1, without_empty_rows_and_columns.
      now rewrite values_idropna_columns_all, values_idropna_rows_all,
        values_default_index. }
    assert (R : exists f2, i_remove_duplicate_headers f1 = Frame f2
                           /\ values f2 = _remove_duplicate_headers (values f1)).
    { destruct H as [H | H].
      - apply remove_duplicate_headers_positional.
        now apply labels_without_empty_rows.
      - destruct (remove_duplicate_headers_none f1 H) as [H1 H2].
        exists f1. split; [assumption | now rewrite H2]. }
    destruct R as (f2 & -> & V2). eexists. split; [reflexivity|].
    rewrite values_clean_after_headers, V2, V. reflexivity.
Qed.

Lemma X20_witness :
  exists out,
    i_clean_dataframe (default_index table_with_sparse_row) = Frame out
    /\ values out = _clean_dataframe table_with_sparse_row.
Proof.
  apply (X20_positions_and_labels_agree table_with_sparse_row). left.
  intros row [<- | [<- | []]]; reflexivity.
Defined.

Lemma labels_after_dropna (P : list cell -> bool) (rs : list (list cell))
  (k p l : nat) (row : list cell) :
  nth_error (filter (fun r => P (snd r)) (combine (seq k (List.length rs)) rs)) p
  = Some (l, row) ->
  k <= l /\ nth_error rs (l - k) = Some row /\ P row = true
  /\ l = k + p + List.length (filter (fun r => negb (P r)) (firstn (l - k) rs)).
Proof.
  revert k p. induction rs as [| r rs IH]; intros k p; simpl.
  - now destruct p.
  - destruct (P r) eqn:E; simpl.
    + destruct p as [| p]; simpl.
      * intros [= <- <-]. rewrite Nat.sub_diag. simpl. repeat split; auto; lia.
      * intros H. apply IH in H as (H1 & H2 & H3 & H4).
        replace (l - k) with (S (l - S k)) by lia. simpl. rewrite E. simpl.
        repeat split; auto; lia.
    + intros H. apply IH in H as (H1 & H2 & H3 & H4).
      replace (l - k) with (S (l - S k)) by lia. simpl. rewrite E. simpl.
      repeat split; auto; lia.
Qed.

(** X21.  After the empty rows and columns are dropped, a row keeps the
    position it had in the extracted table as its label: the row at position
    [p] with label [l] is row [l] of the input restricted to the columns
    kept, it has a populated cell, and [l] exceeds [p] by the number of
    entirely empty rows above it. *)
Theorem X21_labels_after_empty_rows (df : DataFrame) (p l : nat)
  (row : list cell) :
  nth_error (irows (without_empty_rows_and_columns (default_index df))) p
  = Some (l, row) ->
  exists row0,
    nth_error (rows df) l = Some row0
    /\ existsb notna row0 = true
    /\ row = select (kept_columns (dropna_rows_all df)) row0
    /\ l = p + List.length
                 (filter (fun r => negb (existsb notna r)) (firstn l (rows df))).
Proof.
  unfold without_empty_rows_and_columns, idropna_columns_all. cbn [irows].
  rewrite values_idropna_rows_all, values_default_index.
  intros H. rewrite nth_error_map in H.
  destruct (nth_error (irows (idropna_rows_all (default_index df))) p)
    as [[l0 row0] |] eqn:N; [|discriminate].
  simpl in H. injection H as -> <-.
  apply (labels_after_dropna (existsb notna)) in N as (_ & H2 & H3 & H4).
  rewrite Nat.sub_0_r in H2, H4. exists row0. auto.
Qed.

Lemma X21_witness :
  exists row0,
    nth_error (rows table_with_leading_gap) 3 = Some row0
    /\ existsb notna row0 = true
    /\ [Some "Unit"; Some "Rent"]%string
       = select (kept_columns (dropna_rows_all table_with_leading_gap)) row0
    /\ 3 = 2 + List.length
                 (filter (fun r => negb (existsb notna r))
                    (firstn 3 (rows table_with_leading_gap))).
Proof.
  apply (X21_labels_after_empty_rows table_with_leading_gap 2 3
           [Some "Unit"; Some "Rent"]%string).
  reflexivity.
Defined.

(** X22.  When the last row that repeats the first row carries a label
    larger than its position (an empty row above it was dropped), removing
    the duplicate headers does not remove it: the call raises [KeyError] or
    the repeat is still in the result.  And when the position of a repeat is
    not a label of the frame, the call raises [KeyError]. *)
Theorem X22_repeat_kept_when_label_differs (f : IndexedFrame) :
  (forall p l row,
     nth_error (irows f) p = Some (l, row) ->
     In p (duplicate_indices f) ->
     (forall q, In q (duplicate_indices f) -> q <= p) ->
     p < l ->
     (exists first others,
        irows f = first :: others
        /\ row_equals (normalized_row row) (normalized_row (snd first)) = true)
     /\ (i_remove_duplicate_headers f = KeyError
         \/ exists out, i_remove_duplicate_headers f = Frame out
                        /\ In (l, row) (irows out)))
  /\ (forall q,
        In q (duplicate_indices f) -> has_label f q = false ->
        icolumns f <> [] ->
        i_remove_duplicate_headers f = KeyError).
Proof.
  split.
  - intros p l row Hn Hp Hmax Hl. split.
    + unfold duplicate_indices in Hp.
      destruct (irows f) as [| first others]; [contradiction|].
      exists first, others. split; [reflexivity|].
      apply duplicates_from_In in Hp as (i & r & -> & Hi & E).
      simpl in Hn. now replace r with (l, row) in E by congruence.
    + unfold i_remove_duplicate_headers.
      destruct (empty (values f) || (List.length (irows f) <? 2)).
      * right. exists f. split; [reflexivity|]. eapply nth_error_In; eauto.
      * unfold drop. destruct (forallb (has_label f) (duplicate_indices f));
          [right | now left].
        eexists. split; [reflexivity|]. cbn [irows]. apply filter_In. split.
        -- eapply nth_error_In; eauto.
        -- cbn [fst]. apply negb_true_iff. apply not_true_is_false.
           rewrite existsb_eqb_In. intros H. apply Hmax in H. lia.
  - intros q Hq Hlab Hcols. unfold i_remove_duplicate_headers.
    assert (C : empty (values f) || (List.length (irows f) <? 2) = false).
    { unfold duplicate_indices in Hq. unfold empty, values. cbn [columns rows].
      destruct (icolumns f); [contradiction|].
      destruct (irows f) as [| first [| r others]]; try contradiction.
      reflexivity. }
    rewrite C. unfold drop.
    replace (forallb (has_label f) (duplicate_indices f)) with false;
      [reflexivity|].
    symmetry. apply not_true_is_false. intros H.
    rewrite forallb_forall in H. rewrite (H q Hq) in Hlab. discriminate.
Qed.

Lemma X22_witness :
  (i_remove_duplicate_headers
     (without_empty_rows_and_columns (default_index table_with_leading_gap))
   = KeyError
   \/ exists out,
        i_remove_duplicate_headers
          (without_empty_rows_and_columns (default_index table_with_leading_gap))
        = Frame out
        /\ In (3, [Some "Unit"; Some "Rent"]%string) (irows out))
  /\ i_remove_duplicate_headers
       (without_empty_rows_and_columns (default_index table_with_gap))
     = KeyError.
Proof.
  split.
  - apply (proj1 (X22_repeat_kept_when_label_differs
                    (without_empty_rows_and_columns
                       (default_index table_with_leading_gap)))
             2 3 [Some "Unit"; Some "Rent"]%string).
    + reflexivity.
    + left. reflexivity.
    + intros q [<- | []]. lia.
    + lia.
  - apply (proj2 (X22_repeat_kept_when_label_differs
                    (without_empty_rows_and_columns
                       (default_index table_with_gap)))
             1).
    + left. reflexivity.
    + reflexivity.
    + discriminate.
Defined.

(** The two tables through the whole cleaner: the first call raises, the
    second removes the unit row and keeps both header rows. *)
Example clean_table_with_gap :
  i_clean_dataframe (default_index table_with_gap) = KeyError.
Proof. reflexivity. Qed.

Example clean_table_with_leading_gap :
  exists out,
    i_clean_dataframe (default_index table_with_leading_gap) = Frame out
    /\ irows out = [ (1, [Some "Unit"; Some "Rent"]);
                     (3, [Some "Unit"; Some "Rent"]) ]%string.
Proof. eexists. split; reflexivity. Qed.

End RowLabels.

(** ** Choosing among the extracted tables *)

Lemma count_column_le (df : DataFrame) (col : nat) :
  (count_column df col <= List.length (rows df))%nat.
Proof. unfold count_column. apply filter_length_le. Qed.

Lemma sum_bounded (f : nat -> nat) (b : nat) (l : list nat) :
  (forall x, f x <= b)%nat ->
  (fold_right Nat.add 0 (map f l) <= List.length l * b)%nat.
Proof.
  intros H. induction l as [| a l IH]; simpl; [lia|].
  pose proof (H a). lia.
Qed.

Lemma filled_cells_le (df : DataFrame) :
  (filled_cells df <= List.length (rows df) * List.length (columns df))%nat.
Proof.
  unfold filled_cells.
  pose proof (sum_bounded (count_column df) (List.length (rows df))
                (seq 0 (List.length (columns df))) (count_column_le df)) as H.
  rewrite length_seq in H. lia.
Qed.

Lemma of_nat_le (a b : nat) : (a <= b)%nat -> of_nat a <= of_nat b.
Proof.
  intros H. unfold of_nat. rewrite <- Zle_Qle. lia.
Qed.

Lemma of_nat_mul (a b : nat) : of_nat (a * b) == of_nat a * of_nat b.
Proof.
  unfold of_nat. rewrite Nat2Z.inj_mul, inject_Z_mult. reflexivity.
Qed.

Lemma of_nat_pos (a : nat) : (0 < a)%nat -> 0 < of_nat a.
Proof.
  intros H. unfold of_nat. change 0 with (inject_Z 0). rewrite <- Zlt_Qlt. lia.
Qed.

Lemma not_empty_sizes (df : DataFrame) :
  empty df = false ->
  (0 < List.length (rows df))%nat /\ (0 < List.length (columns df))%nat.
Proof.
  unfold empty. destruct (columns df), (rows df); simpl; try discriminate.
  lia.
Qed.

(** X23.  The quality score of an empty table is 0.  The score of any other
    table lies above -1 and is at most 11; it is above 2 when the table has
    3 to 15 columns, at most 8 when it has fewer than 3 columns, and at most
    10 for a table without a method or an accuracy (only a camelot table
    with accuracy above 80 earns the last point). *)
Theorem X23_quality_score_bounds (t : Table) :
  (empty (frame t) = true -> _calculate_table_quality_score t = 0)
  /\ (empty (frame t) = false ->
      -1 < _calculate_table_quality_score t <= 11
      /\ ((3 <= List.length (columns (frame t)) <= 15)%nat ->
          2 < _calculate_table_quality_score t)
      /\ ((List.length (columns (frame t)) < 3)%nat ->
          _calculate_table_quality_score t <= 8)
      /\ (method t = None \/ accuracy t = None ->
          _calculate_table_quality_score t <= 10)).
Proof.
  unfold _calculate_table_quality_score. split; [now intros ->|].
  intros E. rewrite E. cbv zeta.
  destruct (not_empty_sizes _ E) as [Hr Hc].
  set (n := of_nat (List.length (rows (frame t)))).
  set (c := of_nat (List.length (columns (frame t)))).
  set (f := of_nat (filled_cells (frame t))).
  assert (Hn : 0 < n) by now apply of_nat_pos.
  assert (Hcp : 0 < c) by now apply of_nat_pos.
  assert (Hnc : 0 < n * c) by now apply Qmult_lt_0_compat.
  assert (Hf0 : 0 <= f).
  { unfold f, of_nat. change 0 with (inject_Z 0). rewrite <- Zle_Qle. lia. }
  assert (Hf1 : f <= n * c).
  { unfold f, n, c. rewrite <- of_nat_mul. apply of_nat_le, filled_cells_le. }
  assert (S0 : 0 < Qmin (n * c / 100) 5).
  { apply Q.min_glb_lt; [|reflexivity].
    apply Qlt_shift_div_l; [reflexivity | lra]. }
  assert (S1 : Qmin (n * c / 100) 5 <= 5) by apply Q.le_min_r.
  assert (C0 : 0 <= f / (n * c) * 3).
  { apply Qmult_le_0_compat; [|discriminate].
    apply Qle_shift_div_l; [assumption | lra]. }
  assert (C1 : f / (n * c) * 3 <= 3).
  { assert (f / (n * c) <= 1) by (apply Qle_shift_div_r; [assumption | lra]).
    lra. }
  set (s := Qmin (n * c / 100) 5) in *.
  set (k := f / (n * c) * 3) in *.
  set (m := contains "camelot" _ && Qlt_bool 80 _).
  assert (M : forall x, (if m then x + 1 else x) <= x + 1
                        /\ x <= (if m then x + 1 else x)).
  { intros x. destruct m; split; lra. }
  split; [|split; [|split]].
  - destruct ((3 <=? _)%nat && (_ <=? 15)%nat);
      [|destruct (_ <? 3)%nat];
      match goal with |- _ < (if m then ?x + 1 else ?x) <= _ =>
        destruct (M x) end; split; lra.
  - intros [H3 H15].
    apply Nat.leb_le in H3, H15. rewrite H3, H15. cbn [andb].
    match goal with |- _ < (if m then ?x + 1 else ?x) => destruct (M x) end.
    lra.
  - intros H. assert (H3 : (3 <=? List.length (columns (frame t)))%nat = false)
      by (apply Nat.leb_gt; lia).
    rewrite H3. cbn [andb]. apply Nat.ltb_lt in H. rewrite H.
    match goal with |- (if m then ?x + 1 else ?x) <= _ => destruct (M x) end.
    lra.
  - intros H. assert (Hm : m = false).
    { unfold m. destruct H as [-> | ->].
      - reflexivity.
      - apply andb_false_r. }
    rewrite Hm.
    destruct ((3 <=? _)%nat && (_ <=? 15)%nat);
      [|destruct (_ <? 3)%nat]; lra.
Qed.

Lemma X23_witness :
  2 < _calculate_table_quality_score
        {| frame := filled_table 2; page := Some 1%Z;
           method := Some "pdfplumber"%string; accuracy := None;
           quality_score := None |}
  /\ _calculate_table_quality_score
       {| frame := filled_table 2; page := Some 1%Z;
          method := Some "pdfplumber"%string; accuracy := None;
          quality_score := None |} <= 10.
Proof.
  split.
  - match goal with
    | |- 2 < _calculate_table_quality_score ?t =>
        apply (proj1 (proj2 (proj2 (X23_quality_score_bounds t) eq_refl)))
    end.
    simpl. lia.
  - match goal with
    | |- _calculate_table_quality_score ?t <= 10 =>
        apply (proj2 (proj2 (proj2 (proj2 (X23_quality_score_bounds t) eq_refl))))
    end.
    right. reflexivity.
Defined.

Lemma insert_by_score_In (x t : Table) (l : list Table) :
  In x (insert_by_score t l) <-> x = t \/ In x l.
Proof.
  induction l as [| y l IH]; simpl; [intuition auto|].
  destruct (Qlt_bool (score_of t) (score_of y)); simpl; rewrite ?IH;
    intuition auto.
Qed.

Lemma sort_by_score_In (x : Table) (l : list Table) :
  In x (sort_by_score l) <-> In x l.
Proof.
  induction l as [| y l IH]; simpl; [tauto|].
  rewrite insert_by_score_In, IH. intuition auto.
Qed.

Lemma insert_by_score_ordered (t : Table) (l : list Table) :
  ordered_by_score l -> ordered_by_score (insert_by_score t l).
Proof.
  induction l as [| y l IH]; simpl.
  - intros _. split; [intros ? [] | exact I].
  - intros [Hy Hl]. destruct (Qlt_bool (score_of t) (score_of y)) eqn:E.
    + apply Qlt_bool_iff in E. simpl. split; [|now apply IH].
      intros t' H. apply insert_by_score_In in H as [-> | H];
        [now apply Qlt_le_weak | now apply Hy].
    + apply Qlt_bool_false_iff in E. simpl. split; [|split; assumption].
      intros t' [<- | H]; [assumption|].
      apply Qle_trans with (score_of y); [now apply Hy | assumption].
Qed.

Lemma sort_by_score_ordered (l : list Table) :
  ordered_by_score (sort_by_score l).
Proof.
  induction l as [| y l IH]; simpl; [exact I|].
  now apply insert_by_score_ordered.
Qed.

Lemma existsb_Zeqb_In (x : Z) (l : list Z) :
  existsb (Z.eqb x) l = true <-> In x l.
Proof.
  rewrite existsb_exists. split.
  - intros (y & H & E). apply Z.eqb_eq in E. now subst.
  - intros H. exists x. split; [assumption | apply Z.eqb_refl].
Qed.

Lemma first_per_page_In (seen : list Z) (l : list Table) (t : Table) :
  In t (first_per_page seen l) -> In t l /\ ~ In (page_of t) seen.
Proof.
  revert seen. induction l as [| a l IH]; intros seen; simpl; [tauto|].
  destruct (existsb (Z.eqb (page_of a)) seen) eqn:E.
  - intros H. apply IH in H as [H1 H2]. auto.
  - intros [<- | H].
    + split; [now left|]. rewrite <- existsb_Zeqb_In. congruence.
    + apply IH in H as [H1 H2]. split; [now right|].
      intros H3. apply H2. now right.
Qed.

Lemma first_per_page_NoDup (seen : list Z) (l : list Table) :
  NoDup (map page_of (first_per_page seen l)).
Proof.
  revert seen. induction l as [| a l IH]; intros seen; simpl; [constructor|].
  destruct (existsb (Z.eqb (page_of a)) seen); [apply IH|].
  simpl. constructor; [|apply IH].
  intros H. apply in_map_iff in H as (t & E & H).
  apply first_per_page_In in H as [_ H]. apply H. now left.
Qed.

Lemma first_per_page_best (seen : list Z) (l : list Table) (t0 : Table) :
  ordered_by_score l -> In t0 l -> ~ In (page_of t0) seen ->
  exists t, In t (first_per_page seen l)
            /\ page_of t = page_of t0 /\ score_of t0 <= score_of t.
Proof.
  revert seen. induction l as [| a l IH]; intros seen; simpl; [tauto|].
  intros [Ha Hl] Hin Hseen.
  destruct (existsb (Z.eqb (page_of a)) seen) eqn:E.
  - destruct Hin as [-> | Hin].
    + apply existsb_Zeqb_In in E. contradiction.
    + now apply IH.
  - destruct (Z.eq_dec (page_of a) (page_of t0)) as [P | P].
    + exists a. split; [now left|]. split; [assumption|].
      destruct Hin as [-> | Hin]; [apply Qle_refl | now apply Ha].
    + destruct Hin as [-> | Hin]; [contradiction|].
      destruct (IH (page_of a :: seen) Hl Hin) as (t & H1 & H2 & H3).
      * intros [H | H]; [now apply P | contradiction].
      * exists t. split; [now right | auto].
Qed.

Lemma first_per_page_ordered (seen : list Z) (l : list Table) :
  ordered_by_score l -> ordered_by_score (first_per_page seen l).
Proof.
  revert seen. induction l as [| a l IH]; intros seen; simpl; [trivial|].
  intros [Ha Hl]. destruct (existsb (Z.eqb (page_of a)) seen); [now apply IH|].
  simpl. split; [|now apply IH].
  intros t' H. apply first_per_page_In in H as [H _]. now apply Ha.
Qed.

Lemma all_tables_In (results : dict (list Table)) (t : Table) :
  In t (all_tables results)
  <-> exists m tables t0,
        In (m, tables) results /\ In t0 tables /\ t = with_quality_score t0.
Proof.
  unfold all_tables. rewrite in_flat_map. split.
  - intros ([m tables] & H & Ht). simpl in Ht.
    apply in_map_iff in Ht as (t0 & <- & Ht0). now exists m, tables, t0.
  - intros (m & tables & t0 & H & Ht0 & ->). exists (m, tables).
    split; [assumption|]. simpl. now apply in_map.
Qed.

Lemma one_per_key {A : Type} (f : A -> Z) (l : list A) (a b : A) :
  NoDup (map f l) -> In a l -> In b l -> f a = f b -> a = b.
Proof.
  induction l as [| x l IH]; simpl; [tauto|].
  intros N Ha Hb E. inversion N as [| ? ? Hx N']; subst.
  destruct Ha as [-> | Ha], Hb as [-> | Hb]; auto.
  - exfalso. apply Hx. rewrite E. now apply in_map.
  - exfalso. apply Hx. rewrite <- E. now apply in_map.
Qed.

(** X24.  [get_best_extraction] returns at most one table per page, each of
    them one of the extracted tables with its quality score attached; every
    page that has an extracted table is represented, by a table whose score
    is at least that of every table extracted for the page; the result is in
    non-increasing order of score.  Tables without a page all count as page
    0, so at most one of them is returned. *)
Theorem X24_best_table_per_page (results : dict (list Table)) :
  let out := get_best_extraction results in
  NoDup (map page_of out)
  /\ (forall t, In t out ->
        exists m tables t0,
          In (m, tables) results /\ In t0 tables /\ t = with_quality_score t0)
  /\ (forall m tables t0,
        In (m, tables) results -> In t0 tables ->
        exists t, In t out /\ page_of t = page_of t0
                  /\ _calculate_table_quality_score t0 <= score_of t)
  /\ ordered_by_score out
  /\ (forall t1 t2, In t1 out -> In t2 out ->
        page t1 = None -> page t2 = None -> t1 = t2).
Proof.
  cbv zeta. unfold get_best_extraction.
  pose proof (first_per_page_NoDup [] (sort_by_score (all_tables results))) as N.
  split; [exact N|]. split; [|split; [|split]].
  - intros t H. apply first_per_page_In in H as [H _].
    apply (proj1 (sort_by_score_In _ _)) in H. exact (proj1 (all_tables_In results t) H).
  - intros m tables t0 H Ht0.
    destruct (first_per_page_best [] (sort_by_score (all_tables results))
                (with_quality_score t0)) as (t & H1 & H2 & H3).
    + apply sort_by_score_ordered.
    + apply (proj2 (sort_by_score_In _ _)). apply (proj2 (all_tables_In results _)).
      now exists m, tables, t0.
    + intros [].
    + exists t. auto.
  - apply first_per_page_ordered, sort_by_score_ordered.
  - intros t1 t2 H1 H2 P1 P2. apply (one_per_key page_of _ _ _ N H1 H2).
    unfold page_of. now rewrite P1, P2.
Qed.

Lemma X24_witness :
  exists t,
    In t (get_best_extraction two_page_results)
    /\ page_of t = 0%Z
    /\ _calculate_table_quality_score
         {| frame := filled_table 4; page := None;
            method := Some "tabula"%string; accuracy := None;
            quality_score := None |} <= score_of t.
Proof.
  apply (proj1 (proj2 (proj2 (X24_best_table_per_page two_page_results)))
           "tabula"%string
           [ {| frame := filled_table 2; page := None;
                method := Some "tabula"%string; accuracy := None;
                quality_score := None |};
             {| frame := filled_table 4; page := None;
                method := Some "tabula"%string; accuracy := None;
                quality_score := None |} ]
           {| frame := filled_table 4; page := None;
              method := Some "tabula"%string; accuracy := None;
              quality_score := None |}).
  - right. right. left. reflexivity.
  - right. left. reflexivity.
Defined.

(** For the two-page document the camelot table wins page 1, the pdfplumber
    table page 2, and one tabula table is returned for both. *)
Example best_of_two_page_results :
  map method (get_best_extraction two_page_results)
  = [Some "camelot_lattice"; Some "pdfplumber"; Some "tabula"]%string
  /\ map page_of (get_best_extraction two_page_results) = [1; 2; 0]%Z.
Proof. split; reflexivity. Qed.
